(** * PS Consult (UNTH): the offline-first layer

    A shallow embedding of the two modules that carry the offline
    behaviour of the application, and of the code that uses them:

    - [db/offlineDb.js]: the Dexie (IndexedDB) store with the offline
      consult queue, the caches of server records, and the sync engine
      [syncAllPending];
    - [sw.js]: the service worker with its versioned cache names, the
      activation sweep, the caching strategies and the other listeners;
    - [OnlineStatusContext], the header of [Layout] and the pages that
      read and fill the store; [AuthContext], [ProtectedRoute] and the
      interceptors of the axios client.

    How the code is read:

    - An asynchronous function is a state-passing function: an
      [await]ed call is one step on the store, a promise is the value
      it settles to.  [syncAllPending] is the pass taken without other
      tasks interleaving at its suspension points; the provider, which
      can start a pass while another one is in flight, is a machine
      that takes a pass from one [await] to the next.
    - A table is the list of its rows in primary-key order, which is
      the order IndexedDB iterates a table, or an index on equal keys,
      in.  The table operations are total: storage errors (quota,
      corruption) are modelled only where the code handles them, in
      [onSubmit].
    - The clock ([Date.now()], [new Date()]) and [Math.random()] are
      inputs of the functions that read them.  [createdAt] is the
      string [toISOString] returns, and strings are compared as
      JavaScript compares them.
    - The transmit function handed to [syncAllPending] is any function
      of the payload over a state of its own; it returns whether its
      promise fulfilled or rejected.
    - The cache storage is the list of the named caches in creation
      order; a cache maps the URL of a GET request to a response.
      [fetch] is a function from requests to a response or an error.
      A response that the Cache interface refuses (status 206, or a
      [Vary] header that lists [*]) is not stored.

    The [syncLog] table, which no function reads or writes, is left
    out.

    Part I holds the definitions, Part II the properties of the
    specification, Part III further properties of the code. *)

From Stdlib Require Import ZArith NArith String Ascii List Bool Lia.
From Stdlib Require Import Permutation Sorted DecimalString.
From Stdlib Require DecimalPos DecimalZ.
From stdpp Require Import base gmap strings list.

Local Open Scope Z_scope.

(* ================================================================== *)
(** * Part I: definitions                                               *)
(* ================================================================== *)

(** ** JavaScript strings and dates *)

Module Js.

(** [a < b] on two strings: code units are compared left to right. *)
Definition str_lt (a b : string) : bool := String.ltb a b.
Definition str_le (a b : string) : bool := String.leb a b.

(** [s.startsWith(p)] *)
Definition startsWith (p s : string) : bool := String.prefix p s.

(** [s.endsWith(p)] *)
Definition endsWith (p s : string) : bool :=
  let n := String.length s in
  let m := String.length p in
  (m <=? n)%nat && String.eqb (String.substring (n - m) m s) p.

(** ASCII case folding, as the [i] flag of a regular expression
    without the [u] flag does it on ASCII letters. *)
Definition lower_ascii (c : ascii) : ascii :=
  let n := nat_of_ascii c in
  if ((65 <=? n) && (n <=? 90))%nat then ascii_of_nat (n + 32) else c.

Fixpoint toLowerCase (s : string) : string :=
  match s with
  | EmptyString => EmptyString
  | String c s' => String (lower_ascii c) (toLowerCase s')
  end.

(** [String(n)] for an integer [n]. *)
Definition ofInt (n : Z) : string := NilZero.string_of_int (Z.to_int n).

(** [s.slice(a, b)] for [0 <= a <= b]. *)
Definition slice (a b : nat) (s : string) : string :=
  String.substring a (b - a) s.

(** The pieces of [s] between the occurrences of [sep]. *)
Fixpoint split (sep : ascii) (s : string) : list string :=
  match s with
  | EmptyString => [EmptyString]
  | String c s' =>
      if Ascii.eqb c sep then EmptyString :: split sep s'
      else match split sep s' with
           | h :: t => String c h :: t
           | [] => [String c EmptyString]
           end
  end.

(** Space and horizontal tab, the whitespace allowed around the items
    of an HTTP list. *)
Definition isHttpSpace (c : ascii) : bool :=
  Ascii.eqb c " " || Ascii.eqb c "009".

Fixpoint trimStart (s : string) : string :=
  match s with
  | EmptyString => EmptyString
  | String c s' => if isHttpSpace c then trimStart s' else s
  end.

Fixpoint trimEnd (s : string) : string :=
  match s with
  | EmptyString => EmptyString
  | String c s' =>
      let t := trimEnd s' in
      if isHttpSpace c && String.eqb t EmptyString then EmptyString else String c t
  end.

Definition trim (s : string) : string := trimEnd (trimStart s).

End Js.

Module JsDate.

(** Time values are milliseconds since 1970-01-01T00:00:00Z, what
    [Date.now()] returns. *)
Definition msPerDay : Z := 86400000.

Definition isLeapYear (y : Z) : bool :=
  (y mod 4 =? 0) && (negb (y mod 100 =? 0) || (y mod 400 =? 0)).

Definition daysInMonth (y m : Z) : Z :=
  if m =? 2 then (if isLeapYear y then 29 else 28)
  else if (m =? 4) || (m =? 6) || (m =? 9) || (m =? 11) then 30
  else 31.

Record civil := Civil { year : Z; month : Z; day : Z }.

Definition epoch : civil := Civil 1970 1 1.

Definition nextDay (c : civil) : civil :=
  if day c <? daysInMonth (year c) (month c)
  then Civil (year c) (month c) (day c + 1)
  else if month c <? 12
       then Civil (year c) (month c + 1) 1
       else Civil (year c + 1) 1 1.

Definition prevDay (c : civil) : civil :=
  if 1 <? day c
  then Civil (year c) (month c) (day c - 1)
  else if 1 <? month c
       then Civil (year c) (month c - 1) (daysInMonth (year c) (month c - 1))
       else Civil (year c - 1) 12 31.

(** The calendar date of day number [d] (day 0 is 1970-01-01), by
    walking the proleptic Gregorian calendar from the epoch. *)
Definition civilFromDays (d : Z) : civil :=
  if 0 <=? d then N.iter (Z.to_N d) nextDay epoch
  else N.iter (Z.to_N (- d)) prevDay epoch.

Definition digit (n : Z) : ascii := ascii_of_nat (48 + Z.to_nat n).

(** [pad k n]: the [k] low decimal digits of [n], most significant
    first ([String(n).padStart(k, '0')] when [0 <= n < 10^k]). *)
Fixpoint pad (k : nat) (n : Z) : string :=
  match k with
  | O => EmptyString
  | S k' => String (digit ((n / 10 ^ Z.of_nat k') mod 10)) (pad k' n)
  end.

Definition yearString (y : Z) : string :=
  if (0 <=? y) && (y <=? 9999) then pad 4 y
  else ((if 0 <=? y then "+" else "-") +:+ pad 6 (Z.abs y)).

(** [new Date(t).toISOString()]: [YYYY-MM-DDTHH:mm:ss.sssZ]. *)
Definition toISOString (t : Z) : string :=
  let c := civilFromDays (t / msPerDay) in
  let r := t mod msPerDay in
  yearString (year c) +:+ "-" +:+ pad 2 (month c) +:+ "-" +:+ pad 2 (day c)
    +:+ "T" +:+ pad 2 (r / 3600000) +:+ ":" +:+ pad 2 ((r / 60000) mod 60)
    +:+ ":" +:+ pad 2 ((r / 1000) mod 60) +:+ "." +:+ pad 3 (r mod 1000)
    +:+ "Z".

(** The dates of the calendar. *)
Definition civilValid (c : civil) : Prop :=
  1 <= month c <= 12 /\ 1 <= day c <= daysInMonth (year c) (month c).

(** Lexicographic composition of comparisons, and the order of
    calendar dates. *)
Definition lexc (c1 c2 : comparison) : comparison :=
  match c1 with Eq => c2 | _ => c1 end.

Definition civilCompare (a b : civil) : comparison :=
  lexc (year a ?= year b) (lexc (month a ?= month b) (day a ?= day b)).

(** The last millisecond of year 9999: up to here [toISOString] has
    a four-digit year. *)
Definition maxFourDigitTime : Z := 253402300799999.

End JsDate.

(** ** The Dexie store of [db/offlineDb.js] *)

(** One row of [offlineConsults] ('++id, clientId, status, createdAt'). *)
Module Entry.
Inductive Status := pending | synced | failed.

Definition status_eqb (a b : Status) : bool :=
  match a, b with
  | pending, pending | synced, synced | failed, failed => true
  | _, _ => false
  end.

Record t := Make {
  id : Z;
  clientId : string;
  data : gmap string string;
  status : Status;
  createdAt : string;
  attempts : Z
}.
End Entry.

(** A consult as the server lists it; [created_at] may be absent. *)
Module Consult.
Record t := Make {
  id : Z;
  consult_id : string;
  ward : string;
  urgency : string;
  status : string;
  created_at : option string;
  fields : gmap string string
}.
End Consult.

(** One row of [cachedConsults]
    ('id, consultId, ward, urgency, status, createdAt'). *)
Module CachedConsult.
Record t := Make {
  id : Z;
  consultId : string;
  ward : string;
  urgency : string;
  status : string;
  createdAt : option string;
  data : Consult.t
}.
End CachedConsult.

Module Schedule.
Record t := Make {
  id : Z;
  service_type : string;
  day_of_week : string;
  fields : gmap string string
}.
End Schedule.

(** One row of [cachedSchedule] ('id, serviceType, dayOfWeek'). *)
Module CachedSchedule.
Record t := Make {
  id : Z;
  serviceType : string;
  dayOfWeek : string;
  data : Schedule.t
}.
End CachedSchedule.

(** Tables are kept as IndexedDB iterates them: rows in ascending
    order of the primary key. *)
Module Dexie.

Section Table.
Context {R : Type}.
Variable key : R -> Z.

(** [table.get(k)] *)
Fixpoint get (k : Z) (rows : list R) : option R :=
  match rows with
  | [] => None
  | r :: rows' => if key r =? k then Some r else get k rows'
  end.

(** [table.put(r)]: insert at the key's place, or overwrite the
    row that has the key. *)
Fixpoint put (r : R) (rows : list R) : list R :=
  match rows with
  | [] => [r]
  | x :: rows' =>
      if key r <? key x then r :: x :: rows'
      else if key r =? key x then r :: rows'
      else x :: put r rows'
  end.

(** [table.add(r)] on a table with a key generator: the generated key
    is fresh and the row takes its place in key order. *)
Definition add (r : R) (rows : list R) : list R := put r rows.

(** [table.bulkPut(rs)]: the rows are put one after the other. *)
Definition bulkPut (rs : list R) (rows : list R) : list R :=
  fold_left (fun acc r => put r acc) rs rows.

(** [table.update(k, changes)]: the row with key [k] is modified by
    [f]; nothing happens when there is none.  (The number of rows
    updated, which Dexie returns, is not used by the callers.) *)
Fixpoint modify (f : R -> R) (k : Z) (rows : list R) : list R :=
  match rows with
  | [] => []
  | r :: rows' =>
      if key r =? k then f r :: modify f k rows' else r :: modify f k rows'
  end.

(** [collection.delete()] for the collection of the rows that
    satisfy [p]; returns the number of rows deleted. *)
Definition deleteWhere (p : R -> bool) (rows : list R) : Z * list R :=
  (Z.of_nat (length (List.filter p rows)), List.filter (fun r => negb (p r)) rows).

(** Insertion sort along an index, used for [orderBy]. *)
Variable le : R -> R -> bool.

Fixpoint insertBy (r : R) (rows : list R) : list R :=
  match rows with
  | [] => [r]
  | x :: rows' => if le r x then r :: x :: rows' else x :: insertBy r rows'
  end.

Fixpoint sortBy (rows : list R) : list R :=
  match rows with
  | [] => []
  | r :: rows' => insertBy r (sortBy rows')
  end.
End Table.

End Dexie.

Module OfflineDb.

Record Db := MakeDb {
  offlineConsults : list Entry.t;
  (** the key generator of '++id': the next key, never reused *)
  offlineConsultsNextId : Z;
  cachedConsults : list CachedConsult.t;
  cachedSchedule : list CachedSchedule.t
}.

(** [new Dexie('PSConsultDB')] on a fresh origin. *)
Definition emptyDb : Db := MakeDb [] 1 [] [].

Definition setOfflineConsults (rows : list Entry.t) (db : Db) : Db :=
  MakeDb rows (offlineConsultsNextId db) (cachedConsults db) (cachedSchedule db).
Definition setCachedConsults (rows : list CachedConsult.t) (db : Db) : Db :=
  MakeDb (offlineConsults db) (offlineConsultsNextId db) rows (cachedSchedule db).
Definition setCachedSchedule (rows : list CachedSchedule.t) (db : Db) : Db :=
  MakeDb (offlineConsults db) (offlineConsultsNextId db) (cachedConsults db) rows.

(** *** Offline consult queue *)

(** [saveOfflineConsult(consultData)].  [now1] and [now2] are the two
    clock readings ([Date.now()], then [new Date()]), [rnd] is
    [Math.random().toString(36)]. *)
Definition saveOfflineConsult (now1 now2 : Z) (rnd : string)
    (consultData : gmap string string) (db : Db) : (Z * string) * Db :=
  let clientId := "offline-" +:+ Js.ofInt now1 +:+ "-" +:+ Js.slice 2 9 rnd in
  let id := offlineConsultsNextId db in
  let entry :=
    Entry.Make id clientId (<["client_id" := clientId]> consultData)
      Entry.pending (JsDate.toISOString now2) 0 in
  ((id, clientId),
   MakeDb (Dexie.add Entry.id entry (offlineConsults db)) (id + 1)
     (cachedConsults db) (cachedSchedule db)).

(** [getPendingConsults()]: the rows of the [status] index equal to
    'pending', which come in primary-key order. *)
Definition getPendingConsults (db : Db) : list Entry.t :=
  List.filter (fun e => Entry.status_eqb (Entry.status e) Entry.pending)
    (offlineConsults db).

Definition setStatus (s : Entry.Status) (e : Entry.t) : Entry.t :=
  Entry.Make (Entry.id e) (Entry.clientId e) (Entry.data e) s
    (Entry.createdAt e) (Entry.attempts e).

(** [markConsultSynced(id)] *)
Definition markConsultSynced (id : Z) (db : Db) : Db :=
  setOfflineConsults
    (Dexie.modify Entry.id (setStatus Entry.synced) id (offlineConsults db)) db.

(** [attempts || 0] *)
Definition orZero (n : Z) : Z := if n =? 0 then 0 else n.

(** [markConsultFailed(id)] *)
Definition markConsultFailed (id : Z) (db : Db) : Db :=
  match Dexie.get Entry.id id (offlineConsults db) with
  | Some entry =>
      setOfflineConsults
        (Dexie.modify Entry.id
           (fun e => Entry.Make (Entry.id e) (Entry.clientId e) (Entry.data e)
                       Entry.failed (Entry.createdAt e)
                       (orZero (Entry.attempts entry) + 1))
           id (offlineConsults db)) db
  | None => db
  end.

(** [cleanupSyncedConsults()] at clock reading [now]. *)
Definition cleanupSyncedConsults (now : Z) (db : Db) : Z * Db :=
  let cutoff := JsDate.toISOString (now - 7 * 24 * 60 * 60 * 1000) in
  let '(n, rows) :=
    Dexie.deleteWhere
      (fun entry => Entry.status_eqb (Entry.status entry) Entry.synced
                    && Js.str_lt (Entry.createdAt entry) cutoff)
      (offlineConsults db) in
  (n, setOfflineConsults rows db).

(** *** Cache helpers *)

Definition toCachedConsult (c : Consult.t) : CachedConsult.t :=
  CachedConsult.Make (Consult.id c) (Consult.consult_id c) (Consult.ward c)
    (Consult.urgency c) (Consult.status c) (Consult.created_at c) c.

(** [cacheConsults(consults)] *)
Definition cacheConsults (consults : list Consult.t) (db : Db) : Db :=
  let db1 := setCachedConsults [] db in
  if (0 <? length consults)%nat
  then setCachedConsults
         (Dexie.bulkPut CachedConsult.id (map toCachedConsult consults)
            (cachedConsults db1)) db1
  else db1.

(** The order of the [createdAt] index: by key, then by primary key.
    Rows without a [createdAt] are not in the index. *)
Definition createdAtIndexLe (a b : CachedConsult.t) : bool :=
  match CachedConsult.createdAt a, CachedConsult.createdAt b with
  | Some x, Some y =>
      match String.compare x y with
      | Lt => true
      | Eq => CachedConsult.id a <=? CachedConsult.id b
      | Gt => false
      end
  | _, _ => true
  end.

Definition hasCreatedAt (e : CachedConsult.t) : bool :=
  match CachedConsult.createdAt e with Some _ => true | None => false end.

Definition orderByCreatedAt (rows : list CachedConsult.t) : list CachedConsult.t :=
  Dexie.sortBy createdAtIndexLe (List.filter hasCreatedAt rows).

(** [getCachedConsults()] *)
Definition getCachedConsults (db : Db) : list Consult.t :=
  let entries := rev (orderByCreatedAt (cachedConsults db)) in
  map CachedConsult.data entries.

Definition toCachedSchedule (s : Schedule.t) : CachedSchedule.t :=
  CachedSchedule.Make (Schedule.id s) (Schedule.service_type s)
    (Schedule.day_of_week s) s.

(** [cacheSchedule(schedules)] *)
Definition cacheSchedule (schedules : list Schedule.t) (db : Db) : Db :=
  let db1 := setCachedSchedule [] db in
  if (0 <? length schedules)%nat
  then setCachedSchedule
         (Dexie.bulkPut CachedSchedule.id (map toCachedSchedule schedules)
            (cachedSchedule db1)) db1
  else db1.

(** [getCachedSchedule()] *)
Definition getCachedSchedule (db : Db) : list Schedule.t :=
  map CachedSchedule.data (cachedSchedule db).

(** *** Sync engine *)

Record SyncResult := MakeResult { synced : Z; failed : Z }.

Section SyncEngine.
(** [syncFn] is any asynchronous function of the payload; [W] is
    whatever it acts on (the network, the server).  It returns
    [true] when its promise fulfils and [false] when it rejects. *)
Context {W : Type}.
Variable syncFn : gmap string string -> W -> bool * W.

(** The body of [for (const entry of pending) { try ... catch ... }]. *)
Fixpoint syncLoop (pending : list Entry.t) (db : Db) (w : W)
    (synced failed : Z) : Db * W * Z * Z :=
  match pending with
  | [] => (db, w, synced, failed)
  | entry :: rest =>
      let '(ok, w') := syncFn (Entry.data entry) w in
      if ok
      then syncLoop rest (markConsultSynced (Entry.id entry) db) w'
             (synced + 1) failed
      else syncLoop rest (markConsultFailed (Entry.id entry) db) w'
             synced (failed + 1)
  end.

(** [syncAllPending(syncFn)]; [now] is the clock reading of the
    cleanup at the end. *)
Definition syncAllPending (now : Z) (db : Db) (w : W) : SyncResult * Db * W :=
  let pending := getPendingConsults db in
  let '(db1, w1, synced, failed) := syncLoop pending db w 0 0 in
  let '(_, db2) := cleanupSyncedConsults now db1 in
  (MakeResult synced failed, db2, w1).
End SyncEngine.

End OfflineDb.

(** ** The service worker [sw.js] *)

Module Sw.

Definition CACHE_VERSION : string := "v6".

(** The cache name of a logical role at a build version. *)
Definition staticName (v : string) : string := "ps-consult-static-" +:+ v.
Definition apiName (v : string) : string := "ps-consult-api-" +:+ v.
Definition imagesName (v : string) : string := "ps-consult-images-" +:+ v.

Definition STATIC_CACHE : string := staticName CACHE_VERSION.
Definition API_CACHE : string := apiName CACHE_VERSION.
Definition IMAGE_CACHE : string := imagesName CACHE_VERSION.

Record Response := MakeResponse {
  status : Z;
  statusText : string;
  headers : list (string * string);
  body : string
}.

(** [response.ok] *)
Definition ok (r : Response) : bool := (200 <=? status r) && (status r <=? 299).

(** A request with the parts of [new URL(request.url)]. *)
Record Request := MakeRequest {
  origin : string;
  pathname : string;
  search : string;
  method : string;
  mode : string
}.

Definition url (r : Request) : string := origin r +:+ pathname r +:+ search r.

(** A cache maps the URL of a GET request to the response stored for
    it; the cache storage lists the named caches in creation order. *)
Abbreviation Cache := (gmap string Response).
Abbreviation CacheStorage := (list (string * gmap string Response)).

(** [caches.keys()] *)
Definition keys (cs : CacheStorage) : list string := map fst cs.

(** [caches.has(name)] *)
Definition has (name : string) (cs : CacheStorage) : bool :=
  existsb (fun c => String.eqb (fst c) name) cs.

(** [caches.open(name)]: the cache is created when it does not exist. *)
Definition open (name : string) (cs : CacheStorage) : CacheStorage :=
  if has name cs then cs else cs ++ [(name, ∅)].

(** The content of the cache [name], if there is one. *)
Fixpoint content (name : string) (cs : CacheStorage) : option Cache :=
  match cs with
  | [] => None
  | (n, c) :: cs' => if String.eqb n name then Some c else content name cs'
  end.

(** [cache.match(key)] on the cache called [name]. *)
Definition cacheMatch (name key : string) (cs : CacheStorage) : option Response :=
  match content name cs with
  | Some c => c !! key
  | None => None
  end.

(** Whether a header of [r] called [Vary] (in any case) lists [*]
    among its comma-separated values. *)
Definition variesOnAll (r : Response) : bool :=
  existsb (fun h =>
             String.eqb (Js.toLowerCase (fst h)) "vary"
             && existsb (fun v => String.eqb (Js.trim v) "*") (Js.split "," (snd h)))
          (headers r).

(** Whether the Cache interface takes [r]: [cache.put] rejects with a
    [TypeError], and stores nothing, when the status is 206 or a [Vary]
    header lists [*]. *)
Definition storable (r : Response) : bool :=
  negb (status r =? 206) && negb (variesOnAll r).

(** The write of [r] under [key] in the cache called [name]. *)
Fixpoint cacheStore (name key : string) (r : Response) (cs : CacheStorage)
    : CacheStorage :=
  match cs with
  | [] => []
  | (n, c) :: cs' =>
      if String.eqb n name then (n, <[key := r]> c) :: cs'
      else (n, c) :: cacheStore name key r cs'
  end.

(** [cache.put(key, response)] on the cache called [name], for a GET
    request to an http(s) URL: the storage once the promise has
    settled.  The worker never awaits this promise and attaches no
    handler to it, so a rejection changes nothing else. *)
Definition cachePut (name key : string) (r : Response) (cs : CacheStorage)
    : CacheStorage :=
  if storable r then cacheStore name key r cs else cs.

(** [caches.match(key)]: the first hit, the caches taken in creation
    order. *)
Fixpoint cachesMatch (key : string) (cs : CacheStorage) : option Response :=
  match cs with
  | [] => None
  | (_, c) :: cs' =>
      match c !! key with
      | Some r => Some r
      | None => cachesMatch key cs'
      end
  end.

(** [caches.delete(name)] *)
Definition delete (name : string) (cs : CacheStorage) : CacheStorage :=
  List.filter (fun c => negb (String.eqb (fst c) name)) cs.

(** [list.includes(k)] *)
Definition includes (k : string) (l : list string) : bool :=
  existsb (String.eqb k) l.

(** *** Activate *)

Definition allowedCaches : list string := [STATIC_CACHE; API_CACHE; IMAGE_CACHE].

(** The [activate] listener: every cache whose name is not allowed is
    deleted. *)
Definition activate (cs : CacheStorage) : CacheStorage :=
  fold_left (fun acc k => delete k acc)
    (List.filter (fun k => negb (includes k allowedCaches)) (keys cs)) cs.

(** *** Strategies *)

(** What [fetch(request)] settles to. *)
Inductive FetchResult :=
| FetchResponse (r : Response)
| FetchError (e : string).

(** What the promise of a strategy settles to: a value, which is a
    response or [undefined], or a rejection. *)
Inductive Settled :=
| Fulfilled (v : option Response)
| Rejected (e : string).

Definition dquote : string := String "034"%char EmptyString.

(** [JSON.stringify({ detail: 'You are offline. Showing cached data.' })] *)
Definition offlineBody : string :=
  "{" +:+ dquote +:+ "detail" +:+ dquote +:+ ":" +:+ dquote
    +:+ "You are offline. Showing cached data." +:+ dquote +:+ "}".

Definition offlineApiResponse : Response :=
  MakeResponse 503 "" [("Content-Type", "application/json")] offlineBody.

Definition offlinePlaceholder : Response := MakeResponse 503 "Offline" [] "".

Section Worker.
(** [self.location.origin] and the network. *)
Variable selfOrigin : string.
Variable fetch : Request -> FetchResult.

Definition networkFirst (request : Request) (cacheName : string)
    (cs : CacheStorage) : Settled * CacheStorage :=
  match fetch request with
  | FetchResponse response =>
      if ok response
      then (Fulfilled (Some response),
            cachePut cacheName (url request) response (open cacheName cs))
      else (Fulfilled (Some response), cs)
  | FetchError _ =>
      match cachesMatch (url request) cs with
      | Some cached => (Fulfilled (Some cached), cs)
      | None => (Fulfilled (Some offlineApiResponse), cs)
      end
  end.

Definition cacheFirst (request : Request) (cacheName : string)
    (cs : CacheStorage) : Settled * CacheStorage :=
  match cachesMatch (url request) cs with
  | Some cached => (Fulfilled (Some cached), cs)
  | None =>
      match fetch request with
      | FetchResponse response =>
          if ok response
          then (Fulfilled (Some response),
                cachePut cacheName (url request) response (open cacheName cs))
          else (Fulfilled (Some response), cs)
      | FetchError _ => (Fulfilled (Some offlinePlaceholder), cs)
      end
  end.

(** [staleWhileRevalidate]: the cache storage returned is the one
    after [fetchPromise] has settled. *)
Definition staleWhileRevalidate (request : Request) (cacheName : string)
    (cs : CacheStorage) : Settled * CacheStorage :=
  let cs1 := open cacheName cs in
  let cached := cacheMatch cacheName (url request) cs1 in
  let fetchPromise :=
    match fetch request with
    | FetchResponse response =>
        (Fulfilled (Some response),
         if ok response then cachePut cacheName (url request) response cs1
         else cs1)
    | FetchError _ => (Fulfilled cached, cs1)
    end in
  match cached with
  | Some c => (Fulfilled (Some c), snd fetchPromise)
  | None => fetchPromise
  end.

(** The navigation branch of the [fetch] listener. *)
Definition navigate (request : Request) (cs : CacheStorage)
    : Settled * CacheStorage :=
  match fetch request with
  | FetchResponse response =>
      (Fulfilled (Some response),
       cachePut STATIC_CACHE (selfOrigin +:+ "/index.html") response
         (open STATIC_CACHE cs))
  | FetchError _ => (Fulfilled (cachesMatch (selfOrigin +:+ "/index.html") cs), cs)
  end.

Definition imageExtensions : list string :=
  ["png"; "jpg"; "jpeg"; "svg"; "gif"; "webp"; "ico"].

Definition assetExtensions : list string :=
  ["js"; "css"; "woff2"; "woff"; "ttf"; "eot"].

(** [/\.(e1|e2|...)$/i.test(path)] *)
Definition hasExtension (exts : list string) (path : string) : bool :=
  existsb (fun e => Js.endsWith ("." +:+ e) (Js.toLowerCase path)) exts.

(** What the [fetch] listener does with an event: nothing (the request
    goes to the network as if there were no worker), or
    [event.respondWith(...)]. *)
Inductive Handling :=
| PassThrough
| RespondWith (r : Settled * CacheStorage).

Definition onFetch (request : Request) (cs : CacheStorage) : Handling :=
  if negb (String.eqb (origin request) selfOrigin) then PassThrough
  else if negb (String.eqb (method request) "GET") then PassThrough
  else if Js.startsWith "/api/" (pathname request)
  then RespondWith (networkFirst request API_CACHE cs)
  else if hasExtension imageExtensions (pathname request)
  then RespondWith (cacheFirst request IMAGE_CACHE cs)
  else if hasExtension assetExtensions (pathname request)
  then RespondWith (staleWhileRevalidate request STATIC_CACHE cs)
  else if String.eqb (mode request) "navigate"
  then RespondWith (navigate request cs)
  else RespondWith (cacheFirst request STATIC_CACHE cs).

End Worker.

End Sw.

(** ** Notions used to state the properties *)

Module Props.
Import OfflineDb.

(** The shape Dexie keeps [offlineConsults] in: keys strictly
    ascending, all below the key generator. *)
Definition wfDb (db : Db) : Prop :=
  StronglySorted Z.lt (map Entry.id (offlineConsults db))
  /\ Forall (fun e => Entry.id e < offlineConsultsNextId db) (offlineConsults db).

(** A transmit function that also records the payloads it is given. *)
Definition logged {W : Type} (syncFn : gmap string string -> W -> bool * W)
    (d : gmap string string) (wl : W * list (gmap string string))
    : bool * (W * list (gmap string string)) :=
  let '(ok, w') := syncFn d (fst wl) in (ok, (w', snd wl ++ [d])).

(** The results of the transmissions of a pass over [pending], in
    order: [true] for a promise that fulfils, [false] for one that
    rejects. *)
Fixpoint outcomes {W : Type} (syncFn : gmap string string -> W -> bool * W)
    (pending : list Entry.t) (w : W) : list bool :=
  match pending with
  | [] => []
  | entry :: rest =>
      let '(ok, w') := syncFn (Entry.data entry) w in
      ok :: outcomes syncFn rest w'
  end.

(** The state [syncFn] leaves behind after the transmissions. *)
Fixpoint worldAfter {W : Type} (syncFn : gmap string string -> W -> bool * W)
    (pending : list Entry.t) (w : W) : W :=
  match pending with
  | [] => w
  | entry :: rest => worldAfter syncFn rest (snd (syncFn (Entry.data entry) w))
  end.

(** How many of the results are [b]. *)
Definition count (b : bool) (l : list bool) : Z :=
  Z.of_nat (length (List.filter (Bool.eqb b) l)).

(** What the loop does to the store for one entry, given the result of
    its transmission. *)
Definition mark (db : Db) (eo : Entry.t * bool) : Db :=
  if snd eo then markConsultSynced (Entry.id (fst eo)) db
  else markConsultFailed (Entry.id (fst eo)) db.

(** The row of an entry after its transmission. *)
Definition markedRow (ok : bool) (e : Entry.t) : Entry.t :=
  if ok then setStatus Entry.synced e
  else Entry.Make (Entry.id e) (Entry.clientId e) (Entry.data e) Entry.failed
         (Entry.createdAt e) (orZero (Entry.attempts e) + 1).

(** Operations on the queue: an enqueue, the two marks the sync engine
    sets, and the retention sweep. *)
Inductive QueueOp :=
| Enqueue (now1 now2 : Z) (rnd : string) (consultData : gmap string string)
| MarkSynced (id : Z)
| MarkFailed (id : Z)
| Sweep (now : Z).

(** The keys of the entries that have reached 'synced', and of those
    that have reached 'failed'. *)
Record Reached := MakeReached { reachedSynced : gset Z; reachedFailed : gset Z }.

Definition present (id : Z) (db : Db) : bool :=
  match Dexie.get Entry.id id (offlineConsults db) with
  | Some _ => true
  | None => false
  end.

(** One operation, on the store and on the record of what has been
    reached. *)
Definition step (st : Db * Reached) (op : QueueOp) : Db * Reached :=
  match op with
  | Enqueue now1 now2 rnd consultData =>
      (snd (saveOfflineConsult now1 now2 rnd consultData (fst st)), snd st)
  | MarkSynced id =>
      (markConsultSynced id (fst st),
       if present id (fst st)
       then MakeReached ({[id]} ∪ reachedSynced (snd st)) (reachedFailed (snd st))
       else snd st)
  | MarkFailed id =>
      (markConsultFailed id (fst st),
       if present id (fst st)
       then MakeReached (reachedSynced (snd st)) ({[id]} ∪ reachedFailed (snd st))
       else snd st)
  | Sweep now => (snd (cleanupSyncedConsults now (fst st)), snd st)
  end.

Definition run (ops : list QueueOp) : Db * Reached :=
  fold_left step ops (emptyDb, MakeReached ∅ ∅).

(** The operation the loop of a pass does for an entry, given the
    result of its transmission. *)
Definition markOp (eo : Entry.t * bool) : QueueOp :=
  if snd eo then MarkSynced (Entry.id (fst eo)) else MarkFailed (Entry.id (fst eo)).

Definition isEnqueue (op : QueueOp) : bool :=
  match op with Enqueue _ _ _ _ => true | _ => false end.

Definition enqueues (ops : list QueueOp) : Z :=
  Z.of_nat (length (List.filter isEnqueue ops)).

(** The clock readings that stamp [createdAt], in the order of the
    enqueues. *)
Fixpoint stamps (ops : list QueueOp) : list Z :=
  match ops with
  | [] => []
  | Enqueue _ now2 _ _ :: ops' => now2 :: stamps ops'
  | _ :: ops' => stamps ops'
  end.


(** What the retention sweep deletes at clock reading [now]. *)
Definition expired (now : Z) (e : Entry.t) : bool :=
  Entry.status_eqb (Entry.status e) Entry.synced
  && Js.str_lt (Entry.createdAt e) (JsDate.toISOString (now - 7 * 24 * 60 * 60 * 1000)).

(** What holds of the store and of the record of what has been reached
    after [ops]. *)
Record queueInv (ops : list QueueOp) (st : Db * Reached) : Prop := {
  inv_wf : wfDb (fst st);
  inv_pos : Forall (fun e => 1 <= Entry.id e) (offlineConsults (fst st));
  inv_next : offlineConsultsNextId (fst st) = enqueues ops + 1;
  inv_status :
    Forall (fun e => match Entry.status e with
                     | Entry.pending =>
                         Entry.id e ∉ reachedSynced (snd st) ∪ reachedFailed (snd st)
                     | Entry.synced => Entry.id e ∈ reachedSynced (snd st)
                     | Entry.failed => Entry.id e ∈ reachedFailed (snd st)
                     end) (offlineConsults (fst st));
  inv_reached :
    forall k, k ∈ reachedSynced (snd st) ∪ reachedFailed (snd st) ->
              k < offlineConsultsNextId (fst st);
  inv_count :
    Z.of_nat (length (getPendingConsults (fst st)))
    + Z.of_nat (size (reachedSynced (snd st) ∪ reachedFailed (snd st)))
    = enqueues ops;
  inv_stamp :
    Forall (fun e => exists t, stamps ops !! Z.to_nat (Entry.id e - 1) = Some t
                               /\ Entry.createdAt e = JsDate.toISOString t)
      (offlineConsults (fst st));
  inv_stamps_len : Z.of_nat (length (stamps ops)) = enqueues ops
}.

(** A server record that carries a [created_at]. *)
Definition hasTimestamp (c : Consult.t) : bool :=
  match Consult.created_at c with Some _ => true | None => false end.

(** [a] is listed before [b] when it is at least as new. *)
Definition newerOrSame (a b : Consult.t) : Prop :=
  exists x y, Consult.created_at a = Some x /\ Consult.created_at b = Some y
              /\ Js.str_le y x = true.

End Props.

(** ** Sample stores, requests and histories *)

Module Samples.
Import OfflineDb Props Sw.

Definition entry (id : Z) (s : Entry.Status) (createdAt : string) (attempts : Z)
    : Entry.t :=
  Entry.Make id ("offline-" +:+ Js.ofInt id) ∅ s createdAt attempts.

Definition threePending : Db :=
  MakeDb [entry 1 Entry.pending "2024-02-29T12:00:00.000Z" 0;
          entry 2 Entry.pending "2024-02-29T12:05:00.000Z" 0;
          entry 3 Entry.pending "2024-02-29T12:10:00.000Z" 0] 4 [] [].

(** A transmit function whose second call rejects; the state counts
    the calls. *)
Definition secondThrows (d : gmap string string) (calls : nat) : bool * nat :=
  (negb (Nat.eqb calls 1), S calls).

Definition now : Z := 1709210096789.

Definition day : Z := 86400000.

Definition aged : Db :=
  MakeDb [entry 1 Entry.synced (JsDate.toISOString (now - 8 * day)) 0;
          entry 2 Entry.synced (JsDate.toISOString (now - 6 * day)) 0;
          entry 3 Entry.failed (JsDate.toISOString (now - 30 * day)) 1;
          entry 4 Entry.pending (JsDate.toISOString (now - 30 * day)) 0] 5 [] [].



Definition failedFetch : Request -> FetchResult :=
  fun _ => FetchError "TypeError: Failed to fetch".

Definition assetRequest : Request :=
  MakeRequest "https://consult.example" "/assets/index-4f3a.js" "" "GET" "no-cors".

Definition serverError : Response := MakeResponse 500 "Internal Server Error" [] "".

Definition apiRequest : Request :=
  MakeRequest "https://consult.example" "/api/consults" "" "GET" "cors".

Definition consult (id : Z) (created_at : option string) (ward : string) : Consult.t :=
  Consult.Make id ("PSC-" +:+ Js.ofInt id) ward "routine" "pending" created_at ∅.

Definition listed : list Consult.t :=
  [consult 7 (Some "2024-02-27T08:00:00") "A&E";
   consult 9 (Some "2024-02-29T10:30:00") "Ward 4";
   consult 8 (Some "2024-02-28T17:45:00") "ICU"].

Definition slots : list Schedule.t :=
  [Schedule.Make 2 "clinic" "monday" ∅; Schedule.Make 1 "theatre" "tuesday" ∅].

(** Two records with one id, as an upsert sees them. *)
Definition sameId : list Consult.t :=
  [consult 7 (Some "2024-02-27T08:00:00") "A&E";
   consult 7 (Some "2024-02-29T10:30:00") "Ward 4"].

Definition untimed : list Consult.t := [consult 5 None "Ward 2"].

Definition okResponse : Response :=
  MakeResponse 200 "OK" [("Content-Type", "application/json")] "[]".

Definition oldAndNew : list (string * gmap string Response) :=
  [(staticName "v5", ∅); (apiName "v5", ∅); (STATIC_CACHE, ∅); ("other", ∅);
   (API_CACHE, ∅)].

Definition primed : list (string * gmap string Response) :=
  [(STATIC_CACHE, {[ url assetRequest := okResponse ]})].

(** The queue after one enqueue and a pass whose transmission throws,
    and the next pass, whose transmit function would succeed. *)
Definition queued : Db :=
  snd (saveOfflineConsult 1709210096789 1709210096790 "0.4fzyo82mvyr" ∅ emptyDb).

Definition firstPass : SyncResult * Db * unit :=
  syncAllPending (fun _ w => (false, w)) 1709210100000 queued tt.

Definition secondPass
    : SyncResult * Db * (unit * list (gmap string string)) :=
  syncAllPending (logged (fun _ w => (true, w))) 1709210200000
    (snd (fst firstPass)) (tt, []).

End Samples.

(** ** The other listeners of the service worker *)

Module SwEvents.
Import Sw.

(** *** Install *)


Section Install.
Variable selfOrigin : string.
Variable fetch : Request -> FetchResult.






End Install.

(** *** Push notifications *)

(** A JSON value, as [event.data.json()] returns it, with integers for
    the numbers.  The members of an object are listed in the order of
    the text; of two members with one name the last one counts. *)
#[warnings="-register-all"] Inductive Json :=
| JNull
| JBool (b : bool)
| JNum (n : Z)
| JStr (s : string)
| JArr (items : list Json)
| JObj (members : list (string * Json)).

(** [v.name] for one of the names the listeners read ([title], [body],
    [tag], [url]), which no prototype defines: [None] is [undefined].
    Reading a property of [null] throws; the callers check for it
    first. *)
Definition prop (name : string) (v : Json) : option Json :=
  match v with
  | JObj members =>
      option_map snd (find (fun m => String.eqb (fst m) name) (rev members))
  | _ => None
  end.

(** Whether a value is truthy. *)
Definition truthy (v : option Json) : bool :=
  match v with
  | None => false
  | Some JNull => false
  | Some (JBool b) => b
  | Some (JNum n) => negb (n =? 0)
  | Some (JStr s) => negb (String.eqb s "")
  | Some (JArr _) => true
  | Some (JObj _) => true
  end.

(** [v || d] for a string [d]. *)
Definition orElse (v : option Json) (d : string) : Json :=
  match v with
  | Some x => if truthy v then x else JStr d
  | None => JStr d
  end.

(** The body of a push message: its text and, when the text is JSON,
    the value it parses to. *)
Record PushData := MakePushData {
  text : string;
  json : option Json
}.

(** What [showNotification] is given (the parts that depend on the
    message): the title, and of the options [body], [tag] and
    [data.url]. *)
Record Notification := MakeNotification {
  title : Json;
  body : Json;
  tag : Json;
  data_url : Json
}.

Definition defaultTitle : string := "🚨 PS Consult – UNTH".

(** The [push] listener: the notification shown; [None] when nothing
    is shown (there is no data, or the payload is [null], on which
    reading [tag] throws). *)
Definition onPush (data : option PushData) : option Notification :=
  match data with
  | None => None
  | Some d =>
      let parsed :=
        match json d with
        | Some v => v
        | None => JObj [("body", JStr (text d))]
        end in
      match parsed with
      | JNull => None
      | _ =>
          Some (MakeNotification
                  (orElse (prop "title" parsed) defaultTitle)
                  (orElse (prop "body" parsed) "You have a new notification")
                  (orElse (prop "tag" parsed) "ps-consult")
                  (orElse (prop "url" parsed) "/"))
      end
  end.

(** A window client: whether it has [focus], and whether the client
    that [focus()] resolves to has [navigate]. *)
Record Client := MakeClient {
  clientId : string;
  hasFocus : bool;
  hasNavigate : bool
}.

(** What the listeners ask of the notification and of the clients. *)
Inductive Action :=
| Close
| Focus (client : string)
| Navigate (client : string) (url : Json)
| OpenWindow (url : Json)
| PostMessage (client : string) (type : string).

(** The [notificationclick] listener; [data] is
    [event.notification.data]. *)
Definition onNotificationClick (action : string) (data : option Notification)
    (clients : list Client) : list Action :=
  Close ::
  (if String.eqb action "dismiss" then []
   else
     let url := orElse (option_map data_url data) "/" in
     match find hasFocus clients with
     | Some c =>
         Focus (clientId c) ::
         (if hasNavigate c then [Navigate (clientId c) url] else [])
     | None => [OpenWindow url]
     end).

(** *** Background sync *)

(** The [sync] listener with [notifyClientsToSync]; [clients] are the
    window clients. *)
Definition onSync (tag : string) (clients : list Client) : list Action :=
  if String.eqb tag "sync-consults"
  then map (fun c => PostMessage (clientId c) "SYNC_CONSULTS") clients
  else [].

End SwEvents.

(** ** The online status provider and the pages

    A handler of the provider runs up to its first [await].  A call of
    [attemptSync] that has not returned is a pass in flight: it goes
    from one [await] to the next each time it is resumed, and the
    passes in flight, the handlers and the renders interleave in any
    order.  An operation on the store or a request to the server takes
    effect when it is made (IndexedDB serves the requests in the order
    in which they are made), and what it returns is handed over when
    the pass is resumed.  In a pass the operations on the store do not
    fail. *)

Module Ui.
Import OfflineDb.

(** A call of [react-hot-toast]: [toast.success], [toast.error],
    [toast]. *)
Inductive Toast :=
| ToastSuccess (message : string)
| ToastError (message : string)
| ToastPlain (message : string).

(** What the promise of an API call settles to. *)
Inductive Reply (A : Type) :=
| Resolved (a : A)
| Failed.
Arguments Resolved {A} a.
Arguments Failed {A}.

(** *** OnlineStatusProvider *)

Record OnlineStatus := MakeStatus {
  isOnline : bool;
  pendingCount : Z;
  syncing : bool
}.

(** The provider's state, the toasts shown so far, the store, and what
    the API acts on. *)
Record App (W : Type) := MakeApp {
  status : OnlineStatus;
  toasts : list Toast;
  store : Db;
  world : W
}.
Arguments MakeApp {W} status toasts store world.
Arguments status {W} a.
Arguments toasts {W} a.
Arguments store {W} a.
Arguments world {W} a.

(** The [await] at which a call of [attemptSync] is suspended, in
    [syncAllPending] or in [markConsultFailed], with what the awaited
    promise settles to. *)
Inductive Point :=
| Read                                          (* await getPendingConsults() *)
| Sent (entry : Entry.t) (ok : bool)            (* await syncFn(entry.data) *)
| MarkedSynced                                  (* await markConsultSynced(entry.id) *)
| Got (entry : Entry.t) (row : option Entry.t)  (* await db.offlineConsults.get(id) *)
| MarkedFailed                                  (* await markConsultFailed(entry.id) *)
| Cleaned.                                      (* await cleanupSyncedConsults() *)

(** A call of [attemptSync] that has not returned: the entries of
    [pending] that the loop has not come to, the counters [synced] and
    [failed], and where it is suspended. *)
Record Pass := MakePass {
  rest : list Entry.t;
  counts : SyncResult;
  point : Point
}.

(** The provider: its state and stores as they are now, the value of
    [syncing] that the registered handlers closed over, which is the
    one of the last render, and the passes in flight. *)
Record Provider (W : Type) := MakeProvider {
  current : App W;
  captured : bool;
  running : list Pass
}.
Arguments MakeProvider {W} current captured running.
Arguments current {W} p.
Arguments captured {W} p.
Arguments running {W} p.

(** The events of the provider: the [online] and [offline] events of
    the window, a message of the service worker with its
    [event.data?.type], a render, and the continuation of the [i]-th
    pass in flight, at the clock reading [now]. *)
Inductive Event :=
| Online
| Offline
| Message (type : option string)
| Render
| Resume (i : nat) (now : Z).

Section Provider.
Context {W : Type}.

(** [refreshPendingCount()]: the count that is set is the one of the
    queue at the call, where the read is made. *)
Definition refreshPendingCount (app : App W) : App W :=
  MakeApp
    (MakeStatus (isOnline (status app))
       (Z.of_nat (length (getPendingConsults (store app))))
       (syncing (status app)))
    (toasts app) (store app) (world app).

(** The provider on mount: nothing is in flight, and the effect calls
    [refreshPendingCount()]. *)
Definition mount (online : bool) (db : Db) (w : W) : Provider W :=
  MakeProvider (refreshPendingCount (MakeApp (MakeStatus online 0 false) [] db w))
    false [].

(** [attemptSync()] up to its first [await]: the guard reads the
    [syncing] of the closure; then [setSyncing(true)], and
    [syncAllPending] makes its read of the queue. *)
Definition attemptSync (p : Provider W) : Provider W :=
  if captured p then p
  else
    let app := current p in
    MakeProvider
      (MakeApp (MakeStatus (isOnline (status app)) (pendingCount (status app)) true)
         (toasts app) (store app) (world app))
      (captured p)
      (running p ++ [MakePass (getPendingConsults (store app)) (MakeResult 0 0) Read]).

(** The listener of the window's [online] event. *)
Definition handleOnline (p : Provider W) : Provider W :=
  let app := current p in
  attemptSync
    (MakeProvider
       (MakeApp
          (MakeStatus true (pendingCount (status app)) (syncing (status app)))
          (toasts app ++ [ToastSuccess "You are back online!"])
          (store app) (world app))
       (captured p) (running p)).

(** The listener of the window's [offline] event. *)
Definition handleOffline (p : Provider W) : Provider W :=
  let app := current p in
  MakeProvider
    (MakeApp
       (MakeStatus false (pendingCount (status app)) (syncing (status app)))
       (toasts app ++ [ToastPlain "You are offline. Data will be saved locally."])
       (store app) (world app))
    (captured p) (running p).

(** The listener of the service worker's messages; [type] is
    [event.data?.type]. *)
Definition swListener (type : option string) (p : Provider W) : Provider W :=
  match type with
  | Some t => if String.eqb t "SYNC_CONSULTS" then attemptSync p else p
  | None => p
  end.

(** A render of the provider.  [attemptSync] is made anew when
    [syncing] is not what it was at the last render; the effect then
    registers the handlers again, which close over the new value, and
    calls [refreshPendingCount()]. *)
Definition render (p : Provider W) : Provider W :=
  if Bool.eqb (syncing (status (current p))) (captured p) then p
  else MakeProvider (refreshPendingCount (current p))
         (syncing (status (current p))) (running p).

(** [consultsAPI.createPublic]: whether the request fulfils. *)
Variable createPublic : gmap string string -> W -> bool * W.

(** The update of [markConsultFailed(id)]; [entry] is the row that its
    [get] returned. *)
Definition updateFailed (id : Z) (entry : Entry.t) (db : Db) : Db :=
  setOfflineConsults
    (Dexie.modify Entry.id
       (fun e => Entry.Make (Entry.id e) (Entry.clientId e) (Entry.data e)
                   Entry.failed (Entry.createdAt e)
                   (orZero (Entry.attempts entry) + 1))
       id (offlineConsults db)) db.

(** The head of the loop of [syncAllPending]: the transmission of the
    next entry, or, after the last one, the cleanup. *)
Definition iterate (now : Z) (pending : list Entry.t) (result : SyncResult)
    (db : Db) (w : W) : Pass * Db * W :=
  match pending with
  | entry :: pending' =>
      let '(ok, w') := createPublic (Entry.data entry) w in
      (MakePass pending' result (Sent entry ok), db, w')
  | [] => (MakePass [] result Cleaned, snd (cleanupSyncedConsults now db), w)
  end.

(** A pass from the [await] it is suspended at to the next one. *)
Definition resume (now : Z) (pass : Pass) (db : Db) (w : W) : Pass * Db * W :=
  match point pass with
  | Read => iterate now (rest pass) (counts pass) db w
  | Sent entry true =>
      (MakePass (rest pass) (counts pass) MarkedSynced,
       markConsultSynced (Entry.id entry) db, w)
  | Sent entry false =>
      (MakePass (rest pass) (counts pass)
         (Got entry (Dexie.get Entry.id (Entry.id entry) (offlineConsults db))),
       db, w)
  | MarkedSynced =>
      iterate now (rest pass)
        (MakeResult (synced (counts pass) + 1) (failed (counts pass))) db w
  | Got entry (Some row) =>
      (MakePass (rest pass) (counts pass) MarkedFailed,
       updateFailed (Entry.id entry) row db, w)
  | Got entry None => (MakePass (rest pass) (counts pass) MarkedFailed, db, w)
  | MarkedFailed =>
      iterate now (rest pass)
        (MakeResult (synced (counts pass)) (failed (counts pass) + 1)) db w
  | Cleaned => (pass, db, w)
  end.

(** [attemptSync] once [syncAllPending] has returned [result]: the
    toasts, then [setSyncing(false)] and [refreshPendingCount()]. *)
Definition finish (result : SyncResult) (app : App W) : App W :=
  let t1 :=
    if 0 <? synced result
    then [ToastSuccess (Js.ofInt (synced result)
                        +:+ " offline consult(s) synced successfully!")]
    else [] in
  let t2 :=
    if 0 <? failed result
    then [ToastError (Js.ofInt (failed result)
                      +:+ " consult(s) failed to sync. Will retry.")]
    else [] in
  refreshPendingCount
    (MakeApp
       (MakeStatus (isOnline (status app)) (pendingCount (status app)) false)
       (toasts app ++ t1 ++ t2) (store app) (world app)).

(** The [i]-th pass in flight goes on to its next [await], or
    returns. *)
Definition resumePass (i : nat) (now : Z) (p : Provider W) : Provider W :=
  match running p !! i with
  | None => p
  | Some pass =>
      match point pass with
      | Cleaned =>
          MakeProvider (finish (counts pass) (current p)) (captured p)
            (delete i (running p))
      | _ =>
          let '(pass', db', w') :=
            resume now pass (store (current p)) (world (current p)) in
          MakeProvider
            (MakeApp (status (current p)) (toasts (current p)) db' w')
            (captured p) (<[i := pass']> (running p))
      end
  end.

Definition step (ev : Event) (p : Provider W) : Provider W :=
  match ev with
  | Online => handleOnline p
  | Offline => handleOffline p
  | Message type => swListener type p
  | Render => render p
  | Resume i now => resumePass i now p
  end.

Definition run (evs : list Event) (p : Provider W) : Provider W :=
  fold_left (fun q ev => step ev q) evs p.

End Provider.

(** *** Layout *)

(** What the header renders for the connection. *)
Inductive Indicator :=
| OfflineBadge
| SyncButton (count : Z) (disabled : bool)
| OnlineBadge.

Definition indicator (s : OnlineStatus) : list Indicator :=
  (if negb (isOnline s) then [OfflineBadge] else [])
  ++ (if isOnline s && (0 <? pendingCount s)
      then [SyncButton (pendingCount s) (syncing s)] else [])
  ++ (if isOnline s && (pendingCount s =? 0) then [OnlineBadge] else []).

(** *** CreateConsultPage *)

Inductive SubmitResult :=
| OnlineResult (data : gmap string string)
| OfflineResult (consult_id received_at : string).

Record Form := MakeForm {
  result : option SubmitResult;
  submitting : bool
}.

(** What a call of [saveOfflineConsult] reads, whether its [add]
    fulfils, and the clock reading of [received_at], which is read
    when it has fulfilled. *)
Record Saving := MakeSaving {
  dateNow : Z;
  random : string;
  newDate : Z;
  added : bool;
  receivedAt : Z
}.

(** The confirmation screen: its heading, the 'Consult ID' block, which
    is rendered for an online result only, with the [consult_id] of the
    acknowledgement, and whether the box 'Status: Pending Review' is
    rendered. *)
Record Confirmation := MakeConfirmation {
  heading : string;
  consultIdBlock : option (option string);
  pendingReview : bool
}.

Definition confirmation (r : SubmitResult) : Confirmation :=
  match r with
  | OfflineResult _ _ => MakeConfirmation "Consult Saved Offline" None false
  | OnlineResult data =>
      MakeConfirmation "Consult Request Successfully Received"
        (Some (data !! "consult_id")) true
  end.

Section Create.
Context {W : Type}.

(** [consultsAPI.create]: the acknowledgement of the server, if the
    request fulfils. *)
Variable create : gmap string string -> W -> option (gmap string string) * W.

(** The two places of [onSubmit] that save the consult locally; [None]
    when [saveOfflineConsult] throws, which leaves the store as it
    was. *)
Definition saveLocally (s : Saving) (data : gmap string string) (message : string)
    (app : App W) : option (Form * App W) :=
  if added s
  then
    let '((_, clientId), db') :=
      saveOfflineConsult (dateNow s) (newDate s) (random s) data (store app) in
    Some (MakeForm (Some (OfflineResult clientId (JsDate.toISOString (receivedAt s))))
            false,
          refreshPendingCount
            (MakeApp (status app) (toasts app ++ [ToastPlain message]) db' (world app)))
  else None.

(** [onSubmit(data)], called from the form, where [result] is [null].
    [online] is the [isOnline] that the page rendered with; [first] is
    for the call of [saveOfflineConsult] in the [try] block, [second]
    for the one in the [catch] block. *)
Definition onSubmit (online : bool) (first second : Saving)
    (data : gmap string string) (app : App W) : Form * App W :=
  let caught (app0 : App W) :=
    match saveLocally second data "Server error — saved offline instead." app0 with
    | Some saved => saved
    | None =>
        (MakeForm None false,
         MakeApp (status app0)
           (toasts app0 ++ [ToastError "Failed to save consult. Please try again."])
           (store app0) (world app0))
    end in
  if online
  then
    match create data (world app) with
    | (Some ack, w') =>
        (MakeForm (Some (OnlineResult ack)) false,
         MakeApp (status app)
           (toasts app ++ [ToastSuccess "Consult request submitted successfully!"])
           (store app) w')
    | (None, w') => caught (MakeApp (status app) (toasts app) (store app) w')
    end
  else
    match saveLocally first data "Consult saved offline. Will sync when online." app with
    | Some saved => saved
    | None => caught app
    end.

End Create.

(** *** ConsultListPage *)

Record ListPage := MakeListPage {
  consults : list Consult.t;
  total : Z;
  listLoading : bool
}.

Definition cachedList (db : Db) : ListPage :=
  let cached := getCachedConsults db in
  MakeListPage cached (Z.of_nat (length cached)) false.

(** [fetchConsults()]; [reply] is what [consultsAPI.list(params)]
    settles to: [res.data.consults] and [res.data.total]. *)
Definition fetchConsults (online : bool) (reply : Reply (list Consult.t * Z))
    (db : Db) : ListPage * Db :=
  if online
  then
    match reply with
    | Resolved (cs, n) => (MakeListPage cs n false, cacheConsults cs db)
    | Failed => (cachedList db, db)
    end
  else (cachedList db, db).

(** *** DashboardPage *)

Record Dashboard := MakeDashboard {
  stats : option (gmap string string);
  recentConsults : list Consult.t;
  todaySchedule : option (gmap string string);
  dashLoading : bool
}.

(** [fetchData()]; [reply] is what the [Promise.all] of the three
    requests settles to. *)
Definition fetchData (online : bool)
    (reply : Reply (gmap string string * list Consult.t * gmap string string))
    (page : Dashboard) (db : Db) : Dashboard :=
  let fromCache :=
    MakeDashboard (stats page) (firstn 5 (getCachedConsults db))
      (todaySchedule page) false in
  if online
  then
    match reply with
    | Resolved (s, cs, t) => MakeDashboard (Some s) cs (Some t) false
    | Failed => fromCache
    end
  else fromCache.

(** *** SchedulePage *)

Record SchedulePage := MakeSchedulePage {
  schedule : list Schedule.t;
  todayInfo : option (gmap string string);
  scheduleLoading : bool
}.

(** [load()]; the two replies are those of [scheduleAPI.list()] and
    [scheduleAPI.today()], which [Promise.all] joins. *)
Definition load (schedRes : Reply (list Schedule.t))
    (todayRes : Reply (gmap string string))
    (page : SchedulePage) (shown : list Toast) (db : Db)
    : SchedulePage * list Toast * Db :=
  match schedRes, todayRes with
  | Resolved s, Resolved t =>
      (MakeSchedulePage s (Some t) false, shown, cacheSchedule s db)
  | _, _ =>
      let cached := getCachedSchedule db in
      if (0 <? length cached)%nat
      then (MakeSchedulePage cached (todayInfo page) false,
            shown ++ [ToastPlain "Showing cached schedule"], db)
      else (MakeSchedulePage (schedule page) (todayInfo page) false,
            shown ++ [ToastError "Failed to load schedule"], db)
  end.

End Ui.

(** ** Authentication: [AuthContext], [ProtectedRoute] and the axios
    client *)

Module Auth.
Import Ui.

(** [localStorage] *)
Abbreviation Storage := (gmap string string).

(** Whether a value read from [localStorage] is truthy: it is there and
    is not the empty string. *)
Definition truthy (v : option string) : bool :=
  match v with
  | Some s => negb (String.eqb s "")
  | None => false
  end.

Section Auth.
(** The user object of the server, its [role], [JSON.stringify] and
    [JSON.parse] on it ([None] when [JSON.parse] throws). *)
Variable User : Type.
Variable role : User -> string.
Variable stringify : User -> string.
Variable parse : string -> option User.

(** The state of [AuthProvider]. *)
Record AuthState := MakeAuth {
  user : option User;
  token : option string
}.

(** The initial state, read from [localStorage]; [None] when
    [JSON.parse] throws. *)
Definition init (ls : Storage) : option AuthState :=
  let saved := ls !! "ps_user" in
  if truthy saved
  then match parse (default "" saved) with
       | Some u => Some (MakeAuth (Some u) (ls !! "ps_token"))
       | None => None
       end
  else Some (MakeAuth None (ls !! "ps_token")).

Definition isAuthenticated (st : AuthState) : bool :=
  truthy (token st) && match user st with Some _ => true | None => false end.

(** [login] and [codeLogin]; [reply] is what the request settles to:
    [access_token] and [user] of [res.data].  A failure is thrown to
    the caller. *)
Definition login (reply : Reply (string * User)) (st : AuthState) (ls : Storage)
    : AuthState * Storage :=
  match reply with
  | Resolved (access_token, userData) =>
      (MakeAuth (Some userData) (Some access_token),
       <["ps_user" := stringify userData]> (<["ps_token" := access_token]> ls))
  | Failed => (st, ls)
  end.

Definition logout (ls : Storage) : AuthState * Storage :=
  (MakeAuth None None, delete "ps_user" (delete "ps_token" ls)).

(** The effect that verifies the token on mount; [me] is what
    [authAPI.me()] settles to. *)
Definition verifyOnMount (me : Reply User) (st : AuthState) (ls : Storage)
    : AuthState * Storage :=
  if truthy (token st)
  then match me with
       | Resolved u => (MakeAuth (Some u) (token st), <["ps_user" := stringify u]> ls)
       | Failed => logout ls
       end
  else (st, ls).

(** [hasRole(...roles)] as a condition. *)
Definition hasRole (roles : list string) (st : AuthState) : bool :=
  match user st with
  | Some u => Sw.includes (role u) roles
  | None => false
  end.

Definition isPlasticSurgeryTeam (st : AuthState) : bool :=
  hasRole ["registrar"; "senior_registrar"; "consultant"] st.

(** What [ProtectedRoute] renders. *)
Inductive Rendered :=
| NavigateTo (to : string)
| Children.

Definition ProtectedRoute (roles : option (list string)) (st : AuthState) : Rendered :=
  if negb (isAuthenticated st) then NavigateTo "/"
  else
    match roles, user st with
    | Some rs, Some u =>
        if negb (Sw.includes (role u) rs) then NavigateTo "/app/dashboard" else Children
    | _, _ => Children
    end.

End Auth.

(** The request interceptor of the axios client, on the headers of a
    request. *)
Definition requestInterceptor (ls : Storage) (headers : gmap string string)
    : gmap string string :=
  let token := ls !! "ps_token" in
  if truthy token
  then <["Authorization" := "Bearer " +:+ default "" token]> headers
  else headers.

(** The error branch of the response interceptor: the storage it
    leaves and the page it sends the window to; the error is rejected
    again in every case.  [status] is [error.response?.status]. *)
Definition responseError (status : option Z) (pathname : string) (ls : Storage)
    : Storage * option string :=
  match status with
  | Some s =>
      if s =? 401
      then
        let isPublicPage := String.eqb pathname "/" || String.eqb pathname "/login" in
        if negb isPublicPage
        then (delete "ps_user" (delete "ps_token" ls), Some "/")
        else (ls, None)
      else (ls, None)
  | None => (ls, None)
  end.

(** What a GET of the axios client settles to, and the status of the
    response if there is one, given how the service worker handled the
    request and what the network answers when the worker lets it pass:
    the body of a response whose status is 200 to 299, a failure
    otherwise. *)
Definition axiosGet (handling : Sw.Handling) (network : Sw.FetchResult)
    : Reply string * option Z :=
  let settle (r : Sw.Response) :=
    if Sw.ok r then (Resolved (Sw.body r), Some (Sw.status r))
    else (Failed, Some (Sw.status r)) in
  match handling with
  | Sw.PassThrough =>
      match network with
      | Sw.FetchResponse r => settle r
      | Sw.FetchError _ => (Failed, None)
      end
  | Sw.RespondWith (Sw.Fulfilled (Some r), _) => settle r
  | Sw.RespondWith (_, _) => (Failed, None)
  end.

(** [res.data] of a reply: the body as [decode] reads it. *)
Definition dataOf {A : Type} (decode : string -> A) (r : Reply string) : Reply A :=
  match r with
  | Resolved b => Resolved (decode b)
  | Failed => Failed
  end.

(** The request of [authAPI.me()]. *)
Definition meRequest (selfOrigin : string) : Sw.Request :=
  Sw.MakeRequest selfOrigin "/api/auth/me" "" "GET" "cors".

End Auth.

(** ** Further notions used to state the properties *)

Module Notions.
Import OfflineDb Sw.

(** No cache other than [name] holds [key]. *)
Definition othersMiss (name key : string) (cs : CacheStorage) : Prop :=
  forall n c, In (n, c) cs -> n <> name -> c !! key = None.

(** The key under which the navigation branch stores the shell. *)
Definition shellKey (selfOrigin : string) : string := selfOrigin +:+ "/index.html".

(** Every cache has one of the names of the current version. *)
Definition allAllowed (cs : CacheStorage) : Prop :=
  Forall (fun n => In n allowedCaches) (keys cs).

(** Some cache holds [r] under [key]. *)
Definition held (key : string) (r : Response) (cs : CacheStorage) : Prop :=
  exists n c, In (n, c) cs /\ c !! key = Some r.

(** What a strategy that may store under [key] in the cache [name]
    leaves of the storage [cs]. *)
Definition stored (name key : string) (cs cs' : CacheStorage) : Prop :=
  cs' = cs \/ cs' = open name cs
  \/ exists r, cs' = cachePut name key r (open name cs).

(** The last row of [rs] with key [k]. *)
Definition lastWithKey {R : Type} (key : R -> Z) (k : Z) (rs : list R) : option R :=
  find (fun r => key r =? k) (rev rs).

(** Two rows of the queue for one submission: they differ at most in
    [status] and [attempts]. *)
Definition sameSubmission (e e' : Entry.t) : Prop :=
  Entry.id e' = Entry.id e /\ Entry.clientId e' = Entry.clientId e
  /\ Entry.data e' = Entry.data e /\ Entry.createdAt e' = Entry.createdAt e.

(** [n] calls of [markConsultFailed(id)]. *)
Fixpoint failTimes (n : nat) (id : Z) (db : Db) : Db :=
  match n with
  | O => db
  | S n' => markConsultFailed id (failTimes n' id db)
  end.

End Notions.

(** ** Navigation and route guards *)

Module Guards.
Import Auth.

Section Guards.
Variable User : Type.
Variable role : User -> string.

(** The filter of [filteredNav] in [Layout], on the [roles] of an
    item. *)
Definition navShown (roles : option (list string)) (st : AuthState User) : bool :=
  match roles with
  | None => true
  | Some rs => existsb (fun r => hasRole User role [r] st) rs
  end.

(** [canManage] of [ConsultDetailPage]. *)
Definition canManage (st : AuthState User) : bool :=
  isPlasticSurgeryTeam User role st || hasRole User role ["admin"] st.

(** Whether [ConsultDetailPage] renders the button 'Review & Document'
    for a consult with the given status. *)
Definition showsReviewButton (consultStatus : string) (st : AuthState User) : bool :=
  canManage st
  && negb (String.eqb consultStatus "completed")
  && negb (String.eqb consultStatus "cancelled")
  && Sw.includes consultStatus ["accepted"; "on_the_way"].

(** A route element inside the element of its parent route. *)
Definition nested (outer inner : Rendered) : Rendered :=
  match outer with
  | Children => inner
  | NavigateTo to => NavigateTo to
  end.

(** What the route [/app/consults/:id/review] renders: the guard of
    [/app], then its own. *)
Definition reviewRoute (st : AuthState User) : Rendered :=
  nested (ProtectedRoute User role None st)
    (ProtectedRoute User role (Some ["registrar"; "senior_registrar"; "consultant"]) st).

(** What the route [/app/admin] renders. *)
Definition adminRoute (st : AuthState User) : Rendered :=
  nested (ProtectedRoute User role None st)
    (ProtectedRoute User role (Some ["admin"]) st).

End Guards.
End Guards.

(** Notions for identifiers. *)
Module IdNotions.

(** The characters of a string are decimal digits. *)
Fixpoint digits (s : string) : bool :=
  match s with
  | EmptyString => true
  | String c s' =>
      (Nat.leb 48 (nat_of_ascii c) && Nat.leb (nat_of_ascii c) 57)%bool && digits s'
  end.

End IdNotions.
(** ** Notions used to state the properties of the provider *)

Module ProviderNotions.
Import OfflineDb Ui.

(** The payloads that a pass in flight has still to hand to the
    server. *)
Definition owed (pass : Pass) : list (gmap string string) :=
  match point pass with
  | Cleaned => []
  | _ => map Entry.data (rest pass)
  end.

(** Whether an event calls [attemptSync]. *)
Definition callsAttemptSync (ev : Event) : bool :=
  match ev with
  | Online => true
  | Message (Some t) => String.eqb t "SYNC_CONSULTS"
  | _ => false
  end.

(** Whether an event is the continuation of a pass. *)
Definition isResume (ev : Event) : bool :=
  match ev with
  | Resume _ _ => true
  | _ => false
  end.

(** The number of continuations among [evs]. *)
Definition resumptions (evs : list Event) : nat :=
  length (List.filter isResume evs).

(** The toasts of [attemptSync] for a result. *)
Definition syncToasts (r : SyncResult) : list Toast :=
  (if 0 <? synced r
   then [ToastSuccess (Js.ofInt (synced r) +:+ " offline consult(s) synced successfully!")]
   else [])
  ++ (if 0 <? failed r
      then [ToastError (Js.ofInt (failed r) +:+ " consult(s) failed to sync. Will retry.")]
      else []).

(** What a call of [attemptSync] on [p] leaves when its pass is
    [syncAllPending] on the store and the server of [p]. *)
Definition afterPass {W : Type} (createPublic : gmap string string -> W -> bool * W)
    (now : Z) (p : Provider W) : App W :=
  let pass := syncAllPending createPublic now (store (current p)) (world (current p)) in
  MakeApp (MakeStatus (isOnline (status (current p))) 0 false)
    (toasts (current p) ++ syncToasts (fst (fst pass)))
    (snd (fst pass)) (snd pass).

(** A schedule of renders and of continuations of the first pass in
    flight, at the clock reading [now]. *)
Definition rendersAndResumes (now : Z) (evs : list Event) : Prop :=
  Forall (fun ev => ev = Render \/ ev = Resume 0 now) evs.

(** Two states of the provider that differ at most in what a render
    sets: the captured [syncing], and the pending count while a pass
    is in flight. *)
Definition agree {W : Type} (q p : Provider W) : Prop :=
  running q = running p
  /\ isOnline (status (current q)) = isOnline (status (current p))
  /\ syncing (status (current q)) = syncing (status (current p))
  /\ toasts (current q) = toasts (current p)
  /\ store (current q) = store (current p)
  /\ world (current q) = world (current p)
  /\ (running p = [] ->
      pendingCount (status (current q)) = pendingCount (status (current p))).

(** With no pass in flight, the pending count is the one of the
    store. *)
Definition settled {W : Type} (p : Provider W) : Prop :=
  running p = [] ->
  pendingCount (status (current p))
  = Z.of_nat (length (getPendingConsults (store (current p)))).

(** What the server has been handed, with what the passes in flight
    have still to hand it. *)
Definition handedAndOwed {W : Type} (p : Provider (W * list (gmap string string)))
    : list (gmap string string) :=
  snd (world (current p)) ++ concat (map owed (running p)).

End ProviderNotions.

(** ** Further samples *)

Module MoreSamples.
Import OfflineDb Sw SwEvents Ui.

Definition imageRequest : Request :=
  MakeRequest "https://consult.example" "/unth-logo.png" "" "GET" "no-cors".



(** A range answer, and an answer that varies on every header: the
    Cache interface refuses both. *)
Definition partialResponse : Response :=
  MakeResponse 206 "Partial Content" [("Content-Range", "bytes 0-3/64")] "<!do".

Definition variedResponse : Response :=
  MakeResponse 200 "OK" [("Content-Type", "application/json"); ("vary", "Accept, *")] "[]".

(** A network that answers every request with the same response. *)
Definition answering (r : Response) : Request -> FetchResult :=
  fun _ => FetchResponse r.

Definition pushed : PushData :=
  MakePushData "sample"
    (Some (JObj [("title", JStr "New consult"); ("url", JStr "/app/consults/12")])).

Definition windows : list Client :=
  [MakeClient "w1" true true; MakeClient "w2" true false].

(** The provider online with three pending entries, and offline with
    none. *)
Definition formData : gmap string string := {[ "ward" := "A&E" ]}.

(** A server whose [create] never fulfils. *)
Definition noCreate (d : gmap string string) (w : unit)
    : option (gmap string string) * unit := (None, w).

(** A user object with no member, and its JSON text. *)
Definition stringifyUnit (u : unit) : string := "{}".
Definition parseUnit (s : string) : option unit :=
  if String.eqb s "{}" then Some tt else None.

Definition signedIn : Auth.AuthState unit := Auth.MakeAuth unit (Some tt) (Some "jwt").

(** A queue of three pending entries for three wards. *)
Definition wardEntry (id : Z) (ward : string) (createdAt : string) : Entry.t :=
  Entry.Make id ("offline-" +:+ Js.ofInt id) {[ "ward" := ward ]} Entry.pending
    createdAt 0.

Definition threeWards : Db :=
  MakeDb [wardEntry 1 "A&E" "2024-02-29T12:00:00.000Z";
          wardEntry 2 "ICU" "2024-02-29T12:05:00.000Z";
          wardEntry 3 "ENT" "2024-02-29T12:10:00.000Z"] 4 [] [].

(** The provider mounted online on a queue of three pending entries,
    with a server whose second request fails and that records what it
    is handed. *)
Definition onlineProvider : Provider (nat * list (gmap string string)) :=
  mount true threeWards (0%nat, []).

(** The provider mounted offline on an empty store. *)
Definition offlineProvider : Provider unit := mount false emptyDb tt.

(** The readings of a call of [saveOfflineConsult] whose [add]
    fulfils, and of one whose [add] rejects. *)
Definition saving : Saving :=
  MakeSaving 1709210096789 "0.4fzyo82mvyr" 1709210096790 true 1709210096791.

Definition savingFails : Saving :=
  MakeSaving 1709210096889 "0.9k2m1x7qpzd" 1709210096890 false 1709210096891.

(** Two calls of [attemptSync] in a row, as when the [online] event is
    followed by the message of the service worker before a render;
    then the two passes are resumed in turn. *)
Definition inTurn : list Event :=
  concat (repeat [Resume 0 Samples.now; Resume 1 Samples.now] 12).

End MoreSamples.

(* ================================================================== *)
(** * Part II: properties                                               *)
(* ================================================================== *)

Example toISOString_epoch : JsDate.toISOString 0 = "1970-01-01T00:00:00.000Z".
Proof. vm_compute. reflexivity. Qed.

Example toISOString_2024 :
  JsDate.toISOString 1709210096789 = "2024-02-29T12:34:56.789Z".
Proof. vm_compute. reflexivity. Qed.

Example toISOString_neg : JsDate.toISOString (-1) = "1969-12-31T23:59:59.999Z".
Proof. vm_compute. reflexivity. Qed.

Example endsWith_folded : Js.endsWith ".png" (Js.toLowerCase "/a/LOGO.PNG") = true.
Proof. vm_compute. reflexivity. Qed.

Example ofInt_clock : Js.ofInt 1709210096789 = "1709210096789".
Proof. vm_compute. reflexivity. Qed.

Example onFetch_cross_origin :
  Sw.onFetch "https://consult.example" Samples.failedFetch
    (Sw.MakeRequest "https://fonts.example" "/inter.woff2" "" "GET" "cors") []
  = Sw.PassThrough.
Proof. reflexivity. Qed.

Example onFetch_post :
  Sw.onFetch "https://consult.example" Samples.failedFetch
    (Sw.MakeRequest "https://consult.example" "/api/consults" "" "POST" "cors") []
  = Sw.PassThrough.
Proof. reflexivity. Qed.

Example onFetch_image :
  Sw.onFetch "https://consult.example" Samples.failedFetch
    (Sw.MakeRequest "https://consult.example" "/unth-logo.PNG" "" "GET" "no-cors") []
  = Sw.RespondWith (Sw.Fulfilled (Some Sw.offlinePlaceholder), []).
Proof. reflexivity. Qed.

Example onFetch_navigation_offline :
  Sw.onFetch "https://consult.example" Samples.failedFetch
    (Sw.MakeRequest "https://consult.example" "/consults/12" "" "GET" "navigate") []
  = Sw.RespondWith (Sw.Fulfilled None, []).
Proof. reflexivity. Qed.

(** ** Dates: [toISOString] is monotone

    Between 1970 and 9999, comparing two [toISOString] strings is
    comparing the time values: this is what lets the store compare
    [createdAt] strings. *)

Module DateFacts.
Import JsDate.

Lemma lexc_divmod (a b m : Z) :
  0 < m -> (a ?= b) = lexc (a / m ?= b / m) (a mod m ?= b mod m).
Proof.
  intros Hm.
  pose proof (Z.div_mod a m ltac:(lia)) as Ha.
  pose proof (Z.div_mod b m ltac:(lia)) as Hb.
  pose proof (Z.mod_pos_bound a m Hm) as Ha'.
  pose proof (Z.mod_pos_bound b m Hm) as Hb'.
  unfold lexc.
  destruct (Z.compare_spec (a / m) (b / m)) as [E|E|E].
  - destruct (Z.compare_spec (a mod m) (b mod m)) as [E'|E'|E'].
    + apply Z.compare_eq_iff. congruence.
    + apply Z.compare_lt_iff. rewrite Ha, Hb, E. lia.
    + apply Z.compare_gt_iff. rewrite Ha, Hb, E. lia.
  - apply Z.compare_lt_iff. nia.
  - apply Z.compare_gt_iff. nia.
Qed.

Lemma compare_app (a b s t : string) :
  String.length a = String.length b ->
  String.compare (a +:+ s) (b +:+ t)
  = lexc (String.compare a b) (String.compare s t).
Proof.
  revert b. induction a as [|c a IH]; intros [|d b]; simpl; try discriminate.
  - reflexivity.
  - intros [= H]. destruct (Ascii.compare c d); simpl; auto.
Qed.

Lemma ascii_compare_digit (x y : Z) :
  0 <= x < 10 -> 0 <= y < 10 -> Ascii.compare (digit x) (digit y) = (x ?= y).
Proof.
  intros Hx Hy. unfold Ascii.compare, digit, ascii_of_nat.
  rewrite !N_ascii_embedding by lia.
  rewrite <- Nat2N.inj_compare, <- Nat2Z.inj_compare.
  rewrite !Nat2Z.inj_add, !Z2Nat.id by lia.
  apply Z.add_compare_mono_l.
Qed.

Lemma length_pad k n : String.length (pad k n) = k.
Proof. induction k; simpl; congruence. Qed.

Lemma pad_mod k n : pad k (n mod 10 ^ Z.of_nat k) = pad k n.
Proof.
  revert n. induction k as [|k IH]; intros n; [reflexivity|].
  cbn [pad]. rewrite Nat2Z.inj_succ, Z.pow_succ_r by lia.
  set (p := 10 ^ Z.of_nat k). assert (0 < p) by (apply Z.pow_pos_nonneg; lia).
  rewrite (Z.mul_comm 10 p), Z.rem_mul_r by lia.
  set (q := (n / p) mod 10). rewrite (Z.mul_comm p q). f_equal.
  - f_equal. rewrite Z.div_add by lia.
    rewrite (Z.div_small (n mod p) p) by (apply Z.mod_pos_bound; lia).
    simpl. unfold q. apply Z.mod_mod. lia.
  - rewrite <- (IH n), <- (IH (_ + _)). fold p. f_equal.
    rewrite Z.mod_add by lia. apply Z.mod_mod. lia.
Qed.

Lemma compare_pad k a b :
  0 <= a < 10 ^ Z.of_nat k -> 0 <= b < 10 ^ Z.of_nat k ->
  String.compare (pad k a) (pad k b) = (a ?= b).
Proof.
  revert a b. induction k as [|k IH]; intros a b Ha Hb.
  - simpl in *. assert (a = 0) by lia. assert (b = 0) by lia. subst. reflexivity.
  - rewrite Nat2Z.inj_succ, Z.pow_succ_r in Ha, Hb by lia.
    set (p := 10 ^ Z.of_nat k) in *.
    assert (0 < p) by (apply Z.pow_pos_nonneg; lia).
    assert (0 <= a / p < 10) by (split; [apply Z.div_pos; lia | apply Z.div_lt_upper_bound; lia]).
    assert (0 <= b / p < 10) by (split; [apply Z.div_pos; lia | apply Z.div_lt_upper_bound; lia]).
    cbn [pad String.compare]. fold p.
    rewrite !(Z.mod_small (_ / p) 10) by lia.
    rewrite ascii_compare_digit by lia.
    rewrite <- (pad_mod k a), <- (pad_mod k b). fold p.
    rewrite IH by (apply Z.mod_pos_bound; lia).
    rewrite (lexc_divmod a b p) by lia. unfold lexc.
    destruct (a / p ?= b / p); reflexivity.
Qed.

Lemma compare_app_same (a s t : string) :
  String.compare (a +:+ s) (a +:+ t) = String.compare s t.
Proof.
  induction a as [|c a IH]; simpl; [reflexivity|].
  unfold Ascii.compare. rewrite N.compare_refl. exact IH.
Qed.

Lemma lexc_assoc a b c : lexc (lexc a b) c = lexc a (lexc b c).
Proof. destruct a; reflexivity. Qed.

Lemma lexc_Eq_r a : lexc a Eq = a.
Proof. destruct a; reflexivity. Qed.

Lemma civilCompare_Lt a b :
  civilCompare a b = Lt <->
  year a < year b \/
  (year a = year b /\ (month a < month b \/ (month a = month b /\ day a < day b))).
Proof.
  unfold civilCompare, lexc.
  destruct (Z.compare_spec (year a) (year b));
    destruct (Z.compare_spec (month a) (month b));
    destruct (Z.compare_spec (day a) (day b));
    split; intros; try discriminate; try reflexivity; lia.
Qed.

Lemma civilCompare_trans a b c :
  civilCompare a b = Lt -> civilCompare b c = Lt -> civilCompare a c = Lt.
Proof. rewrite !civilCompare_Lt. lia. Qed.

Lemma daysInMonth_bound y m : 28 <= daysInMonth y m <= 31.
Proof.
  unfold daysInMonth.
  destruct (m =? 2); [destruct (isLeapYear y); lia|].
  destruct ((m =? 4) || (m =? 6) || (m =? 9) || (m =? 11)); lia.
Qed.

Lemma nextDay_valid c : civilValid c -> civilValid (nextDay c).
Proof.
  unfold civilValid, nextDay. intros [Hm Hd].
  destruct (day c <? _) eqn:E; simpl.
  - apply Z.ltb_lt in E. lia.
  - destruct (month c <? 12) eqn:E'; simpl.
    + apply Z.ltb_lt in E'. pose proof (daysInMonth_bound (year c) (month c + 1)). lia.
    + pose proof (daysInMonth_bound (year c + 1) 1). lia.
Qed.

Lemma nextDay_lt c : civilCompare c (nextDay c) = Lt.
Proof.
  apply civilCompare_Lt. unfold nextDay.
  destruct (day c <? _); simpl; [lia|].
  destruct (month c <? 12) eqn:E; simpl; [apply Z.ltb_lt in E|]; lia.
Qed.

Lemma civilFromDays_succ d :
  0 <= d -> civilFromDays (d + 1) = nextDay (civilFromDays d).
Proof.
  intros Hd. unfold civilFromDays.
  destruct (Z.leb_spec 0 d); [|lia]. destruct (Z.leb_spec 0 (d + 1)); [|lia].
  replace (Z.to_N (d + 1)) with (N.succ (Z.to_N d)) by lia.
  apply N.iter_succ.
Qed.

Lemma civilFromDays_valid d : 0 <= d -> civilValid (civilFromDays d).
Proof.
  revert d. apply natlike_ind.
  - unfold civilValid. simpl. vm_compute. repeat split; discriminate.
  - intros d Hd IH. unfold Z.succ. rewrite civilFromDays_succ by lia.
    apply nextDay_valid, IH.
Qed.

Lemma civilFromDays_lt d1 d2 :
  0 <= d1 < d2 -> civilCompare (civilFromDays d1) (civilFromDays d2) = Lt.
Proof.
  intros H.
  replace d2 with (d1 + 1 + Z.of_nat (Z.to_nat (d2 - d1 - 1))) by lia.
  generalize (Z.to_nat (d2 - d1 - 1)) as n. induction n as [|n IH].
  - rewrite Z.add_0_r, civilFromDays_succ by lia. apply nextDay_lt.
  - rewrite Nat2Z.inj_succ. unfold Z.succ. rewrite Z.add_assoc.
    rewrite civilFromDays_succ by lia.
    eapply civilCompare_trans; [exact IH | apply nextDay_lt].
Qed.

Lemma civilCompare_refl c : civilCompare c c = Eq.
Proof. unfold civilCompare. rewrite !Z.compare_refl. reflexivity. Qed.

Lemma civilCompare_antisym a b : civilCompare b a = CompOpp (civilCompare a b).
Proof.
  unfold civilCompare.
  rewrite (Z.compare_antisym (year a)), (Z.compare_antisym (month a)),
    (Z.compare_antisym (day a)).
  destruct (year a ?= year b), (month a ?= month b), (day a ?= day b); reflexivity.
Qed.

Lemma civilFromDays_compare d1 d2 :
  0 <= d1 -> 0 <= d2 ->
  civilCompare (civilFromDays d1) (civilFromDays d2) = (d1 ?= d2).
Proof.
  intros H1 H2. destruct (Z.compare_spec d1 d2) as [E|E|E].
  - subst. apply civilCompare_refl.
  - apply civilFromDays_lt. lia.
  - rewrite civilCompare_antisym, civilFromDays_lt by lia. reflexivity.
Qed.

Lemma civilFromDays_last : civilFromDays 2932896 = Civil 9999 12 31.
Proof. vm_compute. reflexivity. Qed.

Lemma civilFromDays_year d :
  0 <= d <= 2932896 -> 1970 <= year (civilFromDays d) <= 9999.
Proof.
  intros H. split.
  - destruct (Z.eq_dec d 0) as [->|]; [vm_compute; discriminate|].
    pose proof (civilFromDays_lt 0 d ltac:(lia)) as L.
    apply civilCompare_Lt in L. change (civilFromDays 0) with epoch in L.
    simpl in L. lia.
  - destruct (Z.eq_dec d 2932896) as [->|]; [rewrite civilFromDays_last; simpl; lia|].
    pose proof (civilFromDays_lt d 2932896 ltac:(lia)) as L.
    apply civilCompare_Lt in L. rewrite civilFromDays_last in L. simpl in L. lia.
Qed.

Theorem toISOString_compare t1 t2 :
  0 <= t1 <= maxFourDigitTime -> 0 <= t2 <= maxFourDigitTime ->
  String.compare (toISOString t1) (toISOString t2) = (t1 ?= t2).
Proof.
  unfold maxFourDigitTime. intros H1 H2. unfold toISOString.
  assert (Hd1 : 0 <= t1 / msPerDay <= 2932896)
    by (unfold msPerDay; split; [apply Z.div_pos; lia | apply Z.lt_succ_r, Z.div_lt_upper_bound; lia]).
  assert (Hd2 : 0 <= t2 / msPerDay <= 2932896)
    by (unfold msPerDay; split; [apply Z.div_pos; lia | apply Z.lt_succ_r, Z.div_lt_upper_bound; lia]).
  pose proof (civilFromDays_year _ Hd1) as Hy1.
  pose proof (civilFromDays_year _ Hd2) as Hy2.
  pose proof (civilFromDays_valid _ (proj1 Hd1)) as [Hm1 Hday1].
  pose proof (civilFromDays_valid _ (proj1 Hd2)) as [Hm2 Hday2].
  pose proof (daysInMonth_bound (year (civilFromDays (t1 / msPerDay)))
                (month (civilFromDays (t1 / msPerDay)))) as Hb1.
  pose proof (daysInMonth_bound (year (civilFromDays (t2 / msPerDay)))
                (month (civilFromDays (t2 / msPerDay)))) as Hb2.
  rewrite (lexc_divmod t1 t2 msPerDay) by (unfold msPerDay; lia).
  rewrite <- civilFromDays_compare by lia.
  pose proof (Z.mod_pos_bound t1 msPerDay ltac:(unfold msPerDay; lia)) as Hr1.
  pose proof (Z.mod_pos_bound t2 msPerDay ltac:(unfold msPerDay; lia)) as Hr2.
  set (c1 := civilFromDays (t1 / msPerDay)) in *.
  set (c2 := civilFromDays (t2 / msPerDay)) in *.
  set (r1 := t1 mod msPerDay) in *. set (r2 := t2 mod msPerDay) in *.
  unfold msPerDay in Hr1, Hr2.
  unfold yearString.
  replace ((0 <=? year c1) && (year c1 <=? 9999)) with true by (symmetry; apply andb_true_iff; split; apply Z.leb_le; lia).
  replace ((0 <=? year c2) && (year c2 <=? 9999)) with true by (symmetry; apply andb_true_iff; split; apply Z.leb_le; lia).
  repeat first
    [ rewrite compare_app_same
    | rewrite compare_app by (rewrite !length_pad; reflexivity) ].
  change (String.compare "Z" "Z") with Eq. rewrite lexc_Eq_r.
  rewrite !compare_pad by
    (change (10 ^ Z.of_nat 2) with 100; change (10 ^ Z.of_nat 3) with 1000;
     change (10 ^ Z.of_nat 4) with 10000;
     first [ lia
           | apply Z.mod_pos_bound; lia
           | split; [apply Z.div_pos; lia | apply Z.div_lt_upper_bound; lia]
           | pose proof (Z.mod_pos_bound (r1 / 60000) 60 ltac:(lia));
             pose proof (Z.mod_pos_bound (r2 / 60000) 60 ltac:(lia));
             pose proof (Z.mod_pos_bound (r1 / 1000) 60 ltac:(lia));
             pose proof (Z.mod_pos_bound (r2 / 1000) 60 ltac:(lia)); lia ]).
  unfold civilCompare. rewrite !lexc_assoc. do 3 f_equal.
  rewrite (lexc_divmod r1 r2 1000) by lia.
  rewrite (lexc_divmod (r1 / 1000) (r2 / 1000) 60) by lia.
  rewrite !Z.div_div by lia. change (1000 * 60) with 60000.
  rewrite (lexc_divmod (r1 / 60000) (r2 / 60000) 60) by lia.
  rewrite !Z.div_div by lia. change (60000 * 60) with 3600000.
  rewrite !lexc_assoc. reflexivity.
Qed.

Lemma toISOString_lt t1 t2 :
  0 <= t1 <= maxFourDigitTime -> 0 <= t2 <= maxFourDigitTime ->
  Js.str_lt (toISOString t1) (toISOString t2) = (t1 <? t2).
Proof.
  intros H1 H2. unfold Js.str_lt, String.ltb, Z.ltb.
  rewrite toISOString_compare by assumption. reflexivity.
Qed.

Lemma toISOString_le t1 t2 :
  0 <= t1 <= maxFourDigitTime -> 0 <= t2 <= maxFourDigitTime ->
  Js.str_le (toISOString t1) (toISOString t2) = (t1 <=? t2).
Proof.
  intros H1 H2. unfold Js.str_le, String.leb, Z.leb.
  rewrite toISOString_compare by assumption. reflexivity.
Qed.

End DateFacts.

(** ** Tables *)

Section TableFacts.
Context {R : Type}.
Variable key : R -> Z.

Lemma modify_idem (f : R -> R) (k : Z) (rows : list R) :
  (forall r, key (f r) = key r) ->
  (forall r, f (f r) = f r) ->
  Dexie.modify key f k (Dexie.modify key f k rows) = Dexie.modify key f k rows.
Proof.
  intros Hk Hf. induction rows as [|r rows IH]; simpl; [reflexivity|].
  destruct (key r =? k) eqn:E; simpl.
  - rewrite Hk, E, Hf, IH. reflexivity.
  - rewrite E, IH. reflexivity.
Qed.

Lemma modify_keys (f : R -> R) (k : Z) (rows : list R) :
  (forall r, key (f r) = key r) ->
  map key (Dexie.modify key f k rows) = map key rows.
Proof.
  intros Hk. induction rows as [|r rows IH]; simpl; [reflexivity|].
  destruct (key r =? k); simpl; rewrite IH; congruence.
Qed.

Lemma get_modify_same (f : R -> R) (k : Z) (rows : list R) :
  (forall r, key (f r) = key r) ->
  Dexie.get key k (Dexie.modify key f k rows) = option_map f (Dexie.get key k rows).
Proof.
  intros Hk. induction rows as [|r rows IH]; simpl; [reflexivity|].
  destruct (key r =? k) eqn:E; simpl.
  - rewrite Hk, E. reflexivity.
  - rewrite E. exact IH.
Qed.

Lemma get_modify_other (f : R -> R) (k k' : Z) (rows : list R) :
  (forall r, key (f r) = key r) ->
  k <> k' ->
  Dexie.get key k (Dexie.modify key f k' rows) = Dexie.get key k rows.
Proof.
  intros Hk Hne. induction rows as [|r rows IH]; simpl; [reflexivity|].
  destruct (key r =? k') eqn:E; simpl.
  - rewrite Hk. apply Z.eqb_eq in E.
    destruct (key r =? k) eqn:E'; [apply Z.eqb_eq in E'; congruence | exact IH].
  - destruct (key r =? k); [reflexivity | exact IH].
Qed.

Lemma get_Some_key (k : Z) (rows : list R) (r : R) :
  Dexie.get key k rows = Some r -> key r = k /\ In r rows.
Proof.
  induction rows as [|x rows IH]; simpl; [discriminate|].
  destruct (key x =? k) eqn:E.
  - intros [= <-]. apply Z.eqb_eq in E. auto.
  - intros H. destruct (IH H). auto.
Qed.

Lemma get_None_key (k : Z) (rows : list R) :
  Dexie.get key k rows = None -> Forall (fun r => key r <> k) rows.
Proof.
  induction rows as [|x rows IH]; simpl; [constructor|].
  destruct (key x =? k) eqn:E; [discriminate|].
  intros H. constructor; [apply Z.eqb_neq; exact E | auto].
Qed.

Lemma get_filter (q : R -> bool) (k : Z) (rows : list R) (r : R) :
  Dexie.get key k rows = Some r -> q r = true ->
  Dexie.get key k (List.filter q rows) = Some r.
Proof.
  induction rows as [|x rows IH]; simpl; [discriminate|].
  destruct (key x =? k) eqn:E.
  - intros [= ->] Hq. rewrite Hq. simpl. rewrite E. reflexivity.
  - intros H Hq. destruct (q x); simpl; [rewrite E|]; auto.
Qed.

Lemma get_In_sorted (rows : list R) (r : R) :
  StronglySorted Z.lt (map key rows) -> In r rows ->
  Dexie.get key (key r) rows = Some r.
Proof.
  induction rows as [|x rows IH]; simpl; [tauto|].
  intros Hs [-> | Hin].
  - rewrite Z.eqb_refl. reflexivity.
  - apply StronglySorted_inv in Hs as [Hs Hx].
    assert (key x < key r).
    { rewrite List.Forall_forall in Hx. apply Hx. apply in_map. exact Hin. }
    destruct (key x =? key r) eqn:E; [apply Z.eqb_eq in E; lia | auto].
Qed.

Lemma modify_Forall (Q Q' : R -> Prop) (f : R -> R) (k : Z) (rows : list R) :
  Forall Q rows ->
  (forall r, Q r -> key r <> k -> Q' r) ->
  (forall r, Q r -> key r = k -> Q' (f r)) ->
  Forall Q' (Dexie.modify key f k rows).
Proof.
  intros H Hne Heq. induction H as [|r rows Hr H IH]; simpl; [constructor|].
  destruct (key r =? k) eqn:E; constructor; auto.
  - apply Heq; [exact Hr | apply Z.eqb_eq; exact E].
  - apply Hne; [exact Hr | apply Z.eqb_neq; exact E].
Qed.

Lemma put_last (x : R) (rows : list R) :
  Forall (fun r => key r < key x) rows -> Dexie.put key x rows = rows ++ [x].
Proof.
  induction 1 as [|r rows Hr _ IH]; simpl; [reflexivity|].
  destruct (Z.ltb_spec (key x) (key r)); [lia|].
  destruct (Z.eqb_spec (key x) (key r)); [lia|]. rewrite IH. reflexivity.
Qed.

Lemma modify_absent (f : R -> R) (k : Z) (rows : list R) :
  Forall (fun r => key r <> k) rows -> Dexie.modify key f k rows = rows.
Proof.
  induction 1 as [|r rows Hr _ IH]; simpl; [reflexivity|].
  destruct (Z.eqb_spec (key r) k); [contradiction|]. rewrite IH. reflexivity.
Qed.

Lemma StronglySorted_snoc (l : list Z) (x : Z) :
  StronglySorted Z.lt l -> Forall (fun y => y < x) l -> StronglySorted Z.lt (l ++ [x]).
Proof.
  induction 1 as [|y l Hs IH Hy]; intros Hx; simpl.
  - repeat constructor.
  - apply Forall_cons in Hx as [Hyx Hx]. constructor; [auto|].
    apply Forall_app. split; [exact Hy | repeat constructor; exact Hyx].
Qed.

Lemma StronglySorted_filter_keys (q : R -> bool) (rows : list R) :
  StronglySorted Z.lt (map key rows) ->
  StronglySorted Z.lt (map key (List.filter q rows)).
Proof.
  induction rows as [|r rows IH]; simpl; [auto|].
  intros Hs. apply StronglySorted_inv in Hs as [Hs Hr].
  destruct (q r); simpl; [|auto]. constructor; [auto|].
  rewrite List.Forall_forall in *. intros y Hy. apply Hr.
  apply in_map_iff in Hy as (x & <- & Hx). apply filter_In in Hx as [Hx _].
  apply in_map. exact Hx.
Qed.

Lemma put_Permutation (x : R) (rows : list R) :
  ~ In (key x) (map key rows) -> Permutation (x :: rows) (Dexie.put key x rows).
Proof.
  induction rows as [|r rows IH]; simpl; intros H; [reflexivity|].
  destruct (Z.ltb_spec (key x) (key r)); [reflexivity|].
  destruct (Z.eqb_spec (key x) (key r)) as [E|E]; [exfalso; apply H; auto|].
  rewrite perm_swap. apply perm_skip. apply IH. tauto.
Qed.

Lemma bulkPut_Permutation (rs rows : list R) :
  NoDup (map key rs) ->
  (forall r, In r rs -> ~ In (key r) (map key rows)) ->
  Permutation (rs ++ rows) (Dexie.bulkPut key rs rows).
Proof.
  unfold Dexie.bulkPut. revert rows.
  induction rs as [|r rs IH]; simpl; intros rows Hnd Hfresh; [reflexivity|].
  apply NoDup_cons in Hnd as [Hr Hnd].
  rewrite <- IH; [|exact Hnd|].
  - rewrite <- put_Permutation by (apply Hfresh; auto).
    apply Permutation_middle.
  - intros y Hy Hin.
    apply (Permutation_in _ (Permutation_map key (Permutation_sym
             (put_Permutation r rows (Hfresh r (or_introl eq_refl)))))) in Hin.
    simpl in Hin. destruct Hin as [E|Hin].
    + apply Hr. rewrite E. apply list_elem_of_In, in_map, Hy.
    + apply (Hfresh y); auto.
Qed.

Lemma modify_fixed (f : R -> R) (k : Z) (rows : list R) :
  Forall (fun r => key r = k -> f r = r) rows -> Dexie.modify key f k rows = rows.
Proof.
  induction 1 as [|r rows Hr _ IH]; simpl; [reflexivity|].
  rewrite IH. destruct (Z.eqb_spec (key r) k); [rewrite Hr by assumption|]; reflexivity.
Qed.

End TableFacts.

Section SortFacts.
Context {R : Type}.
Variable le : R -> R -> bool.

Lemma insertBy_Permutation (x : R) (rows : list R) :
  Permutation (x :: rows) (Dexie.insertBy le x rows).
Proof.
  induction rows as [|r rows IH]; simpl; [reflexivity|].
  destruct (le x r); [reflexivity|]. rewrite perm_swap. apply perm_skip, IH.
Qed.

Lemma sortBy_Permutation (rows : list R) : Permutation rows (Dexie.sortBy le rows).
Proof.
  induction rows as [|r rows IH]; simpl; [reflexivity|].
  rewrite <- insertBy_Permutation. apply perm_skip, IH.
Qed.

Hypothesis le_total : forall a b, le a b = false -> le b a = true.

Lemma insertBy_Sorted (x : R) (rows : list R) :
  Sorted (fun a b => le a b = true) rows ->
  Sorted (fun a b => le a b = true) (Dexie.insertBy le x rows).
Proof.
  induction 1 as [|r rows Hs IH Hr]; simpl; [repeat constructor|].
  destruct (le x r) eqn:E.
  - repeat constructor; assumption.
  - constructor; [exact IH|].
    destruct rows as [|y rows]; simpl.
    + constructor. apply le_total, E.
    + destruct (le x y); constructor; [apply le_total, E|].
      apply HdRel_inv in Hr. exact Hr.
Qed.

Lemma sortBy_Sorted (rows : list R) :
  Sorted (fun a b => le a b = true) (Dexie.sortBy le rows).
Proof.
  induction rows as [|r rows IH]; simpl; [constructor|].
  apply insertBy_Sorted, IH.
Qed.

End SortFacts.

(** ** Lists *)

Lemma filter_filter_absorb {A : Type} (p q : A -> bool) (l : list A) :
  (forall x, p x = true -> q x = true) ->
  List.filter p (List.filter q l) = List.filter p l.
Proof.
  intros H. induction l as [|x l IH]; simpl; [reflexivity|].
  destruct (q x) eqn:Q; simpl.
  - rewrite IH. reflexivity.
  - destruct (p x) eqn:P; [rewrite (H x P) in Q; discriminate | exact IH].
Qed.


Lemma Forall_list_filter {A : Type} (P : A -> Prop) (q : A -> bool) (l : list A) :
  Forall P l -> Forall P (List.filter q l).
Proof.
  induction 1 as [|x l Hx _ IH]; simpl; [constructor|].
  destruct (q x); [constructor|]; assumption.
Qed.


Lemma Sorted_snoc {A : Type} (R : A -> A -> Prop) (l : list A) (x : A) :
  Sorted R l -> (forall y, List.last l x = y -> l <> [] -> R y x) ->
  Sorted R (l ++ [x]).
Proof.
  induction 1 as [|a l Hs IH Ha]; intros H; simpl; [repeat constructor|].
  constructor.
  - apply IH. intros y Hy Hne. apply H; [|discriminate].
    destruct l; [contradiction | exact Hy].
  - destruct l as [|b l]; simpl.
    + constructor. apply H; [reflexivity | discriminate].
    + constructor. apply HdRel_inv in Ha. exact Ha.
Qed.

Lemma Sorted_rev {A : Type} (R : A -> A -> Prop) (l : list A) :
  Sorted R l -> Sorted (fun a b => R b a) (rev l).
Proof.
  induction 1 as [|a l Hs IH Ha]; simpl; [constructor|].
  apply Sorted_snoc; [exact IH|].
  intros y Hy Hne. destruct l as [|b l]; [contradiction|].
  apply HdRel_inv in Ha. simpl in Hy.
  rewrite List.last_last in Hy. subst y. exact Ha.
Qed.

Lemma Sorted_map {A B : Type} (R : B -> B -> Prop) (f : A -> B) (l : list A) :
  Sorted (fun a b => R (f a) (f b)) l -> Sorted R (map f l).
Proof.
  induction 1 as [|a l Hs IH Ha]; simpl; constructor; [exact IH|].
  destruct Ha; simpl; constructor. assumption.
Qed.

Lemma Sorted_Forall_impl {A : Type} (P : A -> Prop) (R R' : A -> A -> Prop) (l : list A) :
  Forall P l -> (forall a b, P a -> P b -> R a b -> R' a b) ->
  Sorted R l -> Sorted R' l.
Proof.
  intros HP H Hs. induction Hs as [|a l Hs IH Ha]; constructor.
  - apply IH. apply Forall_inv_tail in HP. exact HP.
  - destruct Ha; constructor. apply H; [| |assumption].
    + apply Forall_inv in HP. exact HP.
    + apply Forall_inv_tail, Forall_inv in HP. exact HP.
Qed.

Lemma list_filter_Permutation {A : Type} (p : A -> bool) (l l' : list A) :
  Permutation l l' -> Permutation (List.filter p l) (List.filter p l').
Proof.
  induction 1 as [|x l l' _ IH|x y l|l l' l'' _ IH1 _ IH2]; simpl.
  - reflexivity.
  - destruct (p x); [apply perm_skip|]; exact IH.
  - destruct (p x), (p y); try reflexivity. apply perm_swap.
  - etransitivity; eassumption.
Qed.

Lemma filter_filter_and {A : Type} (p q : A -> bool) (l : list A) :
  List.filter p (List.filter q l) = List.filter (fun x => q x && p x) l.
Proof.
  induction l as [|x l IH]; simpl; [reflexivity|].
  destruct (q x); simpl; [destruct (p x)|]; rewrite IH; reflexivity.
Qed.

Lemma filter_all {A : Type} (p : A -> bool) (l : list A) :
  (forall x, In x l -> p x = true) -> List.filter p l = l.
Proof.
  induction l as [|x l IH]; simpl; intros H; [reflexivity|].
  rewrite (H x) by auto. rewrite IH by auto. reflexivity.
Qed.

(** ** The offline queue *)

Module QueueFacts.
Import OfflineDb Props.

Lemma status_eqb_eq a b : Entry.status_eqb a b = true <-> a = b.
Proof. destruct a, b; simpl; split; congruence. Qed.

Section Sync.
Context {W : Type}.
Variable syncFn : gmap string string -> W -> bool * W.

Lemma syncLoop_spec (pending : list Entry.t) (db : Db) (w : W) (s f : Z) :
  syncLoop syncFn pending db w s f
  = (fold_left mark (combine pending (outcomes syncFn pending w)) db,
     worldAfter syncFn pending w,
     s + count true (outcomes syncFn pending w),
     f + count false (outcomes syncFn pending w)).
Proof.
  revert db w s f. induction pending as [|e rest IH]; intros db w s f.
  - simpl. unfold count. simpl. rewrite !Z.add_0_r. reflexivity.
  - simpl. destruct (syncFn (Entry.data e) w) as [ok w'] eqn:E. simpl.
    destruct ok; rewrite IH; unfold count, mark; simpl;
      repeat match goal with |- (_, _) = (_, _) => f_equal end; lia.
Qed.

Lemma length_outcomes (pending : list Entry.t) (w : W) :
  length (outcomes syncFn pending w) = length pending.
Proof.
  revert w. induction pending as [|e rest IH]; intros w; simpl; [reflexivity|].
  destruct (syncFn (Entry.data e) w). simpl. rewrite IH. reflexivity.
Qed.

Lemma outcomes_logged (pending : list Entry.t) (w : W) log :
  outcomes (logged syncFn) pending (w, log) = outcomes syncFn pending w.
Proof.
  revert w log. induction pending as [|e rest IH]; intros w log; simpl; [reflexivity|].
  unfold logged at 1. simpl. destruct (syncFn (Entry.data e) w) as [ok w'].
  rewrite IH. reflexivity.
Qed.

Lemma worldAfter_logged (pending : list Entry.t) (w : W) log :
  worldAfter (logged syncFn) pending (w, log)
  = (worldAfter syncFn pending w, log ++ map Entry.data pending).
Proof.
  revert w log. induction pending as [|e rest IH]; intros w log; simpl.
  - rewrite app_nil_r. reflexivity.
  - unfold logged at 2. simpl. destruct (syncFn (Entry.data e) w) as [ok w'].
    simpl. rewrite IH, <- app_assoc. reflexivity.
Qed.

End Sync.

Lemma count_true_false (l : list bool) :
  count true l + count false l = Z.of_nat (length l).
Proof.
  unfold count. induction l as [|[] l IH]; simpl in *; lia.
Qed.

Lemma get_mark (k : Z) (db : Db) (e : Entry.t) (ok : bool) :
  Dexie.get Entry.id k (offlineConsults (mark db (e, ok)))
  = if k =? Entry.id e
    then option_map (markedRow ok) (Dexie.get Entry.id k (offlineConsults db))
    else Dexie.get Entry.id k (offlineConsults db).
Proof.
  unfold mark. simpl. destruct (Z.eqb_spec k (Entry.id e)) as [->|Hne].
  - destruct ok; simpl.
    + apply get_modify_same. reflexivity.
    + unfold markConsultFailed.
      destruct (Dexie.get Entry.id (Entry.id e) (offlineConsults db)) as [entry|] eqn:G.
      * simpl. rewrite get_modify_same by reflexivity. rewrite G. reflexivity.
      * rewrite G. reflexivity.
  - destruct ok; simpl.
    + apply get_modify_other; [reflexivity | exact Hne].
    + unfold markConsultFailed.
      destruct (Dexie.get Entry.id (Entry.id e) (offlineConsults db)) as [entry|] eqn:G.
      * simpl. apply get_modify_other; [reflexivity | exact Hne].
      * reflexivity.
Qed.

Lemma mark_pending (P : Z -> Prop) (db : Db) (e : Entry.t) (ok : bool) :
  Forall (fun r => Entry.status r = Entry.pending ->
                   Entry.id r = Entry.id e \/ P (Entry.id r)) (offlineConsults db) ->
  Forall (fun r => Entry.status r = Entry.pending -> P (Entry.id r))
    (offlineConsults (mark db (e, ok))).
Proof.
  intros H. unfold mark. simpl. destruct ok; simpl.
  - eapply modify_Forall; [exact H | |].
    + intros r Hr Hk Hp. destruct (Hr Hp); [contradiction | assumption].
    + intros r _ _. discriminate.
  - unfold markConsultFailed.
    destruct (Dexie.get Entry.id (Entry.id e) (offlineConsults db)) as [entry|] eqn:G.
    + simpl. eapply modify_Forall; [exact H | |].
      * intros r Hr Hk Hp. destruct (Hr Hp); [contradiction | assumption].
      * intros r _ _. discriminate.
    + apply get_None_key in G. rewrite List.Forall_forall in *.
      intros r Hin Hp. destruct (H r Hin Hp) as [E|]; [|assumption].
      exfalso. exact (G r Hin E).
Qed.

Lemma fold_mark_no_pending (eos : list (Entry.t * bool)) (db : Db) :
  Forall (fun r => Entry.status r = Entry.pending ->
                   In (Entry.id r) (map (fun eo => Entry.id (fst eo)) eos))
    (offlineConsults db) ->
  Forall (fun r => Entry.status r <> Entry.pending)
    (offlineConsults (fold_left mark eos db)).
Proof.
  revert db. induction eos as [|[e ok] eos IH]; intros db H; simpl.
  - eapply List.Forall_impl; [|exact H]. simpl. intros r Hr Hp. exact (Hr Hp).
  - apply IH.
    apply (mark_pending (fun k => In k (map (fun eo => Entry.id (fst eo)) eos))).
    eapply List.Forall_impl; [|exact H].
    simpl. intros r Hr Hp. destruct (Hr Hp); auto.
Qed.

Lemma map_fst_combine (pending : list Entry.t) (outs : list bool) :
  length outs = length pending ->
  map (fun eo : Entry.t * bool => Entry.id (fst eo)) (combine pending outs)
  = map Entry.id pending.
Proof.
  revert outs. induction pending as [|e rest IH]; intros [|o outs] H;
    simpl in *; try discriminate; [reflexivity|].
  f_equal. apply IH. lia.
Qed.

Lemma fold_mark_get_fresh (eos : list (Entry.t * bool)) (db : Db) (k : Z) :
  ~ In k (map (fun eo => Entry.id (fst eo)) eos) ->
  Dexie.get Entry.id k (offlineConsults (fold_left mark eos db))
  = Dexie.get Entry.id k (offlineConsults db).
Proof.
  revert db. induction eos as [|[e ok] eos IH]; intros db H; simpl; [reflexivity|].
  simpl in H. rewrite IH by tauto. rewrite get_mark.
  destruct (Z.eqb_spec k (Entry.id e)); [exfalso; apply H; auto | reflexivity].
Qed.

Lemma fold_mark_get (pending : list Entry.t) (outs : list bool) (db : Db)
    (i : nat) (e : Entry.t) (ok : bool) :
  NoDup (map Entry.id pending) ->
  pending !! i = Some e -> outs !! i = Some ok ->
  Dexie.get Entry.id (Entry.id e)
    (offlineConsults (fold_left mark (combine pending outs) db))
  = option_map (markedRow ok) (Dexie.get Entry.id (Entry.id e) (offlineConsults db)).
Proof.
  revert outs db i. induction pending as [|x rest IH]; intros outs db i Hnd He Ho.
  - destruct i; discriminate.
  - destruct outs as [|o outs]; [destruct i; discriminate|].
    simpl in Hnd. apply NoDup_cons in Hnd as [Hx Hnd]. simpl.
    destruct i as [|i]; simpl in He, Ho.
    + injection He as ->. injection Ho as ->.
      rewrite fold_mark_get_fresh.
      * rewrite get_mark, Z.eqb_refl. reflexivity.
      * intros Hin. apply Hx. apply list_elem_of_In.
        clear -Hin. revert outs Hin. induction rest as [|y rest IH]; intros [|o outs] Hin;
          simpl in *; try tauto. destruct Hin; [auto | right; eauto].
    + rewrite (IH outs _ i) by assumption. rewrite get_mark.
      destruct (Z.eqb_spec (Entry.id e) (Entry.id x)) as [E|]; [|reflexivity].
      exfalso. apply Hx. rewrite <- E. apply list_elem_of_fmap.
      exists e. split; [reflexivity|]. eapply list_elem_of_lookup_2. exact He.
Qed.

Lemma cleanup_rows (now : Z) (db : Db) :
  offlineConsults (snd (cleanupSyncedConsults now db))
  = List.filter (fun e => negb (expired now e)) (offlineConsults db).
Proof. reflexivity. Qed.

Lemma cleanup_keeps (now : Z) (db : Db) (e : Entry.t) :
  In e (offlineConsults db) -> Entry.status e <> Entry.synced ->
  In e (offlineConsults (snd (cleanupSyncedConsults now db))).
Proof.
  intros Hin Hs. rewrite cleanup_rows. apply filter_In. split; [exact Hin|].
  unfold expired. destruct (Entry.status e); simpl; congruence.
Qed.

Lemma syncAllPending_spec {W : Type} (syncFn : gmap string string -> W -> bool * W)
    (now : Z) (db : Db) (w : W) :
  let pending := getPendingConsults db in
  let outs := outcomes syncFn pending w in
  syncAllPending syncFn now db w
  = (MakeResult (count true outs) (count false outs),
     snd (cleanupSyncedConsults now (fold_left mark (combine pending outs) db)),
     worldAfter syncFn pending w).
Proof.
  intros pending outs. unfold syncAllPending. fold pending.
  rewrite syncLoop_spec. fold outs. rewrite !Z.add_0_l.
  destruct (cleanupSyncedConsults now _) as [n db2]. reflexivity.
Qed.

Lemma wfDb_pending_NoDup (db : Db) :
  wfDb db -> NoDup (map Entry.id (getPendingConsults db)).
Proof.
  intros [Hs _]. unfold getPendingConsults.
  induction (offlineConsults db) as [|r rows IH]; simpl; [constructor|].
  simpl in Hs. apply StronglySorted_inv in Hs as [Hs Hr].
  destruct (Entry.status_eqb _ _); [|auto]. simpl.
  apply NoDup_cons. split; [|auto].
  intros Hin. apply list_elem_of_fmap in Hin as (x & E & Hx).
  apply list_elem_of_In, filter_In in Hx as [Hx _].
  rewrite List.Forall_forall in Hr.
  specialize (Hr (Entry.id x) (in_map _ _ _ Hx)). lia.
Qed.

Lemma enqueues_app ops op :
  enqueues (ops ++ [op]) = enqueues ops + (if isEnqueue op then 1 else 0).
Proof.
  unfold enqueues. rewrite List.filter_app, length_app. simpl.
  destruct (isEnqueue op); simpl; lia.
Qed.

Lemma stamps_app ops op :
  stamps (ops ++ [op])
  = stamps ops ++ match op with Enqueue _ now2 _ _ => [now2] | _ => [] end.
Proof.
  induction ops as [|o ops IH]; simpl.
  - destruct op; reflexivity.
  - destruct o; simpl; rewrite IH; reflexivity.
Qed.

Lemma inv_init : queueInv [] (emptyDb, MakeReached ∅ ∅).
Proof.
  constructor; simpl; try (split; constructor); try constructor; try reflexivity.
  intros k Hk. apply elem_of_union in Hk as [Hk|Hk]; apply elem_of_empty in Hk;
    contradiction.
Qed.

Lemma inv_enqueue ops st now1 now2 rnd consultData :
  queueInv ops st ->
  queueInv (ops ++ [Enqueue now1 now2 rnd consultData])
    (step st (Enqueue now1 now2 rnd consultData)).
Proof.
  intros [[Hs Hlt] Hpos Hnext Hst Hre Hcnt Hstamp Hlen].
  destruct st as [db reached]. simpl in *.
  unfold step, saveOfflineConsult, Dexie.add. cbn [fst snd].
  rewrite (put_last Entry.id) by exact Hlt.
  set (entry := Entry.Make _ _ _ _ _ _).
  constructor; unfold wfDb; cbn [fst snd offlineConsults offlineConsultsNextId].
  - split.
    + rewrite map_app. apply StronglySorted_snoc; [exact Hs|].
      apply Forall_map. exact Hlt.
    + apply Forall_app. split.
      * eapply List.Forall_impl; [|exact Hlt]. simpl. intros; lia.
      * repeat constructor. simpl. lia.
  - apply Forall_app. split; [exact Hpos|]. repeat constructor. simpl.
    unfold enqueues in Hnext. lia.
  - rewrite enqueues_app. simpl. lia.
  - apply Forall_app. split; [exact Hst|]. repeat constructor. simpl.
    intros Hin. apply Hre in Hin. lia.
  - intros k Hk. apply Hre in Hk. lia.
  - unfold getPendingConsults in *. cbn [offlineConsults].
    rewrite List.filter_app, length_app, enqueues_app. simpl. lia.
  - rewrite stamps_app. apply Forall_app. split.
    + rewrite List.Forall_forall in *. intros e He.
      destruct (Hstamp e He) as (t & Ht & Hc). exists t. split; [|exact Hc].
      apply lookup_app_l_Some. exact Ht.
    + repeat constructor. exists now2. split; [|reflexivity]. simpl.
      rewrite lookup_app_r by lia.
      replace (Z.to_nat (offlineConsultsNextId db - 1) - length (stamps ops))%nat
        with 0%nat by lia. reflexivity.
  - rewrite stamps_app, length_app, enqueues_app. simpl. lia.
Qed.

(** A mark takes the row out of the pending ones if it was there. *)
Lemma pending_after_mark (f : Entry.t -> Entry.t) (k : Z) (rows : list Entry.t)
    (r : Entry.t) :
  (forall e, Entry.status (f e) <> Entry.pending) ->
  StronglySorted Z.lt (map Entry.id rows) ->
  Dexie.get Entry.id k rows = Some r ->
  (length (List.filter (fun e => Entry.status_eqb (Entry.status e) Entry.pending)
             (Dexie.modify Entry.id f k rows))
   + (if Entry.status_eqb (Entry.status r) Entry.pending then 1 else 0))%nat
  = length (List.filter (fun e => Entry.status_eqb (Entry.status e) Entry.pending) rows).
Proof.
  intros Hf. induction rows as [|x rows IH]; simpl; [discriminate|].
  intros Hs Hg. apply StronglySorted_inv in Hs as [Hs Hx].
  destruct (Z.eqb_spec (Entry.id x) k) as [E|E].
  - injection Hg as ->. simpl.
    replace (Entry.status_eqb (Entry.status (f r)) Entry.pending) with false
      by (symmetry; destruct (Entry.status (f r)) eqn:S;
          [exfalso; exact (Hf r S) | reflexivity | reflexivity]).
    rewrite modify_absent.
    + destruct (Entry.status_eqb (Entry.status r) Entry.pending); simpl; lia.
    + eapply List.Forall_impl; [|apply Forall_map; exact Hx]. simpl. intros; lia.
  - simpl. destruct (Entry.status_eqb (Entry.status x) Entry.pending); simpl;
      rewrite <- (IH Hs Hg); lia.
Qed.

(** The invariant after a mark: the row with key [id] gets the status
    [s'], and [id] is recorded as having reached it. *)
Lemma inv_mark ops db S F S' F' (op : QueueOp) (f : Entry.t -> Entry.t)
    (id : Z) (r : Entry.t) (s' : Entry.Status) :
  queueInv ops (db, MakeReached S F) ->
  Dexie.get Entry.id id (offlineConsults db) = Some r ->
  (forall e, Entry.id (f e) = Entry.id e) ->
  (forall e, Entry.createdAt (f e) = Entry.createdAt e) ->
  (forall e, Entry.status (f e) = s') -> s' <> Entry.pending ->
  S' ∪ F' = {[id]} ∪ (S ∪ F) -> S ⊆ S' -> F ⊆ F' ->
  match s' with
  | Entry.pending => True
  | Entry.synced => id ∈ S'
  | Entry.failed => id ∈ F'
  end ->
  isEnqueue op = false -> stamps (ops ++ [op]) = stamps ops ->
  queueInv (ops ++ [op])
    (setOfflineConsults (Dexie.modify Entry.id f id (offlineConsults db)) db,
     MakeReached S' F').
Proof.
  intros [[Hs Hlt] Hpos Hnext Hst Hre Hcnt Hstamp Hlen] G Hid Hcr Hstat Hnp HU HS HF
    Hin' Hop Hst'.
  simpl in *.
  destruct (get_Some_key _ _ _ _ G) as [Hk Hin].
  assert (Hr : match Entry.status r with
               | Entry.pending => Entry.id r ∉ S ∪ F
               | Entry.synced => Entry.id r ∈ S
               | Entry.failed => Entry.id r ∈ F
               end) by (rewrite List.Forall_forall in Hst; exact (Hst r Hin)).
  assert (Hrl : Entry.id r < offlineConsultsNextId db)
    by (rewrite List.Forall_forall in Hlt; exact (Hlt r Hin)).
  constructor; unfold wfDb;
    cbn [fst snd setOfflineConsults offlineConsults offlineConsultsNextId
           reachedSynced reachedFailed];
    rewrite ?Hst', ?enqueues_app, ?Hop; cbv iota; rewrite ?Z.add_0_r.
  - split.
    + rewrite modify_keys by exact Hid. exact Hs.
    + eapply modify_Forall; [exact Hlt | |]; simpl; intros; rewrite ?Hid; auto.
  - eapply modify_Forall; [exact Hpos | |]; simpl; intros; rewrite ?Hid; auto.
  - exact Hnext.
  - eapply modify_Forall; [exact Hst | |]; simpl.
    + intros e He Hne. destruct (Entry.status e).
      * rewrite HU. intros Hu. apply elem_of_union in Hu as [Hu|Hu]; [|contradiction].
        apply elem_of_singleton in Hu. contradiction.
      * apply HS, He.
      * apply HF, He.
    + intros e _ He. rewrite Hstat, Hid, He.
      destruct s'; [contradiction | exact Hin' | exact Hin'].
  - intros k Hk'. rewrite HU in Hk'. apply elem_of_union in Hk' as [Hk'|Hk']; [|auto].
    apply elem_of_singleton in Hk'. lia.
  - rewrite <- Hcnt, HU. unfold getPendingConsults.
    cbn [offlineConsults setOfflineConsults].
    pose proof (pending_after_mark f id _ r
                  (fun e => eq_ind_r (fun s => s <> Entry.pending) Hnp (Hstat e))
                  Hs G) as L.
    destruct (Entry.status r) eqn:Sr; simpl in L.
    + rewrite size_union by (apply disjoint_singleton_l; rewrite <- Hk; exact Hr).
      rewrite size_singleton. lia.
    + rewrite subseteq_union_1_L; [lia|].
      apply singleton_subseteq_l, elem_of_union. left. rewrite <- Hk. exact Hr.
    + rewrite subseteq_union_1_L; [lia|].
      apply singleton_subseteq_l, elem_of_union. right. rewrite <- Hk. exact Hr.
  - eapply modify_Forall; [exact Hstamp | |]; simpl; intros; rewrite ?Hid, ?Hcr; auto.
  - exact Hlen.
Qed.

Lemma inv_absent ops db reached (op : QueueOp) :
  queueInv ops (db, reached) ->
  isEnqueue op = false -> stamps (ops ++ [op]) = stamps ops ->
  queueInv (ops ++ [op]) (db, reached).
Proof.
  intros [Hwf Hpos Hnext Hst Hre Hcnt Hstamp Hlen] Hop Hst'.
  constructor; rewrite ?Hst', ?enqueues_app, ?Hop; cbv iota; rewrite ?Z.add_0_r;
    assumption.
Qed.

Lemma stamps_snoc_mark ops op :
  isEnqueue op = false -> stamps (ops ++ [op]) = stamps ops.
Proof.
  intros H. rewrite stamps_app. destruct op; try discriminate; apply app_nil_r.
Qed.

Lemma inv_markSynced ops st id :
  queueInv ops st -> queueInv (ops ++ [MarkSynced id]) (step st (MarkSynced id)).
Proof.
  intros Hinv. destruct st as [db [S F]]. unfold step, present. cbn [fst snd].
  destruct (Dexie.get Entry.id id (offlineConsults db)) as [r|] eqn:G.
  - unfold markConsultSynced.
    apply (inv_mark ops db S F _ _ _ _ id r Entry.synced Hinv G); auto;
      try discriminate; cbn [reachedSynced reachedFailed].
    + symmetry. apply (assoc_L (∪)).
    + apply union_subseteq_r.
    + apply elem_of_union. left. apply elem_of_singleton. reflexivity.
    + apply stamps_snoc_mark. reflexivity.
  - apply get_None_key in G. unfold markConsultSynced.
    rewrite (modify_absent Entry.id _ _ _ G).
    replace (setOfflineConsults (offlineConsults db) db) with db by (destruct db; reflexivity).
    apply inv_absent; [exact Hinv | reflexivity | apply stamps_snoc_mark; reflexivity].
Qed.

Lemma inv_markFailed ops st id :
  queueInv ops st -> queueInv (ops ++ [MarkFailed id]) (step st (MarkFailed id)).
Proof.
  intros Hinv. destruct st as [db [S F]]. unfold step, present, markConsultFailed.
  cbn [fst snd].
  destruct (Dexie.get Entry.id id (offlineConsults db)) as [r|] eqn:G.
  - apply (inv_mark ops db S F _ _ _ _ id r Entry.failed Hinv G); auto;
      try discriminate; cbn [reachedSynced reachedFailed].
    + rewrite (assoc_L (∪)), (comm_L (∪) S), <- (assoc_L (∪)). reflexivity.
    + apply union_subseteq_r.
    + apply elem_of_union. left. apply elem_of_singleton. reflexivity.
    + apply stamps_snoc_mark. reflexivity.
  - apply inv_absent; [exact Hinv | reflexivity | apply stamps_snoc_mark; reflexivity].
Qed.

Lemma inv_sweep ops st now :
  queueInv ops st -> queueInv (ops ++ [Sweep now]) (step st (Sweep now)).
Proof.
  intros [[Hs Hlt] Hpos Hnext Hst Hre Hcnt Hstamp Hlen].
  destruct st as [db reached]. simpl in *.
  unfold step. cbn [fst snd].
  change (snd (cleanupSyncedConsults now db))
    with (setOfflineConsults
            (List.filter (fun e => negb (expired now e)) (offlineConsults db)) db).
  unfold setOfflineConsults.
  constructor; unfold wfDb; cbn [fst snd offlineConsults offlineConsultsNextId];
    rewrite ?stamps_app, ?enqueues_app; simpl; rewrite ?app_nil_r, ?Z.add_0_r;
    auto using Forall_list_filter.
  - split; auto using Forall_list_filter, StronglySorted_filter_keys.
  - rewrite <- Hcnt. unfold getPendingConsults. cbn [offlineConsults].
    rewrite filter_filter_absorb; [reflexivity|].
    intros e He. unfold expired.
    destruct (Entry.status e); simpl in *; congruence.
Qed.

Lemma run_app ops op : run (ops ++ [op]) = step (run ops) op.
Proof. unfold run. rewrite fold_left_app. reflexivity. Qed.

Lemma run_inv ops : queueInv ops (run ops).
Proof.
  induction ops as [|op ops IH] using rev_ind; [exact inv_init|].
  rewrite run_app. destruct op.
  - apply inv_enqueue, IH.
  - apply inv_markSynced, IH.
  - apply inv_markFailed, IH.
  - apply inv_sweep, IH.
Qed.

(** A pass is the mark of each entry of its snapshot, then a sweep. *)
Lemma marks_as_ops (eos : list (Entry.t * bool)) (st : Db * Reached) :
  fst (fold_left step (map markOp eos) st) = fold_left mark eos (fst st).
Proof.
  revert st. induction eos as [|[e ok] eos IH]; intros st; simpl; [reflexivity|].
  rewrite IH. destruct ok; reflexivity.
Qed.

Lemma pass_as_ops {W : Type}
    (syncFn : gmap string string -> W -> bool * W) (now : Z) (db : Db) (w : W)
    (reached : Reached) :
  snd (fst (syncAllPending syncFn now db w))
  = fst (fold_left step
           (map markOp
              (combine (getPendingConsults db)
                 (outcomes syncFn (getPendingConsults db) w))
              ++ [Sweep now]) (db, reached)).
Proof.
  rewrite syncAllPending_spec, fold_left_app. cbn [fst snd fold_left].
  unfold step at 1. cbn [fst snd]. rewrite marks_as_ops. reflexivity.
Qed.

(** An entry that is 'failed' is not in the snapshot of a pass, and the
    pass leaves it as it is. *)
Lemma failed_entry_untouched {W : Type}
    (syncFn : gmap string string -> W -> bool * W) (now : Z) (db : Db) (w : W)
    (e : Entry.t) :
  wfDb db -> In e (offlineConsults db) -> Entry.status e = Entry.failed ->
  ~ In e (getPendingConsults db)
  /\ In e (offlineConsults (snd (fst (syncAllPending syncFn now db w)))).
Proof.
  intros Hwf Hin Hs.
  assert (Hnot : ~ In e (getPendingConsults db)).
  { intros H. apply filter_In in H as [_ H]. apply status_eqb_eq in H. congruence. }
  split; [exact Hnot|].
  rewrite syncAllPending_spec. cbn [fst snd]. rewrite cleanup_rows.
  assert (G : Dexie.get Entry.id (Entry.id e)
                (offlineConsults
                   (fold_left mark
                      (combine (getPendingConsults db)
                         (outcomes syncFn (getPendingConsults db) w)) db))
              = Some e).
  { rewrite fold_mark_get_fresh.
    - apply get_In_sorted; [exact (proj1 Hwf) | exact Hin].
    - rewrite map_fst_combine by apply length_outcomes.
      intros H. apply in_map_iff in H as (x & Hx & Hp). apply Hnot.
      assert (In x (offlineConsults db)) by (apply filter_In in Hp; tauto).
      pose proof (get_In_sorted Entry.id _ x (proj1 Hwf) H) as Gx.
      rewrite Hx, (get_In_sorted Entry.id _ e (proj1 Hwf) Hin) in Gx.
      injection Gx as ->. exact Hp. }
  eapply (get_Some_key Entry.id).
  apply (get_filter Entry.id _ _ _ _ G).
  unfold expired. rewrite Hs. reflexivity.
Qed.

End QueueFacts.

(** ** The caches of server records *)

Module CacheFacts.
Import OfflineDb Props.

Lemma createdAtIndexLe_total a b :
  createdAtIndexLe a b = false -> createdAtIndexLe b a = true.
Proof.
  unfold createdAtIndexLe.
  destruct (CachedConsult.createdAt a) as [x|], (CachedConsult.createdAt b) as [y|];
    try discriminate.
  rewrite (String.compare_antisym x y).
  destruct (String.compare y x); simpl; try discriminate; [|reflexivity].
  intros H. apply Z.leb_gt in H. apply Z.leb_le. lia.
Qed.

Lemma createdAtIndexLe_newer a b :
  hasCreatedAt a = true -> hasCreatedAt b = true ->
  createdAtIndexLe b a = true ->
  exists x y, CachedConsult.createdAt a = Some x /\ CachedConsult.createdAt b = Some y
              /\ Js.str_le y x = true.
Proof.
  unfold hasCreatedAt, createdAtIndexLe, Js.str_le, String.leb.
  destruct (CachedConsult.createdAt a) as [x|], (CachedConsult.createdAt b) as [y|];
    try discriminate.
  intros _ _ H. exists x, y. repeat split.
  destruct (String.compare y x); [reflexivity | reflexivity | discriminate].
Qed.

Lemma data_filter_toCached (X : list Consult.t) :
  map CachedConsult.data (List.filter hasCreatedAt (map toCachedConsult X))
  = List.filter hasTimestamp X.
Proof.
  induction X as [|c X IH]; simpl; [reflexivity|].
  unfold hasCreatedAt at 1, hasTimestamp at 1. simpl.
  destruct (Consult.created_at c); simpl; rewrite IH; reflexivity.
Qed.

Lemma cacheConsults_rows (X : list Consult.t) (db : Db) :
  cachedConsults (cacheConsults X db)
  = Dexie.bulkPut CachedConsult.id (map toCachedConsult X) [].
Proof.
  unfold cacheConsults. destruct X; reflexivity.
Qed.

Lemma cacheSchedule_rows (T : list Schedule.t) (db : Db) :
  cachedSchedule (cacheSchedule T db)
  = Dexie.bulkPut CachedSchedule.id (map toCachedSchedule T) [].
Proof.
  unfold cacheSchedule. destruct T; reflexivity.
Qed.

Lemma cached_rows_Permutation (X : list Consult.t) :
  NoDup (map Consult.id X) ->
  Permutation (map toCachedConsult X)
    (Dexie.bulkPut CachedConsult.id (map toCachedConsult X) []).
Proof.
  intros Hnd. rewrite <- (app_nil_r (map toCachedConsult X)) at 1.
  apply bulkPut_Permutation.
  - rewrite map_map. exact Hnd.
  - intros r _ [].
Qed.

End CacheFacts.

(** ** The service worker *)

Module SwFacts.
Import Sw.

Lemma fold_delete (ks : list string) (cs : CacheStorage) :
  fold_left (fun acc k => delete k acc) ks cs
  = List.filter (fun c => negb (includes (fst c) ks)) cs.
Proof.
  revert cs. induction ks as [|k ks IH]; intros cs; simpl.
  - symmetry. apply filter_all. reflexivity.
  - rewrite IH. unfold delete. rewrite filter_filter_and.
    apply filter_ext. intros c. rewrite negb_orb. reflexivity.
Qed.

Lemma includes_In (k : string) (l : list string) : includes k l = true <-> In k l.
Proof.
  unfold includes. rewrite existsb_exists. split.
  - intros (x & Hx & E). apply String.eqb_eq in E. subst. exact Hx.
  - intros H. exists k. split; [exact H | apply String.eqb_refl].
Qed.

Lemma includes_filter (p : string -> bool) (k : string) (l : list string) :
  In k l -> includes k (List.filter p l) = p k.
Proof.
  intros Hin. destruct (p k) eqn:E.
  - apply includes_In, filter_In. auto.
  - destruct (includes k (List.filter p l)) eqn:I; [|reflexivity].
    apply includes_In, filter_In in I as [_ I]. congruence.
Qed.

Lemma activate_filter (cs : CacheStorage) :
  activate cs = List.filter (fun c => includes (fst c) allowedCaches) cs.
Proof.
  unfold activate. rewrite fold_delete. apply filter_ext_in.
  intros c Hc. rewrite includes_filter by (apply in_map; exact Hc).
  apply negb_involutive.
Qed.

Lemma staticName_inj v v' : staticName v = staticName v' -> v = v'.
Proof. cbv [staticName String.append]. congruence. Qed.

Lemma apiName_inj v v' : apiName v = apiName v' -> v = v'.
Proof. cbv [apiName String.append]. congruence. Qed.

Lemma imagesName_inj v v' : imagesName v = imagesName v' -> v = v'.
Proof. cbv [imagesName String.append]. congruence. Qed.

Lemma allowed_static v : In (staticName v) allowedCaches -> v = CACHE_VERSION.
Proof.
  unfold allowedCaches, STATIC_CACHE, API_CACHE, IMAGE_CACHE.
  intros [H|[H|[H|[]]]]; try (cbv [staticName apiName imagesName String.append] in H; discriminate H).
  - symmetry. apply staticName_inj. exact H.
Qed.

Lemma allowed_api v : In (apiName v) allowedCaches -> v = CACHE_VERSION.
Proof.
  unfold allowedCaches, STATIC_CACHE, API_CACHE, IMAGE_CACHE.
  intros [H|[H|[H|[]]]]; try (cbv [staticName apiName imagesName String.append] in H; discriminate H).
  - symmetry. apply apiName_inj. exact H.
Qed.

Lemma allowed_images v : In (imagesName v) allowedCaches -> v = CACHE_VERSION.
Proof.
  unfold allowedCaches, STATIC_CACHE, API_CACHE, IMAGE_CACHE.
  intros [H|[H|[H|[]]]]; try (cbv [staticName apiName imagesName String.append] in H; discriminate H).
  - symmetry. apply imagesName_inj. exact H.
Qed.

Lemma keys_activate (cs : CacheStorage) (name : string) :
  In name (keys (activate cs)) <-> In name (keys cs) /\ In name allowedCaches.
Proof.
  rewrite activate_filter. unfold keys. rewrite !in_map_iff. split.
  - intros (c & <- & Hc). apply filter_In in Hc as [Hc Ha].
    split; [exists c; auto | apply includes_In; exact Ha].
  - intros [(c & <- & Hc) Ha]. exists c. split; [reflexivity|].
    apply filter_In. split; [exact Hc | apply includes_In; exact Ha].
Qed.

Lemma has_content (name : string) (cs : CacheStorage) :
  has name cs = match content name cs with Some _ => true | None => false end.
Proof.
  unfold has. induction cs as [|[n c] cs IH]; simpl; [reflexivity|].
  destruct (String.eqb n name); [reflexivity | exact IH].
Qed.

Lemma content_open (name : string) (cs : CacheStorage) :
  content name (open name cs)
  = Some (match content name cs with Some c => c | None => ∅ end).
Proof.
  unfold open. rewrite has_content.
  destruct (content name cs) as [c|] eqn:E; [exact E|].
  induction cs as [|[n c] cs IH]; simpl in *.
  - rewrite String.eqb_refl. reflexivity.
  - destruct (String.eqb n name); [discriminate | auto].
Qed.

Lemma cacheMatch_open (name key : string) (cs : CacheStorage) :
  cacheMatch name key (open name cs) = cacheMatch name key cs.
Proof.
  unfold cacheMatch. rewrite content_open.
  destruct (content name cs); [reflexivity | apply lookup_empty].
Qed.

Lemma content_cacheStore (name key : string) (r : Response) (cs : CacheStorage) :
  content name (cacheStore name key r cs)
  = option_map (fun c => <[key := r]> c) (content name cs).
Proof.
  induction cs as [|[n c] cs IH]; simpl; [reflexivity|].
  destruct (String.eqb n name) eqn:E; simpl; rewrite E; [reflexivity | exact IH].
Qed.

Lemma cacheMatch_store_open (name key : string) (r : Response) (cs : CacheStorage) :
  cacheMatch name key (cacheStore name key r (open name cs)) = Some r.
Proof.
  unfold cacheMatch. rewrite content_cacheStore, content_open. simpl.
  apply lookup_insert_eq.
Qed.

Lemma cachePut_storable (name key : string) (r : Response) (cs : CacheStorage) :
  storable r = true -> cachePut name key r cs = cacheStore name key r cs.
Proof. unfold cachePut. intros ->. reflexivity. Qed.

Lemma cachePut_refused (name key : string) (r : Response) (cs : CacheStorage) :
  storable r = false -> cachePut name key r cs = cs.
Proof. unfold cachePut. intros ->. reflexivity. Qed.

Lemma cacheMatch_put_open (name key : string) (r : Response) (cs : CacheStorage) :
  storable r = true ->
  cacheMatch name key (cachePut name key r (open name cs)) = Some r.
Proof. intros H. rewrite cachePut_storable by exact H. apply cacheMatch_store_open. Qed.

Lemma cacheMatch_put_refused (name key : string) (r : Response) (cs : CacheStorage) :
  storable r = false ->
  cacheMatch name key (cachePut name key r (open name cs)) = cacheMatch name key cs.
Proof. intros H. rewrite cachePut_refused by exact H. apply cacheMatch_open. Qed.

Lemma cachesMatch_only (name key : string) (cs : CacheStorage) (c : Cache)
    (r : Response) :
  content name cs = Some c -> c !! key = Some r ->
  (forall n c', In (n, c') cs -> n <> name -> c' !! key = None) ->
  cachesMatch key cs = Some r.
Proof.
  induction cs as [|[n c0] cs IH]; simpl; [discriminate|].
  intros Hc Hk Hothers. destruct (String.eqb_spec n name) as [->|Hne].
  - injection Hc as ->. rewrite Hk. reflexivity.
  - rewrite (Hothers n c0) by auto. apply IH; eauto.
Qed.

End SwFacts.

(** ** The properties of the specification *)

Import OfflineDb Props QueueFacts CacheFacts Sw SwFacts.

(** C1. A reconciliation pass attempts every entry of its snapshot, also
    after a transmission has thrown.  On a store as Dexie keeps it, for
    every transmit function [syncFn] (with whatever state [w] it acts
    on):
    - the payloads handed to [syncFn] are those of the snapshot
      [getPendingConsults db], each once and in order (read off a
      transmit function that records its calls);
    - an entry whose transmission throws is afterwards 'failed', with
      its attempts incremented;
    - [synced] and [failed] count the transmissions that fulfilled and
      that threw;
    - after the pass no entry is 'pending';
    - with three pending entries of which only the second transmission
      throws, the pass returns [{synced: 2, failed: 1}] and no entry is
      left 'pending' with [attempts] 0. *)
Theorem syncAllPending_partial_failure {W : Type}
    (syncFn : gmap string string -> W -> bool * W) (now : Z) (db : Db) (w : W) :
  wfDb db ->
  let pending := getPendingConsults db in
  let outs := outcomes syncFn pending w in
  let result := fst (fst (syncAllPending syncFn now db w)) in
  let db' := snd (fst (syncAllPending syncFn now db w)) in
  snd (snd (syncAllPending (logged syncFn) now db (w, []))) = map Entry.data pending
  /\ (forall i e, pending !! i = Some e -> outs !! i = Some false ->
        Dexie.get Entry.id (Entry.id e) (offlineConsults db')
        = Some (Entry.Make (Entry.id e) (Entry.clientId e) (Entry.data e)
                  Entry.failed (Entry.createdAt e) (orZero (Entry.attempts e) + 1)))
  /\ synced result = count true outs
  /\ failed result = count false outs
  /\ getPendingConsults db' = []
  /\ (forall e1 e2 e3, pending = [e1; e2; e3] -> outs = [true; false; true] ->
        result = MakeResult 2 1
        /\ forall e, In e (offlineConsults db') ->
             ~ (Entry.status e = Entry.pending /\ Entry.attempts e = 0)).
Proof.
  intros Hwf pending outs result db'. subst result db'.
  rewrite !syncAllPending_spec. cbn [fst snd]. fold pending.
  rewrite worldAfter_logged. cbn [fst snd app]. fold outs.
  assert (Hnp : Forall (fun r => Entry.status r <> Entry.pending)
                  (offlineConsults
                     (snd (cleanupSyncedConsults now
                             (fold_left mark (combine pending outs) db))))).
  { rewrite cleanup_rows. apply List.Forall_forall. intros r Hr.
    apply filter_In in Hr as [Hr _]. revert r Hr. apply List.Forall_forall.
    apply fold_mark_no_pending. rewrite map_fst_combine by apply length_outcomes.
    apply List.Forall_forall. intros r Hr Hp. apply in_map.
    apply filter_In. split; [exact Hr|]. apply status_eqb_eq. exact Hp. }
  split; [reflexivity|]. split; [|split; [reflexivity|split; [reflexivity|split]]].
  - intros i e He Ho. rewrite cleanup_rows.
    assert (Hin : In e (offlineConsults db)).
    { apply list_elem_of_lookup_2, list_elem_of_In, filter_In in He. tauto. }
    assert (G : Dexie.get Entry.id (Entry.id e)
                  (offlineConsults (fold_left mark (combine pending outs) db))
                = Some (markedRow false e)).
    { rewrite (fold_mark_get pending outs db i e false);
        [|apply wfDb_pending_NoDup; exact Hwf | exact He | exact Ho].
      rewrite (get_In_sorted Entry.id _ e (proj1 Hwf) Hin). reflexivity. }
    apply (get_filter Entry.id _ _ _ _ G). reflexivity.
  - unfold getPendingConsults.
    induction Hnp as [|r rows Hr _ IH]; simpl; [reflexivity|].
    destruct (Entry.status_eqb (Entry.status r) Entry.pending) eqn:E; [|exact IH].
    apply status_eqb_eq in E. contradiction.
  - intros e1 e2 e3 Hp Ho. split; [rewrite Ho; reflexivity|].
    intros e He [Hs _]. rewrite List.Forall_forall in Hnp. exact (Hnp e He Hs).
Qed.

Lemma syncAllPending_partial_failure_witness :
  wfDb Samples.threePending
  /\ fst (fst (syncAllPending Samples.secondThrows Samples.now Samples.threePending 0%nat))
     = MakeResult 2 1.
Proof.
  assert (Hwf : wfDb Samples.threePending).
  { split; simpl; repeat constructor; simpl; lia. }
  split; [exact Hwf|].
  pose proof (syncAllPending_partial_failure Samples.secondThrows Samples.now
                Samples.threePending 0%nat Hwf) as H.
  cbv zeta in H. destruct H as (_ & _ & _ & _ & _ & H).
  apply (H (Samples.entry 1 Entry.pending "2024-02-29T12:00:00.000Z" 0)
           (Samples.entry 2 Entry.pending "2024-02-29T12:05:00.000Z" 0)
           (Samples.entry 3 Entry.pending "2024-02-29T12:10:00.000Z" 0));
    reflexivity.
Defined.

(** C2 (not what the code does). A submission that is 'failed' after a
    pass is not selected by the next pass: [getPendingConsults] reads
    the entries whose status equals 'pending' only.  One consult is
    enqueued and a first pass, whose transmission throws, returns
    [{synced: 0, failed: 1}] and leaves the entry 'failed' with one
    attempt; the second pass, whose transmit function would succeed, is
    never handed a payload, returns [{synced: 0, failed: 0}] and leaves
    the entry as it was. *)
Theorem failed_entry_is_not_retried :
  fst (fst Samples.firstPass) = MakeResult 0 1
  /\ map (fun e => (Entry.id e, Entry.status e, Entry.attempts e))
       (offlineConsults (snd (fst Samples.firstPass)))
     = [(1, Entry.failed, 1)]
  /\ getPendingConsults (snd (fst Samples.firstPass)) = []
  /\ fst (fst Samples.secondPass) = MakeResult 0 0
  /\ snd (snd Samples.secondPass) = []
  /\ map (fun e => (Entry.id e, Entry.status e, Entry.attempts e))
       (offlineConsults (snd (fst Samples.secondPass)))
     = [(1, Entry.failed, 1)].
Proof. vm_compute. repeat split. Qed.




(** C4. [cleanupSyncedConsults] deletes exactly the entries that are
    'synced' and whose [createdAt] is below the cutoff, the ISO string
    of seven days before now; the other entries stay, in their order.
    A 'pending' or 'failed' entry is never deleted, whatever its age.
    A 'synced' entry stamped at time [t] is kept if and only if [t] is
    not more than seven days before now: one created eight days ago is
    deleted, one created six days ago is kept (clock readings between
    1970 and 9999, where [toISOString] strings compare as their times
    do). *)
Theorem cleanupSyncedConsults_retention (now : Z) (db : Db) :
  let db' := snd (cleanupSyncedConsults now db) in
  let cutoff := JsDate.toISOString (now - 7 * 24 * 60 * 60 * 1000) in
  offlineConsults db'
    = List.filter
        (fun e => negb (Entry.status_eqb (Entry.status e) Entry.synced
                        && Js.str_lt (Entry.createdAt e) cutoff))
        (offlineConsults db)
  /\ (forall e, In e (offlineConsults db) ->
        (In e (offlineConsults db') <->
         ~ (Entry.status e = Entry.synced /\ Js.str_lt (Entry.createdAt e) cutoff = true)))
  /\ (forall e, In e (offlineConsults db) ->
        Entry.status e = Entry.pending \/ Entry.status e = Entry.failed ->
        In e (offlineConsults db'))
  /\ (forall e t, In e (offlineConsults db) ->
        Entry.status e = Entry.synced ->
        Entry.createdAt e = JsDate.toISOString t ->
        0 <= t <= JsDate.maxFourDigitTime ->
        7 * 86400000 <= now <= JsDate.maxFourDigitTime ->
        (In e (offlineConsults db') <-> now - 7 * 86400000 <= t))
  /\ (forall e, In e (offlineConsults db) ->
        Entry.status e = Entry.synced ->
        8 * 86400000 <= now <= JsDate.maxFourDigitTime ->
        Entry.createdAt e = JsDate.toISOString (now - 8 * 86400000) ->
        ~ In e (offlineConsults db'))
  /\ (forall e, In e (offlineConsults db) ->
        7 * 86400000 <= now <= JsDate.maxFourDigitTime ->
        Entry.createdAt e = JsDate.toISOString (now - 6 * 86400000) ->
        In e (offlineConsults db')).
Proof.
  intros db' cutoff. subst db'. rewrite cleanup_rows.
  change (fun e => negb (expired now e))
    with (fun e => negb (Entry.status_eqb (Entry.status e) Entry.synced
                         && Js.str_lt (Entry.createdAt e) cutoff)).
  split; [reflexivity|].
  assert (A : forall e, In e (offlineConsults db) ->
      (In e (List.filter
               (fun e => negb (Entry.status_eqb (Entry.status e) Entry.synced
                               && Js.str_lt (Entry.createdAt e) cutoff))
               (offlineConsults db)) <->
       ~ (Entry.status e = Entry.synced /\ Js.str_lt (Entry.createdAt e) cutoff = true))).
  { intros e Hin. rewrite filter_In, negb_true_iff, andb_false_iff.
    rewrite <- status_eqb_eq.
    destruct (Entry.status_eqb (Entry.status e) Entry.synced),
      (Js.str_lt (Entry.createdAt e) cutoff); intuition congruence. }
  split; [exact A|]. split; [|split; [|split]].
  - intros e Hin Hs. apply A; [exact Hin|]. intros [E _]. destruct Hs; congruence.
  - intros e t Hin Hs Hc Ht Hnow. rewrite (A e Hin), Hc. subst cutoff.
    unfold JsDate.maxFourDigitTime in *.
    rewrite DateFacts.toISOString_lt by (unfold JsDate.maxFourDigitTime; lia).
    rewrite Z.ltb_lt. split.
    + intros H. destruct (Z.le_gt_cases (now - 7 * 86400000) t); [assumption|].
      exfalso. apply H. split; [exact Hs | lia].
    + intros H [_ H']. lia.
  - intros e Hin Hs Hnow Hc. rewrite (A e Hin). intros H. apply H. split; [exact Hs|].
    rewrite Hc. subst cutoff. unfold JsDate.maxFourDigitTime in *.
    rewrite DateFacts.toISOString_lt by (unfold JsDate.maxFourDigitTime; lia).
    apply Z.ltb_lt. lia.
  - intros e Hin Hnow Hc. apply A; [exact Hin|]. intros [_ H].
    rewrite Hc in H. subst cutoff. unfold JsDate.maxFourDigitTime in *.
    rewrite DateFacts.toISOString_lt in H by (unfold JsDate.maxFourDigitTime; lia).
    apply Z.ltb_lt in H. lia.
Qed.

Lemma cleanupSyncedConsults_retention_witness :
  8 * 86400000 <= Samples.now <= JsDate.maxFourDigitTime
  /\ map Entry.id (offlineConsults (snd (cleanupSyncedConsults Samples.now Samples.aged)))
     = [2; 3; 4]
  /\ ~ In (Samples.entry 1 Entry.synced (JsDate.toISOString (Samples.now - 8 * 86400000)) 0)
         (offlineConsults (snd (cleanupSyncedConsults Samples.now Samples.aged))).
Proof.
  assert (Hnow : 8 * 86400000 <= Samples.now <= JsDate.maxFourDigitTime)
    by (unfold Samples.now, JsDate.maxFourDigitTime; lia).
  split; [exact Hnow|]. split; [vm_compute; reflexivity|].
  pose proof (cleanupSyncedConsults_retention Samples.now Samples.aged) as H.
  cbv zeta in H. destruct H as (_ & _ & _ & _ & H & _).
  apply H; [left; reflexivity | reflexivity | exact Hnow | reflexivity].
Defined.



(** C6 (amended). A same-origin GET request whose path starts with
    [/api/] is answered by [networkFirst] on the api cache.  When the
    network answers, that response is returned; it is stored in the api
    cache when it is [ok] (status 200 to 299) and the Cache interface
    takes it (the status is not 206 and no [Vary] header lists [*]).
    An [ok] response that the Cache interface refuses is returned and
    not stored: the api cache holds for the request what it held
    before.  When the response is not [ok] the caches are left as they
    were.  When the fetch fails and [caches.match] finds a cached
    response, that one is returned (the one in the api cache when no
    other cache holds the request); when there is none, a synthesized
    response with status 503 is returned.  Nothing is thrown. *)
Theorem networkFirst_api (selfOrigin : string) (fetch : Request -> FetchResult)
    (request : Request) (cs : CacheStorage) :
  origin request = selfOrigin ->
  method request = "GET" ->
  Js.startsWith "/api/" (pathname request) = true ->
  onFetch selfOrigin fetch request cs
  = RespondWith (networkFirst fetch request API_CACHE cs)
  /\ (forall r, fetch request = FetchResponse r ->
        fst (networkFirst fetch request API_CACHE cs) = Fulfilled (Some r)
        /\ (ok r = true -> storable r = true ->
            cacheMatch API_CACHE (url request)
              (snd (networkFirst fetch request API_CACHE cs)) = Some r)
        /\ (ok r = true -> storable r = false ->
            snd (networkFirst fetch request API_CACHE cs) = open API_CACHE cs
            /\ cacheMatch API_CACHE (url request)
                 (snd (networkFirst fetch request API_CACHE cs))
               = cacheMatch API_CACHE (url request) cs)
        /\ (ok r = false -> snd (networkFirst fetch request API_CACHE cs) = cs))
  /\ (forall e c, fetch request = FetchError e ->
        cachesMatch (url request) cs = Some c ->
        networkFirst fetch request API_CACHE cs = (Fulfilled (Some c), cs))
  /\ (forall e apiCache c, fetch request = FetchError e ->
        content API_CACHE cs = Some apiCache ->
        apiCache !! url request = Some c ->
        (forall n c', In (n, c') cs -> n <> API_CACHE -> c' !! url request = None) ->
        networkFirst fetch request API_CACHE cs = (Fulfilled (Some c), cs))
  /\ (forall e, fetch request = FetchError e ->
        cachesMatch (url request) cs = None ->
        networkFirst fetch request API_CACHE cs
        = (Fulfilled (Some offlineApiResponse), cs))
  /\ status offlineApiResponse = 503
  /\ (forall e, fst (networkFirst fetch request API_CACHE cs) <> Rejected e).
Proof.
  intros Ho Hm Hp. split.
  - unfold onFetch. rewrite Ho, Hm, Hp, String.eqb_refl. reflexivity.
  - unfold networkFirst. split; [|split; [|split; [|split; [|split; [reflexivity|]]]]].
    + intros r ->. split; [destruct (ok r); reflexivity|].
      split; [|split]; intros ->.
      * intros Hst. cbn [snd]. apply cacheMatch_put_open, Hst.
      * intros Hst. cbn [snd]. rewrite cachePut_refused by exact Hst.
        split; [reflexivity | apply cacheMatch_open].
      * reflexivity.
    + intros e c -> ->. reflexivity.
    + intros e apiCache c -> Hc Hk Hothers.
      rewrite (cachesMatch_only API_CACHE _ cs apiCache c Hc Hk Hothers). reflexivity.
    + intros e -> ->. reflexivity.
    + intros e. destruct (fetch request) as [r|e'].
      * destruct (ok r); discriminate.
      * destruct (cachesMatch (url request) cs); discriminate.
Qed.

Lemma networkFirst_api_witness :
  origin Samples.apiRequest = "https://consult.example"
  /\ method Samples.apiRequest = "GET"
  /\ Js.startsWith "/api/" (pathname Samples.apiRequest) = true
  /\ onFetch "https://consult.example" (fun _ => FetchResponse Samples.okResponse)
       Samples.apiRequest []
     = RespondWith (networkFirst (fun _ => FetchResponse Samples.okResponse)
                      Samples.apiRequest API_CACHE [])
  /\ cacheMatch API_CACHE (url Samples.apiRequest)
       (snd (networkFirst (fun _ => FetchResponse Samples.okResponse)
               Samples.apiRequest API_CACHE []))
     = Some Samples.okResponse.
Proof.
  split; [reflexivity|]. split; [reflexivity|]. split; [reflexivity|].
  destruct (networkFirst_api "https://consult.example"
              (fun _ => FetchResponse Samples.okResponse) Samples.apiRequest []
              eq_refl eq_refl eq_refl) as (H1 & H2 & _).
  split; [exact H1|].
  destruct (H2 Samples.okResponse eq_refl) as (_ & H & _). apply H; reflexivity.
Defined.

(** C6 as stated fails: the network is available and answers 500; the
    response is returned but not stored in the api cache. *)
Lemma networkFirst_error_response_not_stored :
  (fun _ => FetchResponse Samples.serverError) Samples.apiRequest = FetchResponse Samples.serverError
  /\ onFetch "https://consult.example" (fun _ => FetchResponse Samples.serverError) Samples.apiRequest []
     = RespondWith (Fulfilled (Some Samples.serverError), [])
  /\ cacheMatch API_CACHE (url Samples.apiRequest)
       (snd (networkFirst (fun _ => FetchResponse Samples.serverError) Samples.apiRequest API_CACHE []))
     = None.
Proof. repeat split. Qed.

(** C7. [markConsultSynced] is idempotent: on every store and for
    every key, marking twice leaves the store that marking once
    leaves. *)
Theorem markConsultSynced_idempotent (db : OfflineDb.Db) (id : Z) :
  OfflineDb.markConsultSynced id (OfflineDb.markConsultSynced id db)
  = OfflineDb.markConsultSynced id db.
Proof.
  unfold OfflineDb.markConsultSynced, OfflineDb.setOfflineConsults. simpl.
  rewrite modify_idem; auto.
Qed.

(** C8 (amended). For a list [X] of consults with pairwise distinct ids,
    [cacheConsults(X)] followed by [getCachedConsults()] returns the
    records of [X] that carry a [created_at], each once (all of [X] when
    every record has one), ordered newest first by [created_at],
    whatever the store held before.  For a list [T] of schedule entries
    with pairwise distinct ids, [cacheSchedule(T)] followed by
    [getCachedSchedule()] returns the records of [T], each once,
    whatever the store held before. *)
Theorem cache_roundtrip (X : list Consult.t) (T : list Schedule.t) (db db' : Db) :
  (NoDup (map Consult.id X) ->
   let Y := getCachedConsults (cacheConsults X db) in
   Permutation (List.filter hasTimestamp X) Y
   /\ (Forall (fun c => hasTimestamp c = true) X -> Permutation X Y)
   /\ Sorted newerOrSame Y
   /\ getCachedConsults (cacheConsults X db') = Y)
  /\ (NoDup (map Schedule.id T) ->
      Permutation T (getCachedSchedule (cacheSchedule T db))
      /\ getCachedSchedule (cacheSchedule T db')
         = getCachedSchedule (cacheSchedule T db)).
Proof.
  split.
  - intros Hnd Y. subst Y. unfold getCachedConsults, orderByCreatedAt.
    rewrite !cacheConsults_rows.
    set (rows := Dexie.bulkPut CachedConsult.id (map toCachedConsult X) []).
    pose proof (cached_rows_Permutation X Hnd) as Hrows. fold rows in Hrows.
    assert (HP : Permutation (List.filter hasTimestamp X)
                   (map CachedConsult.data
                      (rev (Dexie.sortBy createdAtIndexLe (List.filter hasCreatedAt rows))))).
    { rewrite <- data_filter_toCached. apply Permutation_map.
      rewrite <- Permutation_rev, <- sortBy_Permutation.
      apply list_filter_Permutation, Hrows. }
    split; [exact HP|]. split; [|split; [|reflexivity]].
    + intros Hall. rewrite <- HP.
      clear -Hall. induction Hall as [|c X Hc _ IH]; simpl; [reflexivity|].
      rewrite Hc. apply perm_skip, IH.
    + apply Sorted_map.
      apply (Sorted_Forall_impl
               (fun r => hasCreatedAt r = true
                         /\ CachedConsult.createdAt r
                            = Consult.created_at (CachedConsult.data r))
               (fun a b => createdAtIndexLe b a = true)).
      * rewrite <- Permutation_rev, <- sortBy_Permutation.
        apply List.Forall_forall. intros r Hr. apply filter_In in Hr as [Hr Hc].
        split; [exact Hc|].
        apply (Permutation_in _ (Permutation_sym Hrows)) in Hr.
        apply in_map_iff in Hr as (c & <- & _). reflexivity.
      * intros a b [Ha Ea] [Hb Eb] Hle.
        destruct (createdAtIndexLe_newer a b Ha Hb Hle) as (x & y & Hx & Hy & Hxy).
        exists x, y. rewrite <- Ea, <- Eb. auto.
      * apply Sorted_rev. apply sortBy_Sorted. exact createdAtIndexLe_total.
  - intros Hnd. unfold getCachedSchedule. rewrite !cacheSchedule_rows.
    split; [|reflexivity].
    assert (Hrows : Permutation (map toCachedSchedule T)
                      (Dexie.bulkPut CachedSchedule.id (map toCachedSchedule T) [])).
    { rewrite <- (app_nil_r (map toCachedSchedule T)) at 1.
      apply bulkPut_Permutation; [rewrite map_map; exact Hnd | intros r _ []]. }
    rewrite <- Hrows, map_map. simpl. rewrite map_id. reflexivity.
Qed.

Lemma cache_roundtrip_witness :
  NoDup (map Consult.id Samples.listed)
  /\ NoDup (map Schedule.id Samples.slots)
  /\ Permutation Samples.listed
       (getCachedConsults (cacheConsults Samples.listed emptyDb))
  /\ Permutation Samples.slots
       (getCachedSchedule (cacheSchedule Samples.slots emptyDb)).
Proof.
  assert (H1 : NoDup (map Consult.id Samples.listed)).
  { apply (bool_decide_unpack _). vm_compute. exact I. }
  assert (H2 : NoDup (map Schedule.id Samples.slots)).
  { apply (bool_decide_unpack _). vm_compute. exact I. }
  split; [exact H1|]. split; [exact H2|].
  destruct (cache_roundtrip Samples.listed Samples.slots emptyDb emptyDb) as [A B].
  split.
  - apply (proj1 (proj2 (A H1))). repeat constructor.
  - apply (proj1 (B H2)).
Defined.

(** C8 as stated fails: of two records with the same id the table keeps
    the last one put, so the first is not read back. *)
Lemma cache_roundtrip_same_id :
  getCachedConsults (cacheConsults Samples.sameId emptyDb)
  = [Samples.consult 7 (Some "2024-02-29T10:30:00") "Ward 4"]
  /\ In (Samples.consult 7 (Some "2024-02-27T08:00:00") "A&E") Samples.sameId
  /\ ~ In (Samples.consult 7 (Some "2024-02-27T08:00:00") "A&E")
         (getCachedConsults (cacheConsults Samples.sameId emptyDb))
  /\ ~ Permutation Samples.sameId
         (getCachedConsults (cacheConsults Samples.sameId emptyDb)).
Proof.
  assert (E : getCachedConsults (cacheConsults Samples.sameId emptyDb)
              = [Samples.consult 7 (Some "2024-02-29T10:30:00") "Ward 4"])
    by (vm_compute; reflexivity).
  rewrite E. split; [reflexivity|]. split; [left; reflexivity|]. split.
  - intros [H|[]]. discriminate H.
  - intros H. apply Permutation_length in H. discriminate H.
Qed.

(** A record without [created_at] is stored but is not in the
    [createdAt] index, so [orderBy('createdAt')] does not list it. *)
Lemma cache_roundtrip_untimed :
  getCachedConsults (cacheConsults Samples.untimed emptyDb) = [].
Proof. vm_compute. reflexivity. Qed.

(** C9. After the activation sweep a cache is there if and only if it
    was there before and its name is one of the three names of the
    current [CACHE_VERSION] (static, api, images); the caches kept are
    unchanged.  No cache with one of the three names at another version
    is left. *)
Theorem activate_keeps_current_version (cs : CacheStorage) :
  activate cs = List.filter (fun c => includes (fst c) allowedCaches) cs
  /\ allowedCaches
     = [staticName CACHE_VERSION; apiName CACHE_VERSION; imagesName CACHE_VERSION]
  /\ (forall name, In name (keys (activate cs)) <->
                   In name (keys cs) /\ In name allowedCaches)
  /\ (forall v, v <> CACHE_VERSION ->
        ~ In (staticName v) (keys (activate cs))
        /\ ~ In (apiName v) (keys (activate cs))
        /\ ~ In (imagesName v) (keys (activate cs))).
Proof.
  split; [apply activate_filter|]. split; [reflexivity|].
  split; [apply keys_activate|].
  intros v Hv. repeat split; intros H; apply keys_activate in H as [_ H]; apply Hv.
  - apply allowed_static, H.
  - apply allowed_api, H.
  - apply allowed_images, H.
Qed.

Lemma activate_keeps_current_version_witness :
  "v5" <> CACHE_VERSION
  /\ ~ In (staticName "v5") (keys (activate Samples.oldAndNew))
  /\ keys (activate Samples.oldAndNew) = [STATIC_CACHE; API_CACHE].
Proof.
  assert (Hv : "v5" <> CACHE_VERSION) by discriminate.
  split; [exact Hv|]. split; [|vm_compute; reflexivity].
  destruct (activate_keeps_current_version Samples.oldAndNew) as (_ & _ & _ & H).
  apply (proj1 (H "v5" Hv)).
Defined.

(** C10. The counters of a pass partition its snapshot: [synced +
    failed] is the number of entries [getPendingConsults] returned at
    the start, [synced] being the number of transmissions that
    fulfilled and [failed] the number that threw, one transmission per
    entry. *)
Theorem syncAllPending_counts_partition {W : Type}
    (syncFn : gmap string string -> W -> bool * W) (now : Z) (db : Db) (w : W) :
  let pending := getPendingConsults db in
  let result := fst (fst (syncAllPending syncFn now db w)) in
  synced result + failed result = Z.of_nat (length pending)
  /\ length (outcomes syncFn pending w) = length pending
  /\ synced result = count true (outcomes syncFn pending w)
  /\ failed result = count false (outcomes syncFn pending w).
Proof.
  intros pending result. subst result. rewrite syncAllPending_spec. simpl.
  fold pending. rewrite count_true_false, length_outcomes. auto.
Qed.

(* ================================================================== *)
(** * Part III: further properties of the code                          *)
(* ================================================================== *)

(** ** The cache storage *)

Module CacheStorageFacts.
Import Sw Notions SwFacts.

Lemma keys_cacheStore name key r (cs : CacheStorage) :
  keys (cacheStore name key r cs) = keys cs.
Proof.
  unfold keys. induction cs as [|[n c] cs IH]; simpl; [reflexivity|].
  destruct (String.eqb n name); simpl; [reflexivity | f_equal; exact IH].
Qed.

Lemma has_In name (cs : CacheStorage) : has name cs = true <-> In name (keys cs).
Proof.
  unfold has, keys. rewrite existsb_exists, in_map_iff. split.
  - intros ([n c] & Hin & E). apply String.eqb_eq in E. exists (n, c). auto.
  - intros ([n c] & E & Hin). exists (n, c). split; [exact Hin|].
    apply String.eqb_eq. exact E.
Qed.

Lemma keys_open name (cs : CacheStorage) :
  keys (open name cs) = if has name cs then keys cs else keys cs ++ [name].
Proof.
  unfold open. destruct (has name cs); [reflexivity|].
  unfold keys. rewrite map_app. reflexivity.
Qed.

Lemma NoDup_keys_open name (cs : CacheStorage) :
  NoDup (keys cs) -> NoDup (keys (open name cs)).
Proof.
  intros H. rewrite keys_open. destruct (has name cs) eqn:E; [exact H|].
  apply NoDup_app. split; [exact H|]. split; [|apply NoDup_singleton].
  intros x Hx Hx'. apply list_elem_of_singleton in Hx'. subst x.
  apply list_elem_of_In, has_In in Hx. congruence.
Qed.

Lemma content_None_In name (cs : CacheStorage) :
  content name cs = None -> ~ In name (keys cs).
Proof.
  intros H Hin. apply has_In in Hin. rewrite has_content, H in Hin. discriminate.
Qed.

Lemma cachesMatch_None key (cs : CacheStorage) :
  cachesMatch key cs = None <-> forall n c, In (n, c) cs -> c !! key = None.
Proof.
  induction cs as [|[n c] cs IH]; simpl.
  - split; [intros _ n c [] | reflexivity].
  - destruct (c !! key) as [r|] eqn:E.
    + split; [discriminate|]. intros H. rewrite (H n c) in E by auto. discriminate.
    + rewrite IH. split.
      * intros H n' c' [[= <- <-]|Hin]; [exact E | eauto].
      * intros H n' c' Hin. eauto.
Qed.

(** With distinct cache names and no other cache holding the key,
    [caches.match] sees what the cache [name] holds. *)
Lemma cachesMatch_single name key (cs : CacheStorage) :
  NoDup (keys cs) -> othersMiss name key cs ->
  cachesMatch key cs = cacheMatch name key cs.
Proof.
  unfold cacheMatch, othersMiss.
  induction cs as [|[n c] cs IH]; simpl; intros Hnd Ho; [reflexivity|].
  apply NoDup_cons in Hnd as [Hn Hnd].
  destruct (String.eqb_spec n name) as [->|Hne].
  - destruct (c !! key) as [r|] eqn:E; [reflexivity|].
    apply cachesMatch_None. intros n' c' Hin. apply (Ho n' c'); [auto|].
    intros ->. apply Hn. apply list_elem_of_In. apply (in_map fst _ _ Hin).
  - rewrite (Ho n c) by auto. apply IH; [exact Hnd|]. intros n' c' Hin. apply Ho. auto.
Qed.

Lemma othersMiss_open name name' key (cs : CacheStorage) :
  othersMiss name key cs -> othersMiss name key (open name' cs).
Proof.
  unfold othersMiss, open. intros H n c Hin Hne.
  destruct (has name' cs); [eauto|].
  apply in_app_or in Hin as [Hin|[[= <- <-]|[]]]; [eauto | apply lookup_empty].
Qed.

Lemma In_cacheStore name key r (cs : CacheStorage) n c :
  In (n, c) (cacheStore name key r cs) ->
  In (n, c) cs \/ (n = name /\ exists c0, In (n, c0) cs /\ c = <[key := r]> c0).
Proof.
  induction cs as [|[n0 c0] cs IH]; simpl; [tauto|].
  destruct (String.eqb_spec n0 name) as [->|Hne]; simpl.
  - intros [[= <- <-]|Hin]; [right; eauto | auto].
  - intros [[= <- <-]|Hin]; [auto|].
    destruct (IH Hin) as [H|(-> & c1 & H & ->)]; [auto | right; eauto].
Qed.

Lemma othersMiss_cacheStore name key key' r (cs : CacheStorage) :
  othersMiss name key cs -> othersMiss name key (cacheStore name key' r cs).
Proof.
  unfold othersMiss. intros H n c Hin Hne.
  apply In_cacheStore in Hin as [Hin|(-> & _)]; [eauto | contradiction].
Qed.

Lemma cacheMatch_cacheStore_other_key name name' key key' r (cs : CacheStorage) :
  key <> key' -> cacheMatch name' key (cacheStore name key' r cs) = cacheMatch name' key cs.
Proof.
  intros Hk. unfold cacheMatch.
  induction cs as [|[n c] cs IH]; simpl; [reflexivity|].
  destruct (String.eqb_spec n name) as [->|Hne]; simpl.
  - destruct (String.eqb name name'); [|reflexivity].
    apply lookup_insert_ne. congruence.
  - destruct (String.eqb n name'); [reflexivity | exact IH].
Qed.

Lemma cacheMatch_open_any name name' key (cs : CacheStorage) :
  cacheMatch name' key (open name cs) = cacheMatch name' key cs.
Proof.
  unfold cacheMatch, open. destruct (has name cs); [reflexivity|].
  induction cs as [|[n c] cs IH]; simpl.
  - destruct (String.eqb name name'); [apply lookup_empty | reflexivity].
  - destruct (String.eqb n name'); [reflexivity | exact IH].
Qed.

(** A stored entry stays stored (possibly with a newer response). *)
Lemma cacheMatch_cacheStore_kept name name' key key' r (cs : CacheStorage) :
  is_Some (cacheMatch name' key cs) ->
  is_Some (cacheMatch name' key (cacheStore name key' r cs)).
Proof.
  destruct (String.eqb_spec key key') as [->|Hne].
  - unfold cacheMatch. induction cs as [|[n c] cs IH]; simpl; [auto|].
    destruct (String.eqb_spec n name) as [->|Hn]; simpl.
    + destruct (String.eqb name name'); [|auto].
      intros _. rewrite lookup_insert_eq. eauto.
    + destruct (String.eqb n name'); auto.
  - rewrite cacheMatch_cacheStore_other_key by exact Hne. auto.
Qed.

Lemma cachesMatch_store_fresh name key r (cs : CacheStorage) :
  cachesMatch key cs = None ->
  cachesMatch key (cacheStore name key r (open name cs)) = Some r.
Proof.
  intros H. pose proof (content_open name cs) as Hc.
  assert (Hm : cachesMatch key (open name cs) = None).
  { apply cachesMatch_None. intros n c Hin. unfold open in Hin.
    destruct (has name cs).
    - rewrite cachesMatch_None in H. eauto.
    - apply in_app_or in Hin as [Hin|[[= <- <-]|[]]]; [|apply lookup_empty].
      rewrite cachesMatch_None in H. eauto. }
  revert Hc Hm. generalize (open name cs) as cs1. clear H.
  induction cs1 as [|[n c] cs1 IH]; simpl; [discriminate|].
  destruct (String.eqb_spec n name) as [->|Hne]; simpl.
  - intros _ _. rewrite lookup_insert_eq. reflexivity.
  - destruct (c !! key) eqn:E; [discriminate|]. intros Hc Hm. auto.
Qed.

Lemma keys_cachePut name key r (cs : CacheStorage) :
  keys (cachePut name key r cs) = keys cs.
Proof. unfold cachePut. destruct (storable r); [apply keys_cacheStore | reflexivity]. Qed.

Lemma othersMiss_cachePut name key key' r (cs : CacheStorage) :
  othersMiss name key cs -> othersMiss name key (cachePut name key' r cs).
Proof.
  unfold cachePut. destruct (storable r); [apply othersMiss_cacheStore | auto].
Qed.

Lemma cacheMatch_cachePut_other_key name name' key key' r (cs : CacheStorage) :
  key <> key' -> cacheMatch name' key (cachePut name key' r cs) = cacheMatch name' key cs.
Proof.
  unfold cachePut. destruct (storable r); [apply cacheMatch_cacheStore_other_key | reflexivity].
Qed.

Lemma cacheMatch_cachePut_kept name name' key key' r (cs : CacheStorage) :
  is_Some (cacheMatch name' key cs) ->
  is_Some (cacheMatch name' key (cachePut name key' r cs)).
Proof.
  unfold cachePut. destruct (storable r); [apply cacheMatch_cacheStore_kept | auto].
Qed.

Lemma cachesMatch_put_fresh name key r (cs : CacheStorage) :
  storable r = true ->
  cachesMatch key cs = None ->
  cachesMatch key (cachePut name key r (open name cs)) = Some r.
Proof. intros H. rewrite cachePut_storable by exact H. apply cachesMatch_store_fresh. Qed.

(** Opening a cache does not change what [caches.match] finds. *)
Lemma cachesMatch_open name key (cs : CacheStorage) :
  cachesMatch key (open name cs) = cachesMatch key cs.
Proof.
  unfold open. destruct (has name cs); [reflexivity|].
  induction cs as [|[n c] cs IH]; simpl.
  - rewrite lookup_empty. reflexivity.
  - destruct (c !! key); [reflexivity | exact IH].
Qed.

End CacheStorageFacts.

(** ** The fetch listener and its strategies *)

Module WorkerFacts.
Import Sw Notions SwFacts CacheStorageFacts.

Lemma cachesMatch_held key r (cs : CacheStorage) :
  cachesMatch key cs = Some r -> held key r cs.
Proof.
  induction cs as [|[n c] cs IH]; simpl; [discriminate|].
  destruct (c !! key) as [r'|] eqn:E.
  - intros [= <-]. exists n, c. split; [left; reflexivity | exact E].
  - intros H. destruct (IH H) as (n' & c' & Hin & Hk). exists n', c'.
    split; [right; exact Hin | exact Hk].
Qed.

Lemma held_cachesMatch key r (cs : CacheStorage) :
  held key r cs -> is_Some (cachesMatch key cs).
Proof.
  intros (n & c & Hin & Hk). destruct (cachesMatch key cs) eqn:E; [eauto|].
  rewrite cachesMatch_None in E. rewrite (E n c Hin) in Hk. discriminate.
Qed.

Lemma content_In name c (cs : CacheStorage) :
  content name cs = Some c -> In (name, c) cs.
Proof.
  induction cs as [|[n c0] cs IH]; simpl; [discriminate|].
  destruct (String.eqb_spec n name) as [->|Hne]; [intros [= ->]; auto | auto].
Qed.

Lemma cacheMatch_held name key r (cs : CacheStorage) :
  cacheMatch name key cs = Some r -> held key r cs.
Proof.
  unfold cacheMatch. destruct (content name cs) as [c|] eqn:E; [|discriminate].
  intros H. exists name, c. split; [apply content_In, E | exact H].
Qed.

Lemma stored_networkFirst fetch request name (cs : CacheStorage) :
  stored name (url request) cs (snd (networkFirst fetch request name cs)).
Proof.
  unfold networkFirst, stored. destruct (fetch request) as [r|e].
  - destruct (ok r); cbn [snd]; eauto.
  - destruct (cachesMatch _ _); cbn [snd]; auto.
Qed.

Lemma stored_cacheFirst fetch request name (cs : CacheStorage) :
  stored name (url request) cs (snd (cacheFirst fetch request name cs)).
Proof.
  unfold cacheFirst, stored. destruct (cachesMatch _ _); cbn [snd]; [auto|].
  destruct (fetch request) as [r|e]; [|cbn [snd]; auto].
  destruct (ok r); cbn [snd]; eauto.
Qed.

Lemma stored_staleWhileRevalidate fetch request name (cs : CacheStorage) :
  stored name (url request) cs (snd (staleWhileRevalidate fetch request name cs)).
Proof.
  unfold staleWhileRevalidate, stored.
  destruct (cacheMatch _ _ _) as [c|]; destruct (fetch request) as [r|e]; cbn [snd];
    try destruct (ok r); eauto.
Qed.

Lemma stored_navigate selfOrigin fetch request (cs : CacheStorage) :
  stored STATIC_CACHE (shellKey selfOrigin) cs (snd (navigate selfOrigin fetch request cs)).
Proof.
  unfold navigate, stored, shellKey. destruct (fetch request) as [r|e]; cbn [snd]; eauto.
Qed.

(** The fetch listener stores in one of the three caches of the current
    version, under the URL of the request or as the shell. *)
Lemma stored_onFetch selfOrigin fetch request (cs : CacheStorage) s cs' :
  onFetch selfOrigin fetch request cs = RespondWith (s, cs') ->
  exists name key, In name allowedCaches
    /\ (key = url request \/ key = shellKey selfOrigin)
    /\ stored name key cs cs'.
Proof.
  unfold onFetch.
  destruct (negb (String.eqb (origin request) selfOrigin)); [discriminate|].
  destruct (negb (String.eqb (method request) "GET")); [discriminate|].
  destruct (Js.startsWith "/api/" (pathname request)).
  { intros [= E]. exists API_CACHE, (url request).
    split; [right; left; reflexivity|]. split; [auto|].
    pose proof (stored_networkFirst fetch request API_CACHE cs) as H.
    rewrite E in H. exact H. }
  destruct (hasExtension imageExtensions (pathname request)).
  { intros [= E]. exists IMAGE_CACHE, (url request).
    split; [right; right; left; reflexivity|]. split; [auto|].
    pose proof (stored_cacheFirst fetch request IMAGE_CACHE cs) as H.
    rewrite E in H. exact H. }
  destruct (hasExtension assetExtensions (pathname request)).
  { intros [= E]. exists STATIC_CACHE, (url request).
    split; [left; reflexivity|]. split; [auto|].
    pose proof (stored_staleWhileRevalidate fetch request STATIC_CACHE cs) as H.
    rewrite E in H. exact H. }
  destruct (String.eqb (mode request) "navigate").
  { intros [= E]. exists STATIC_CACHE, (shellKey selfOrigin).
    split; [left; reflexivity|]. split; [auto|].
    pose proof (stored_navigate selfOrigin fetch request cs) as H.
    rewrite E in H. exact H. }
  intros [= E]. exists STATIC_CACHE, (url request).
  split; [left; reflexivity|]. split; [auto|].
  pose proof (stored_cacheFirst fetch request STATIC_CACHE cs) as H.
  rewrite E in H. exact H.
Qed.

Lemma stored_keys name key (cs cs' : CacheStorage) :
  stored name key cs cs' -> keys cs' = keys cs \/ keys cs' = keys (open name cs).
Proof.
  intros [->|[->|[r ->]]]; [auto | auto | right; apply keys_cachePut].
Qed.

Lemma allAllowed_open name (cs : CacheStorage) :
  In name allowedCaches -> allAllowed cs -> allAllowed (open name cs).
Proof.
  unfold allAllowed. intros Hn H. rewrite keys_open.
  destruct (has name cs); [exact H|].
  apply Forall_app. split; [exact H|]. constructor; [exact Hn | constructor].
Qed.

Lemma activate_allowed (cs : CacheStorage) : allAllowed cs -> activate cs = cs.
Proof.
  unfold allAllowed, keys. intros H. rewrite activate_filter. apply filter_all.
  intros [n c] Hin. apply includes_In.
  rewrite List.Forall_forall in H. apply H. apply (in_map fst _ _ Hin).
Qed.

Lemma allAllowed_activate (cs : CacheStorage) : allAllowed (activate cs).
Proof.
  unfold allAllowed. apply List.Forall_forall. intros n Hn.
  apply keys_activate in Hn. tauto.
Qed.

Lemma In_open name n c (cs : CacheStorage) : In (n, c) cs -> In (n, c) (open name cs).
Proof.
  unfold open. destruct (has name cs); [auto|]. intros H. apply in_or_app. auto.
Qed.

Lemma In_cacheStore_kept name key r n c (cs : CacheStorage) :
  In (n, c) cs ->
  In (n, c) (cacheStore name key r cs) \/ In (n, <[key := r]> c) (cacheStore name key r cs).
Proof.
  induction cs as [|[n0 c0] cs IH]; simpl; [tauto|].
  destruct (String.eqb n0 name); simpl.
  - intros [[= -> ->]|Hin]; auto.
  - intros [[= -> ->]|Hin]; [auto|]. destruct (IH Hin); auto.
Qed.

Lemma stored_cacheMatch_kept name key (cs cs' : CacheStorage) n k :
  stored name key cs cs' ->
  is_Some (cacheMatch n k cs) -> is_Some (cacheMatch n k cs').
Proof.
  intros [->|[->|[r ->]]] H; [exact H | rewrite cacheMatch_open_any; exact H|].
  apply cacheMatch_cachePut_kept. rewrite cacheMatch_open_any. exact H.
Qed.

Lemma stored_cacheMatch_other name key (cs cs' : CacheStorage) n k :
  stored name key cs cs' -> k <> key -> cacheMatch n k cs' = cacheMatch n k cs.
Proof.
  intros [->|[->|[r ->]]] H; [reflexivity | apply cacheMatch_open_any|].
  rewrite cacheMatch_cachePut_other_key by exact H. apply cacheMatch_open_any.
Qed.

Lemma stored_cachesMatch_kept name key (cs cs' : CacheStorage) k :
  stored name key cs cs' ->
  is_Some (cachesMatch k cs) -> is_Some (cachesMatch k cs').
Proof.
  intros Hs [r Hr]. apply cachesMatch_held in Hr as (n & c & Hin & Hk).
  destruct Hs as [->|[->|[r' ->]]].
  - apply (held_cachesMatch k r). exists n, c. auto.
  - apply (held_cachesMatch k r). exists n, c. split; [apply In_open, Hin | exact Hk].
  - unfold cachePut. destruct (storable r');
      [|apply (held_cachesMatch k r); exists n, c; split; [apply In_open, Hin | exact Hk]].
    destruct (In_cacheStore_kept name key r' n c (open name cs) (In_open name n c cs Hin))
      as [H|H].
    + apply (held_cachesMatch k r). exists n, c. auto.
    + destruct (String.eqb_spec key k) as [->|Hne].
      * apply (held_cachesMatch k r'). exists n, (<[k := r']> c).
        split; [exact H | apply lookup_insert_eq].
      * apply (held_cachesMatch k r). exists n, (<[key := r']> c).
        split; [exact H|]. rewrite lookup_insert_ne by exact Hne. exact Hk.
Qed.

End WorkerFacts.

(** ** Install *)

Module InstallFacts.
Import Sw Notions SwFacts CacheStorageFacts SwEvents WorkerFacts.




Section InstallProofs.
Variable selfOrigin : string.
Variable fetch : Request -> FetchResult.












End InstallProofs.
End InstallFacts.

(** ** Notifications *)

Module NotifyFacts.
Import SwEvents.

Lemma truthy_orElse (v : option Json) (d : string) :
  d <> "" -> truthy (Some (orElse v d)) = true.
Proof.
  intros Hd. unfold orElse. destruct v as [x|].
  - destruct (truthy (Some x)) eqn:E; [exact E|].
    simpl. apply negb_true_iff, String.eqb_neq, Hd.
  - simpl. apply negb_true_iff, String.eqb_neq, Hd.
Qed.

Lemma orElse_truthy (v : Json) (d : string) :
  truthy (Some v) = true -> orElse (Some v) d = v.
Proof. unfold orElse. intros ->. reflexivity. Qed.

End NotifyFacts.

(** ** Tables: [put] and [bulkPut] *)

Section PutFacts.
Import Notions.
Context {R : Type}.
Variable key : R -> Z.

Lemma put_keys_sorted (x : R) (rows : list R) :
  StronglySorted Z.lt (map key rows) ->
  StronglySorted Z.lt (map key (Dexie.put key x rows))
  /\ forall k, In k (map key (Dexie.put key x rows)) <-> k = key x \/ In k (map key rows).
Proof.
  induction rows as [|y rows IH]; simpl; intros Hs.
  - split; [repeat constructor | intros k; intuition auto].
  - apply StronglySorted_inv in Hs as [Hs Hy].
    destruct (key x <? key y) eqn:E1; [|destruct (key x =? key y) eqn:E2]; simpl.
    + apply Z.ltb_lt in E1. split; [|intros k; intuition auto].
      constructor; [constructor; assumption|].
      constructor; [exact E1|]. eapply Forall_impl; [exact Hy|]. simpl. intros; lia.
    + apply Z.eqb_eq in E2. split; [|intros k; rewrite E2; intuition auto].
      constructor; [exact Hs | rewrite E2; exact Hy].
    + apply Z.ltb_ge in E1. apply Z.eqb_neq in E2.
      destruct (IH Hs) as [IH1 IH2]. split; [|intros k; rewrite IH2; intuition auto].
      constructor; [exact IH1|]. apply List.Forall_forall. intros k Hk.
      apply IH2 in Hk as [->|Hk]; [lia|].
      rewrite List.Forall_forall in Hy. auto.
Qed.

Lemma get_lt (k : Z) (rows : list R) :
  Forall (fun r => k < key r) rows -> Dexie.get key k rows = None.
Proof.
  induction 1 as [|r rows Hr _ IH]; simpl; [reflexivity|].
  destruct (key r =? k) eqn:E; [apply Z.eqb_eq in E; lia | exact IH].
Qed.

(** [put] then [get]: the row put is read at its key, the other keys
    read what they read before. *)
Lemma get_put (x : R) (k : Z) (rows : list R) :
  StronglySorted Z.lt (map key rows) ->
  Dexie.get key k (Dexie.put key x rows)
  = if key x =? k then Some x else Dexie.get key k rows.
Proof.
  induction rows as [|y rows IH]; simpl; intros Hs; [reflexivity|].
  apply StronglySorted_inv in Hs as [Hs Hy].
  destruct (key x <? key y) eqn:E1; [|destruct (key x =? key y) eqn:E2]; simpl.
  - reflexivity.
  - apply Z.eqb_eq in E2. rewrite <- E2.
    destruct (key x =? k) eqn:E3; [reflexivity|]. reflexivity.
  - apply Z.ltb_ge in E1. apply Z.eqb_neq in E2.
    destruct (key y =? k) eqn:E3.
    + apply Z.eqb_eq in E3. destruct (key x =? k) eqn:E4; [|reflexivity].
      apply Z.eqb_eq in E4. lia.
    + apply IH, Hs.
Qed.

Lemma bulkPut_sorted (rs rows : list R) :
  StronglySorted Z.lt (map key rows) ->
  StronglySorted Z.lt (map key (Dexie.bulkPut key rs rows)).
Proof.
  unfold Dexie.bulkPut. revert rows. induction rs as [|x rs IH]; simpl; intros rows Hs; [exact Hs|].
  apply IH. apply put_keys_sorted, Hs.
Qed.

Lemma lastWithKey_snoc k rs x :
  lastWithKey key k (rs ++ [x]) = if key x =? k then Some x else lastWithKey key k rs.
Proof. unfold lastWithKey. rewrite rev_app_distr. reflexivity. Qed.

Lemma lastWithKey_cons k rs x :
  lastWithKey key k (x :: rs)
  = match lastWithKey key k rs with
    | Some r => Some r
    | None => if key x =? k then Some x else None
    end.
Proof.
  unfold lastWithKey. simpl. generalize (rev rs) as l. intros l.
  induction l as [|y l IH]; simpl; [reflexivity|].
  destruct (key y =? k); [reflexivity | exact IH].
Qed.

Lemma get_bulkPut (rs rows : list R) (k : Z) :
  StronglySorted Z.lt (map key rows) ->
  Dexie.get key k (Dexie.bulkPut key rs rows)
  = match lastWithKey key k rs with
    | Some r => Some r
    | None => Dexie.get key k rows
    end.
Proof.
  unfold Dexie.bulkPut. revert rows. induction rs as [|x rs IH]; simpl; intros rows Hs; [reflexivity|].
  rewrite IH by (apply put_keys_sorted, Hs). rewrite lastWithKey_cons.
  destruct (lastWithKey key k rs); [reflexivity|].
  rewrite get_put by exact Hs. destruct (key x =? k); reflexivity.
Qed.

Lemma In_get_sorted (rows : list R) (r : R) :
  StronglySorted Z.lt (map key rows) ->
  In r rows <-> Dexie.get key (key r) rows = Some r.
Proof.
  intros Hs. split; [apply get_In_sorted, Hs|].
  intros H. apply get_Some_key in H. tauto.
Qed.

Lemma lastWithKey_Some k rs r : lastWithKey key k rs = Some r -> key r = k /\ In r rs.
Proof.
  unfold lastWithKey. intros H. apply find_some in H as [Hin E].
  apply Z.eqb_eq in E. split; [exact E | apply in_rev, Hin].
Qed.

Lemma lastWithKey_None k rs : lastWithKey key k rs = None -> ~ In k (map key rs).
Proof.
  unfold lastWithKey. intros H Hin. apply in_map_iff in Hin as (r & E & Hin).
  apply in_rev in Hin. apply (find_none _ _ H) in Hin. apply Z.eqb_neq in Hin. auto.
Qed.

Lemma modify_In (f : R -> R) (k : Z) (rows : list R) (r' : R) :
  In r' (Dexie.modify key f k rows) ->
  exists r, In r rows /\ ((key r <> k /\ r' = r) \/ (key r = k /\ r' = f r)).
Proof.
  induction rows as [|x rows IH]; simpl; [tauto|].
  destruct (key x =? k) eqn:E; simpl.
  - apply Z.eqb_eq in E. intros [<-|H]; [exists x; auto|].
    destruct (IH H) as (r & Hr & Hc). exists r. auto.
  - apply Z.eqb_neq in E. intros [<-|H]; [exists x; auto|].
    destruct (IH H) as (r & Hr & Hc). exists r. auto.
Qed.

Lemma In_modify (f : R -> R) (k : Z) (rows : list R) (r : R) :
  In r rows ->
  In (if key r =? k then f r else r) (Dexie.modify key f k rows).
Proof.
  induction rows as [|x rows IH]; simpl; [tauto|].
  intros [->|H].
  - destruct (key r =? k); left; reflexivity.
  - destruct (key x =? k); right; auto.
Qed.

End PutFacts.

(** ** Passes of the sync engine *)

Module PassFacts.
Import OfflineDb Props Notions QueueFacts.

Lemma mark_frame (db : Db) (eo : Entry.t * bool) :
  map Entry.id (offlineConsults (mark db eo)) = map Entry.id (offlineConsults db)
  /\ offlineConsultsNextId (mark db eo) = offlineConsultsNextId db
  /\ cachedConsults (mark db eo) = cachedConsults db
  /\ cachedSchedule (mark db eo) = cachedSchedule db.
Proof.
  unfold mark, markConsultSynced, markConsultFailed.
  destruct (snd eo).
  - cbn [setOfflineConsults offlineConsults offlineConsultsNextId cachedConsults cachedSchedule].
    split; [apply modify_keys; reflexivity | auto].
  - destruct (Dexie.get _ _ _); [|auto].
    cbn [setOfflineConsults offlineConsults offlineConsultsNextId cachedConsults cachedSchedule].
    split; [apply modify_keys; reflexivity | auto].
Qed.

Lemma fold_mark_frame (eos : list (Entry.t * bool)) (db : Db) :
  map Entry.id (offlineConsults (fold_left mark eos db)) = map Entry.id (offlineConsults db)
  /\ offlineConsultsNextId (fold_left mark eos db) = offlineConsultsNextId db
  /\ cachedConsults (fold_left mark eos db) = cachedConsults db
  /\ cachedSchedule (fold_left mark eos db) = cachedSchedule db.
Proof.
  revert db. induction eos as [|eo eos IH]; intros db; simpl; [auto|].
  destruct (IH (mark db eo)) as (-> & -> & -> & ->). apply mark_frame.
Qed.

Lemma cleanup_frame (now : Z) (db : Db) :
  offlineConsultsNextId (snd (cleanupSyncedConsults now db)) = offlineConsultsNextId db
  /\ cachedConsults (snd (cleanupSyncedConsults now db)) = cachedConsults db
  /\ cachedSchedule (snd (cleanupSyncedConsults now db)) = cachedSchedule db.
Proof. unfold cleanupSyncedConsults. simpl. auto. Qed.

Lemma wfDb_ids (db db' : Db) :
  map Entry.id (offlineConsults db') = map Entry.id (offlineConsults db) ->
  offlineConsultsNextId db' = offlineConsultsNextId db ->
  wfDb db -> wfDb db'.
Proof.
  unfold wfDb. intros E1 E2 [Hs Hlt]. rewrite E1, E2. split; [exact Hs|].
  apply (Forall_map Entry.id (fun k => k < offlineConsultsNextId db)). rewrite E1.
  apply (Forall_map Entry.id (fun k => k < offlineConsultsNextId db)). exact Hlt.
Qed.

Lemma wfDb_cleanup (now : Z) (db : Db) :
  wfDb db -> wfDb (snd (cleanupSyncedConsults now db)).
Proof.
  unfold wfDb. intros [Hs Hlt]. rewrite cleanup_rows.
  destruct (cleanup_frame now db) as (-> & _). split.
  - apply (StronglySorted_filter_keys Entry.id), Hs.
  - apply List.Forall_forall. intros e He. apply filter_In in He as [He _].
    rewrite List.Forall_forall in Hlt. auto.
Qed.

(** After a pass no entry is 'pending'. *)
Lemma pass_no_pending {W : Type} (syncFn : gmap string string -> W -> bool * W)
    (now : Z) (db : Db) (w : W) :
  getPendingConsults (snd (fst (syncAllPending syncFn now db w))) = [].
Proof.
  rewrite syncAllPending_spec. cbn [fst snd].
  set (pending := getPendingConsults db). set (outs := outcomes syncFn pending w).
  assert (Hnp : Forall (fun r => Entry.status r <> Entry.pending)
                  (offlineConsults
                     (snd (cleanupSyncedConsults now
                             (fold_left mark (combine pending outs) db))))).
  { rewrite cleanup_rows. apply List.Forall_forall. intros r Hr.
    apply filter_In in Hr as [Hr _]. revert r Hr. apply List.Forall_forall.
    apply fold_mark_no_pending. rewrite map_fst_combine by apply length_outcomes.
    apply List.Forall_forall. intros r Hr Hp. apply in_map.
    apply filter_In. split; [exact Hr|]. apply status_eqb_eq. exact Hp. }
  unfold getPendingConsults.
  induction Hnp as [|r rows Hr _ IH]; simpl; [reflexivity|].
  destruct (Entry.status_eqb (Entry.status r) Entry.pending) eqn:E; [|exact IH].
  apply status_eqb_eq in E. contradiction.
Qed.

Lemma orZero_id (n : Z) : orZero n = n.
Proof. unfold orZero. destruct (n =? 0) eqn:E; [apply Z.eqb_eq in E; auto | reflexivity]. Qed.

Lemma markedRow_same (ok : bool) (e : Entry.t) :
  sameSubmission e (markedRow ok e)
  /\ Entry.attempts e <= Entry.attempts (markedRow ok e) <= Entry.attempts e + 1
  /\ Entry.status (markedRow ok e) <> Entry.pending.
Proof.
  unfold sameSubmission, markedRow, setStatus. destruct ok; simpl.
  - repeat split; try lia. discriminate.
  - rewrite orZero_id. repeat split; try lia. discriminate.
Qed.

End PassFacts.

(** ** The order of strings *)

Module OrderFacts.

Lemma ascii_compare_trans (a b c : ascii) :
  Ascii.compare a b = Lt -> Ascii.compare b c <> Gt -> Ascii.compare a c = Lt.
Proof.
  unfold Ascii.compare. rewrite !N.compare_lt_iff, N.compare_gt_iff. lia.
Qed.

Lemma ascii_compare_refl (a : ascii) : Ascii.compare a a = Eq.
Proof. unfold Ascii.compare. apply N.compare_refl. Qed.

(** The order of JavaScript's [<] on strings is transitive. *)
Lemma compare_lt_le_trans (a b c : string) :
  String.compare a b = Lt -> String.compare b c <> Gt -> String.compare a c = Lt.
Proof.
  revert b c. induction a as [|x a IH]; intros [|y b] [|z c]; simpl; try congruence.
  destruct (Ascii.compare x y) eqn:Exy; try discriminate.
  - apply Ascii.compare_eq_iff in Exy. subst y.
    destruct (Ascii.compare x z) eqn:Exz; try congruence. apply IH.
  - intros _ H.
    destruct (Ascii.compare y z) eqn:Eyz.
    + apply Ascii.compare_eq_iff in Eyz. subst z. rewrite Exy. reflexivity.
    + rewrite (ascii_compare_trans x y z Exy) by congruence. reflexivity.
    + congruence.
Qed.

Lemma str_lt_le_trans (a b c : string) :
  Js.str_lt a b = true -> Js.str_le b c = true -> Js.str_lt a c = true.
Proof.
  unfold Js.str_lt, Js.str_le, String.ltb, String.leb. intros H1 H2.
  rewrite (compare_lt_le_trans a b c); [reflexivity | |].
  - destruct (String.compare a b); congruence.
  - destruct (String.compare b c); congruence.
Qed.

End OrderFacts.

(** ** The queue *)

Module StoreFacts.
Import OfflineDb Props Notions QueueFacts PassFacts OrderFacts.

Lemma filter_length_split {A : Type} (p : A -> bool) (l : list A) :
  length l = (length (List.filter p l) + length (List.filter (fun x => negb (p x)) l))%nat.
Proof.
  induction l as [|x l IH]; simpl; [reflexivity|].
  destruct (p x); simpl; lia.
Qed.

Lemma filter_none {A : Type} (p : A -> bool) (l : list A) :
  (forall x, In x l -> p x = false) -> List.filter p l = [].
Proof.
  induction l as [|x l IH]; simpl; intros H; [reflexivity|].
  rewrite (H x) by auto. apply IH. auto.
Qed.

Lemma filter_ext_list {A : Type} (p q : A -> bool) (l : list A) :
  (forall x, In x l -> p x = q x) -> List.filter p l = List.filter q l.
Proof.
  induction l as [|x l IH]; simpl; intros H; [reflexivity|].
  rewrite (H x) by auto. rewrite IH by auto. reflexivity.
Qed.

Lemma cleanup_eq (now : Z) (db : Db) :
  cleanupSyncedConsults now db
  = (Z.of_nat (length (List.filter (expired now) (offlineConsults db))),
     setOfflineConsults
       (List.filter (fun e => negb (expired now e)) (offlineConsults db)) db).
Proof. reflexivity. Qed.

Lemma setOfflineConsults_same (db : Db) : setOfflineConsults (offlineConsults db) db = db.
Proof. destruct db. reflexivity. Qed.

Lemma cleanup_count (now : Z) (db : Db) :
  fst (cleanupSyncedConsults now db)
  = Z.of_nat (length (List.filter (expired now) (offlineConsults db))).
Proof. reflexivity. Qed.

Lemma expired_mono (now1 now2 : Z) (e : Entry.t) :
  7 * 86400000 <= now1 -> now1 <= now2 -> now2 <= JsDate.maxFourDigitTime ->
  expired now1 e = true -> expired now2 e = true.
Proof.
  unfold expired. intros H1 H2 H3 H. apply andb_true_iff in H as [Hs Hlt].
  rewrite Hs. simpl. apply (str_lt_le_trans _ _ _ Hlt).
  rewrite DateFacts.toISOString_le by lia. apply Z.leb_le. lia.
Qed.

Lemma failTimes_other (n : nat) (id k : Z) (db : Db) :
  k <> id ->
  Dexie.get Entry.id k (offlineConsults (failTimes n id db))
  = Dexie.get Entry.id k (offlineConsults db).
Proof.
  intros Hk. induction n as [|n IH]; simpl; [reflexivity|].
  unfold markConsultFailed. destruct (Dexie.get Entry.id id _); [|exact IH].
  cbn [setOfflineConsults offlineConsults].
  rewrite get_modify_other by (auto; reflexivity). exact IH.
Qed.

(** On a store as Dexie keeps it, [saveOfflineConsult] appends its
    entry. *)
Lemma saveOfflineConsult_rows (now1 now2 : Z) (rnd : string)
    (consultData : gmap string string) (db : Db) :
  wfDb db ->
  offlineConsults (snd (saveOfflineConsult now1 now2 rnd consultData db))
  = offlineConsults db
    ++ [Entry.Make (offlineConsultsNextId db)
          (snd (fst (saveOfflineConsult now1 now2 rnd consultData db)))
          (<["client_id" := snd (fst (saveOfflineConsult now1 now2 rnd consultData db))]>
             consultData)
          Entry.pending (JsDate.toISOString now2) 0].
Proof.
  intros [_ Hlt]. unfold saveOfflineConsult, Dexie.add. cbn [fst snd offlineConsults].
  apply (put_last Entry.id). exact Hlt.
Qed.

Lemma wfDb_saveOfflineConsult (now1 now2 : Z) (rnd : string)
    (consultData : gmap string string) (db : Db) :
  wfDb db -> wfDb (snd (saveOfflineConsult now1 now2 rnd consultData db)).
Proof.
  intros Hwf. unfold wfDb. rewrite saveOfflineConsult_rows by exact Hwf.
  destruct Hwf as [Hs Hlt]. unfold saveOfflineConsult at 3.
  cbn [snd offlineConsultsNextId]. split.
  - rewrite map_app. apply StronglySorted_snoc; [exact Hs|].
    apply Forall_map. exact Hlt.
  - apply Forall_app. split.
    + eapply List.Forall_impl; [|exact Hlt]. simpl. intros; lia.
    + repeat constructor. simpl. lia.
Qed.

Lemma pending_cleanup (now : Z) (db : Db) :
  getPendingConsults (snd (cleanupSyncedConsults now db)) = getPendingConsults db.
Proof.
  unfold getPendingConsults. rewrite cleanup_rows. rewrite filter_filter_and.
  apply filter_ext_list. intros e _. unfold expired.
  destruct (Entry.status e); simpl; rewrite ?andb_false_r; reflexivity.
Qed.

Lemma str_le_trans (a b c : string) :
  Js.str_le a b = true -> Js.str_le b c = true -> Js.str_le a c = true.
Proof.
  unfold Js.str_le, String.leb. intros H1 H2.
  destruct (String.compare a b) eqn:E1; [| |discriminate].
  - apply String.compare_eq_iff in E1. subst b. exact H2.
  - rewrite (compare_lt_le_trans a b c E1); [reflexivity|].
    destruct (String.compare b c); congruence.
Qed.

End StoreFacts.

(** ** What the caches read back *)

Module ViewFacts.
Import OfflineDb Props Notions CacheFacts.

Lemma lastWithKey_map {A B : Type} (keyA : A -> Z) (keyB : B -> Z) (f : A -> B)
    (k : Z) (l : list A) :
  (forall a, keyB (f a) = keyA a) ->
  lastWithKey keyB k (map f l) = option_map f (lastWithKey keyA k l).
Proof.
  intros H. unfold lastWithKey. rewrite <- map_rev. generalize (rev l) as l'.
  intros l'. induction l' as [|a l' IH]; simpl; [reflexivity|].
  rewrite H. destruct (keyA a =? k); [reflexivity | exact IH].
Qed.

Lemma StronglySorted_lt_NoDup (l : list Z) : StronglySorted Z.lt l -> NoDup l.
Proof.
  induction 1 as [|x l Hs IH Hx]; [constructor|].
  apply NoDup_cons. split; [|exact IH].
  intros Hin. apply list_elem_of_In in Hin. rewrite List.Forall_forall in Hx.
  specialize (Hx x Hin). lia.
Qed.

(** The rows of [cachedConsults] after [cacheConsults(X)]: keys
    ascending, and a row is there exactly when it is made of the last
    record of [X] with its id. *)
Lemma cachedConsults_rows_spec (X : list Consult.t) (db : Db) :
  let rows := cachedConsults (cacheConsults X db) in
  StronglySorted Z.lt (map CachedConsult.id rows)
  /\ forall r, In r rows <->
       exists c, r = toCachedConsult c
                 /\ lastWithKey Consult.id (Consult.id c) X = Some c.
Proof.
  intros rows. unfold rows. rewrite cacheConsults_rows.
  assert (Hs : StronglySorted Z.lt
                 (map CachedConsult.id
                    (Dexie.bulkPut CachedConsult.id (map toCachedConsult X) [])))
    by (apply bulkPut_sorted; constructor).
  split; [exact Hs|]. intros r.
  rewrite (In_get_sorted CachedConsult.id _ r Hs).
  rewrite get_bulkPut by constructor.
  rewrite (lastWithKey_map Consult.id CachedConsult.id toCachedConsult) by reflexivity.
  destruct (lastWithKey Consult.id (CachedConsult.id r) X) as [c|] eqn:E; simpl.
  - split.
    + intros [= <-]. exists c. split; [reflexivity | exact E].
    + intros (c' & -> & Hc'). simpl in E. congruence.
  - split; [discriminate|]. intros (c' & -> & Hc'). simpl in E. congruence.
Qed.

Lemma cachedSchedule_rows_spec (T : list Schedule.t) (db : Db) :
  let rows := cachedSchedule (cacheSchedule T db) in
  StronglySorted Z.lt (map CachedSchedule.id rows)
  /\ forall r, In r rows <->
       exists s, r = toCachedSchedule s
                 /\ lastWithKey Schedule.id (Schedule.id s) T = Some s.
Proof.
  intros rows. unfold rows. rewrite cacheSchedule_rows.
  assert (Hs : StronglySorted Z.lt
                 (map CachedSchedule.id
                    (Dexie.bulkPut CachedSchedule.id (map toCachedSchedule T) [])))
    by (apply bulkPut_sorted; constructor).
  split; [exact Hs|]. intros r.
  rewrite (In_get_sorted CachedSchedule.id _ r Hs).
  rewrite get_bulkPut by constructor.
  rewrite (lastWithKey_map Schedule.id CachedSchedule.id toCachedSchedule) by reflexivity.
  destruct (lastWithKey Schedule.id (CachedSchedule.id r) T) as [c|] eqn:E; simpl.
  - split.
    + intros [= <-]. exists c. split; [reflexivity | exact E].
    + intros (c' & -> & Hc'). simpl in E. congruence.
  - split; [discriminate|]. intros (c' & -> & Hc'). simpl in E. congruence.
Qed.

(** What [getCachedConsults] lists: the data of the rows that are in
    the [createdAt] index, newest first. *)
Lemma getCachedConsults_sorted (db : Db) :
  Forall (fun r => CachedConsult.createdAt r = Consult.created_at (CachedConsult.data r))
    (cachedConsults db) ->
  Sorted newerOrSame (getCachedConsults db).
Proof.
  intros Hrows. unfold getCachedConsults, orderByCreatedAt.
  apply Sorted_map.
  apply (Sorted_Forall_impl
           (fun r => hasCreatedAt r = true
                     /\ CachedConsult.createdAt r
                        = Consult.created_at (CachedConsult.data r))
           (fun a b => createdAtIndexLe b a = true)).
  - rewrite <- Permutation_rev, <- sortBy_Permutation.
    apply List.Forall_forall. intros r Hr. apply filter_In in Hr as [Hr Hc].
    split; [exact Hc|]. rewrite List.Forall_forall in Hrows. auto.
  - intros a b [Ha Ea] [Hb Eb] Hle.
    destruct (createdAtIndexLe_newer a b Ha Hb Hle) as (x & y & Hx & Hy & Hxy).
    exists x, y. rewrite <- Ea, <- Eb. auto.
  - apply Sorted_rev. apply sortBy_Sorted. exact createdAtIndexLe_total.
Qed.

Lemma In_getCachedConsults (db : Db) (c : Consult.t) :
  In c (getCachedConsults db) <->
  exists r, In r (cachedConsults db) /\ hasCreatedAt r = true /\ CachedConsult.data r = c.
Proof.
  unfold getCachedConsults, orderByCreatedAt. rewrite in_map_iff. split.
  - intros (r & E & Hr). exists r. apply in_rev in Hr.
    apply (Permutation_in _ (Permutation_sym (sortBy_Permutation _ _))) in Hr.
    apply filter_In in Hr. tauto.
  - intros (r & Hr & Hc & E). exists r. split; [exact E|]. apply in_rev.
    rewrite rev_involutive.
    apply (Permutation_in _ (sortBy_Permutation _ _)). apply filter_In. auto.
Qed.

Lemma getCachedConsults_ids (db : Db) :
  Forall (fun r => Consult.id (CachedConsult.data r) = CachedConsult.id r)
    (cachedConsults db) ->
  StronglySorted Z.lt (map CachedConsult.id (cachedConsults db)) ->
  NoDup (map Consult.id (getCachedConsults db)).
Proof.
  intros Hid Hs. unfold getCachedConsults, orderByCreatedAt.
  assert (P : Permutation
                (map Consult.id
                   (map CachedConsult.data
                      (rev (Dexie.sortBy createdAtIndexLe
                              (List.filter hasCreatedAt (cachedConsults db))))))
                (map CachedConsult.id (List.filter hasCreatedAt (cachedConsults db)))).
  { rewrite <- Permutation_rev, <- sortBy_Permutation. rewrite map_map.
    assert (E : map (fun x => Consult.id (CachedConsult.data x))
                  (List.filter hasCreatedAt (cachedConsults db))
                = map CachedConsult.id (List.filter hasCreatedAt (cachedConsults db))).
    { apply map_ext_in. intros r Hr. apply filter_In in Hr as [Hr _].
      rewrite List.Forall_forall in Hid. auto. }
    rewrite E. reflexivity. }
  rewrite P. apply StronglySorted_lt_NoDup.
  apply (StronglySorted_filter_keys CachedConsult.id), Hs.
Qed.

(** The list read back after [cacheConsults(X)], whatever the store
    held. *)
Lemma cached_view (X : list Consult.t) (db : Db) :
  let Y := getCachedConsults (cacheConsults X db) in
  (forall c, In c Y <->
             hasTimestamp c = true
             /\ lastWithKey Consult.id (Consult.id c) X = Some c)
  /\ NoDup (map Consult.id Y)
  /\ Sorted newerOrSame Y.
Proof.
  intros Y. destruct (cachedConsults_rows_spec X db) as [Hs Hrows].
  split; [|split].
  - intros c. unfold Y. rewrite In_getCachedConsults. split.
    + intros (r & Hr & Hc & <-). apply Hrows in Hr as (c & -> & Hl). auto.
    + intros [Hc Hl]. exists (toCachedConsult c).
      split; [apply Hrows; eauto | auto].
  - apply getCachedConsults_ids; [|exact Hs].
    apply List.Forall_forall. intros r Hr. apply Hrows in Hr as (c & -> & _). reflexivity.
  - apply getCachedConsults_sorted.
    apply List.Forall_forall. intros r Hr. apply Hrows in Hr as (c & -> & _). reflexivity.
Qed.

Lemma cached_view_length (X : list Consult.t) (db : Db) :
  (length (getCachedConsults (cacheConsults X db)) <= length X)%nat.
Proof.
  destruct (cached_view X db) as (Hin & Hnd & _).
  rewrite <- (length_map Consult.id (getCachedConsults _)), <- (length_map Consult.id X).
  apply NoDup_incl_length; [apply NoDup_ListNoDup; exact Hnd|].
  intros k Hk. apply in_map_iff in Hk as (c & <- & Hk).
  apply Hin in Hk as [_ Hk]. apply (lastWithKey_Some Consult.id) in Hk.
  apply in_map. tauto.
Qed.

Lemma cached_view_independent (X : list Consult.t) (db db' : Db) :
  getCachedConsults (cacheConsults X db) = getCachedConsults (cacheConsults X db').
Proof. unfold getCachedConsults. rewrite !cacheConsults_rows. reflexivity. Qed.

Lemma cached_view_Permutation (X : list Consult.t) (db : Db) :
  NoDup (map Consult.id X) -> Forall (fun c => hasTimestamp c = true) X ->
  Permutation X (getCachedConsults (cacheConsults X db)).
Proof.
  intros Hnd Hall. unfold getCachedConsults, orderByCreatedAt.
  rewrite cacheConsults_rows.
  rewrite <- Permutation_rev, <- sortBy_Permutation.
  rewrite <- (list_filter_Permutation hasCreatedAt _ _ (cached_rows_Permutation X Hnd)).
  rewrite data_filter_toCached. rewrite filter_all; [reflexivity|].
  rewrite List.Forall_forall in Hall. exact Hall.
Qed.

(** The schedule read back after [cacheSchedule(T)]. *)
Lemma cachedSchedule_view (T : list Schedule.t) (db : Db) :
  let Y := getCachedSchedule (cacheSchedule T db) in
  StronglySorted Z.lt (map Schedule.id Y)
  /\ forall s, In s Y <-> lastWithKey Schedule.id (Schedule.id s) T = Some s.
Proof.
  intros Y. destruct (cachedSchedule_rows_spec T db) as [Hs Hrows].
  assert (Hin : forall s, In s Y <-> lastWithKey Schedule.id (Schedule.id s) T = Some s).
  { intros s. unfold Y, getCachedSchedule. rewrite in_map_iff. split.
    - intros (r & <- & Hr). apply Hrows in Hr as (s' & -> & Hl). exact Hl.
    - intros Hl. exists (toCachedSchedule s). split; [reflexivity|].
      apply Hrows. eauto. }
  assert (Hids : map Schedule.id Y
                 = map CachedSchedule.id (cachedSchedule (cacheSchedule T db))).
  { unfold Y, getCachedSchedule. rewrite map_map. apply map_ext_in.
    intros r Hr. apply Hrows in Hr as (s & -> & _). reflexivity. }
  split; [rewrite Hids; exact Hs | exact Hin].
Qed.

End ViewFacts.

(** ** The provider and the pages *)

Module UiFacts.
Import OfflineDb Props Notions QueueFacts PassFacts OrderFacts StoreFacts CacheFacts ViewFacts Ui.

Lemma In_put {R : Type} (key : R -> Z) (x : R) (rows : list R) :
  In x (Dexie.put key x rows).
Proof.
  induction rows as [|y rows IH]; simpl; [auto|].
  destruct (key x <? key y); [left; reflexivity|].
  destruct (key x =? key y); [left; reflexivity | right; exact IH].
Qed.

Lemma newerOrSame_trans (a b c : Consult.t) :
  newerOrSame a b -> newerOrSame b c -> newerOrSame a c.
Proof.
  intros (x & y & Hx & Hy & H1) (y' & z & Hy' & Hz & H2).
  exists x, z. split; [exact Hx|]. split; [exact Hz|].
  rewrite Hy in Hy'. injection Hy' as <-. apply (str_le_trans z y x H2 H1).
Qed.

Lemma firstn_skipn_sorted {A : Type} (R : A -> A -> Prop) (n : nat) (l : list A) :
  StronglySorted R l ->
  forall a b, In a (firstn n l) -> In b (skipn n l) -> R a b.
Proof.
  intros Hs. revert n. induction Hs as [|x l Hs IH Hx]; intros n a b Ha Hb.
  - rewrite firstn_nil in Ha. destruct Ha.
  - destruct n as [|n]; simpl in *; [destruct Ha|].
    destruct Ha as [<-|Ha]; [|eauto].
    rewrite List.Forall_forall in Hx. apply Hx.
    rewrite <- (firstn_skipn n l). apply in_or_app. right. exact Hb.
Qed.

End UiFacts.

(** ** The provider *)

Module ProviderFacts.
Import OfflineDb Props Notions QueueFacts PassFacts Ui ProviderNotions.

Section Machine.
Context {W : Type}.
Variable createPublic : gmap string string -> W -> bool * W.

Lemma run_events_app (evs evs' : list Event) (p : Provider W) :
  run createPublic (evs ++ evs') p = run createPublic evs' (run createPublic evs p).
Proof. unfold run. apply fold_left_app. Qed.

Lemma run_events_cons (ev : Event) (evs : list Event) (p : Provider W) :
  run createPublic (ev :: evs) p = run createPublic evs (step createPublic ev p).
Proof. reflexivity. Qed.

Lemma resumePass_idle (i : nat) (now : Z) (p : Provider W) :
  running p = [] -> resumePass createPublic i now p = p.
Proof. unfold resumePass. intros ->. reflexivity. Qed.

Lemma markConsultFailed_get_update (id : Z) (db : Db) :
  markConsultFailed id db
  = match Dexie.get Entry.id id (offlineConsults db) with
    | Some row => updateFailed id row db
    | None => db
    end.
Proof. reflexivity. Qed.

(** One pass in flight, resumed from the head of its loop until the
    cleanup has been made: the store and the server are then as
    [syncLoop] and [cleanupSyncedConsults] leave them. *)
Lemma loop_alone (now : Z) (pending : list Entry.t) :
  forall (result : SyncResult) (db : Db) (w : W) (st : OnlineStatus)
         (ts : list Toast) (c : bool),
  exists k, (k <= 3 * length pending)%nat
    /\ run createPublic (repeat (Resume 0 now) k)
         (let '(pass, db1, w1) := iterate createPublic now pending result db w in
          MakeProvider (MakeApp st ts db1 w1) c [pass])
       = (let '(db2, w2, s, f) :=
            syncLoop createPublic pending db w (synced result) (failed result) in
          MakeProvider (MakeApp st ts (snd (cleanupSyncedConsults now db2)) w2) c
            [MakePass [] (MakeResult s f) Cleaned]).
Proof.
  induction pending as [|entry pending IH]; intros result db w st ts c.
  - exists 0%nat. split; [lia|]. destruct result. reflexivity.
  - cbn [iterate syncLoop]. destruct (createPublic (Entry.data entry) w) as [ok w'] eqn:Hs.
    destruct ok.
    + destruct (IH (MakeResult (synced result + 1) (failed result))
                   (markConsultSynced (Entry.id entry) db) w' st ts c) as (k & Hk & E).
      exists (S (S k)). split; [simpl length; lia|].
      cbn [repeat]. rewrite !run_events_cons. exact E.
    + destruct (IH (MakeResult (synced result) (failed result + 1))
                   (markConsultFailed (Entry.id entry) db) w' st ts c) as (k & Hk & E).
      exists (S (S (S k))). split; [simpl length; lia|].
      cbn [repeat]. rewrite !run_events_cons.
      rewrite markConsultFailed_get_update in E |- *.
      cbn [step resumePass running lookup list_lookup point current store world
           resume rest counts status toasts].
      destruct (Dexie.get Entry.id (Entry.id entry) (offlineConsults db)) as [row|];
        exact E.
Qed.

Lemma attemptSync_alone (now : Z) (p : Provider W) :
  captured p = false -> running p = [] ->
  exists k, (k <= 3 * length (getPendingConsults (store (current p))) + 2)%nat
    /\ run createPublic (repeat (Resume 0 now) k) (attemptSync p)
       = MakeProvider (afterPass createPublic now p) false [].
Proof.
  intros Hc Hr.
  destruct (loop_alone now (getPendingConsults (store (current p))) (MakeResult 0 0)
              (store (current p)) (world (current p))
              (MakeStatus (isOnline (status (current p)))
                 (pendingCount (status (current p))) true)
              (toasts (current p)) false) as (k & Hk & E).
  exists (S (k + 1)). split; [lia|].
  unfold attemptSync. rewrite Hc, Hr. cbn [repeat app]. rewrite run_events_cons.
  cbn [step resumePass running lookup list_lookup point current store world resume
       rest counts status toasts].
  rewrite repeat_app, run_events_app.
  destruct (iterate createPublic now (getPendingConsults (store (current p)))
              (MakeResult 0 0) (store (current p)) (world (current p)))
    as [[pass db1] w1] eqn:Hi.
  cbn [insert list_insert captured]. rewrite E. clear E.
  pose proof (pass_no_pending createPublic now (store (current p)) (world (current p)))
    as Hnp.
  unfold afterPass, syncAllPending in *. cbn [synced failed] in *.
  destruct (syncLoop createPublic (getPendingConsults (store (current p)))
              (store (current p)) (world (current p)) 0 0) as [[[db2 w2] sy] fa].
  destruct (cleanupSyncedConsults now db2) as [n db3]. cbn [fst snd] in *.
  cbn [repeat run fold_left step resumePass running lookup list_lookup point current
       counts captured delete]. unfold finish, refreshPendingCount, syncToasts.
  cbn [status toasts store world isOnline syncing pendingCount synced failed].
  rewrite Hnp. reflexivity.
Qed.

Lemma attemptSync_alone_enough (now : Z) (p : Provider W) (n : nat) :
  captured p = false -> running p = [] ->
  (3 * length (getPendingConsults (store (current p))) + 2 <= n)%nat ->
  run createPublic (repeat (Resume 0 now) n) (attemptSync p)
  = MakeProvider (afterPass createPublic now p) false [].
Proof.
  intros Hc Hr Hn. destruct (attemptSync_alone now p Hc Hr) as (k & Hk & E).
  replace n with (k + (n - k))%nat by lia. rewrite repeat_app, run_events_app, E.
  generalize (n - k)%nat as m. induction m as [|m IH]; [reflexivity|].
  cbn [repeat]. rewrite run_events_cons. exact IH.
Qed.

Lemma agree_refl (p : Provider W) : agree p p.
Proof. repeat split. Qed.

Lemma agree_render (q p : Provider W) : agree q p -> settled p -> agree (render q) p.
Proof.
  intros (H1 & H2 & H3 & H4 & H5 & H6 & H7) Hs. unfold render.
  destruct (Bool.eqb _ _); [repeat split; assumption|].
  unfold agree. cbn [current running refreshPendingCount status toasts store world
                     isOnline syncing pendingCount].
  repeat split; try assumption.
  intros Hr. rewrite H5. symmetry. apply Hs, Hr.
Qed.

Lemma agree_resumePass (i : nat) (now : Z) (q p : Provider W) :
  agree q p -> settled p ->
  agree (resumePass createPublic i now q) (resumePass createPublic i now p)
  /\ settled (resumePass createPublic i now p).
Proof.
  intros (H1 & H2 & H3 & H4 & H5 & H6 & H7) Hs. unfold resumePass. rewrite H1.
  destruct (running p !! i) as [pass|] eqn:Hi;
    [|split; [repeat split; assumption | exact Hs]].
  assert (Hins : forall pass', <[i := pass']> (running p) <> []).
  { intros pass' E. apply (f_equal length) in E. rewrite length_insert in E.
    apply lookup_lt_Some in Hi. simpl in E. lia. }
  assert (G : forall pass0,
            agree (let '(pass', db', w') :=
                     resume createPublic now pass0 (store (current q)) (world (current q)) in
                   MakeProvider (MakeApp (status (current q)) (toasts (current q)) db' w')
                     (captured q) (<[i := pass']> (running p)))
                  (let '(pass', db', w') :=
                     resume createPublic now pass0 (store (current p)) (world (current p)) in
                   MakeProvider (MakeApp (status (current p)) (toasts (current p)) db' w')
                     (captured p) (<[i := pass']> (running p)))
            /\ settled (let '(pass', db', w') :=
                     resume createPublic now pass0 (store (current p)) (world (current p)) in
                   MakeProvider (MakeApp (status (current p)) (toasts (current p)) db' w')
                     (captured p) (<[i := pass']> (running p)))).
  { intros pass0. rewrite H5, H6.
    destruct (resume createPublic now pass0 (store (current p)) (world (current p)))
      as [[pass' db'] w'].
    split.
    - unfold agree. cbn [current running status toasts store world].
      repeat split; try assumption. intros E. destruct (Hins _ E).
    - intros E. destruct (Hins _ E). }
  destruct (point pass) eqn:Hp; try exact (G pass).
  split.
  - unfold agree, finish, refreshPendingCount.
    cbn [current running status toasts store world isOnline syncing pendingCount].
    rewrite H2, H4, H5, H6. repeat split.
  - intros _. reflexivity.
Qed.

(** Renders do not change what a pass does: a schedule of renders and
    continuations leaves what its continuations alone leave, but for
    the captured [syncing]. *)
Lemma agree_run (now : Z) (evs : list Event) :
  rendersAndResumes now evs ->
  forall q p : Provider W,
  agree q p -> settled p ->
  agree (run createPublic evs q)
        (run createPublic (repeat (Resume 0 now) (resumptions evs)) p)
  /\ settled (run createPublic (repeat (Resume 0 now) (resumptions evs)) p).
Proof.
  induction 1 as [|ev evs Hev _ IH]; intros q p Ha Hs; [split; assumption|].
  rewrite run_events_cons. destruct Hev as [-> | ->].
  - apply IH; [apply agree_render; assumption | exact Hs].
  - change (resumptions (Resume 0 now :: evs)) with (S (resumptions evs)).
    cbn [repeat]. rewrite run_events_cons.
    destruct (agree_resumePass 0 now q p Ha Hs) as [Ha' Hs'].
    apply IH; assumption.
Qed.

Lemma agree_current (q : Provider W) (a : App W) (c : bool) :
  agree q (MakeProvider a c []) -> current q = a /\ running q = [].
Proof.
  intros (H1 & H2 & H3 & H4 & H5 & H6 & H7). cbn [current running] in *.
  split; [|exact H1]. specialize (H7 eq_refl).
  destruct (current q) as [[o n s] t d w], a as [[o' n' s'] t' d' w'].
  cbn in *. congruence.
Qed.

(** The pass of a call of [attemptSync], with nothing else in flight
    and renders at any time. *)
Lemma attemptSync_pass (now : Z) (p : Provider W) (evs : list Event) :
  captured p = false -> running p = [] ->
  rendersAndResumes now evs ->
  (3 * length (getPendingConsults (store (current p))) + 2 <= resumptions evs)%nat ->
  current (run createPublic evs (attemptSync p)) = afterPass createPublic now p
  /\ running (run createPublic evs (attemptSync p)) = [].
Proof.
  intros Hc Hr Hevs Hn.
  assert (Hs : settled (attemptSync p)).
  { unfold settled, attemptSync. rewrite Hc, Hr. discriminate. }
  destruct (agree_run now evs Hevs (attemptSync p) (attemptSync p)
              (agree_refl _) Hs) as [Ha _].
  rewrite (attemptSync_alone_enough now p _ Hc Hr Hn) in Ha.
  apply (agree_current _ _ _ Ha).
Qed.

End Machine.

Section Handed.
Context {W : Type}.
Variable createPublic : gmap string string -> W -> bool * W.

Lemma resume_owed (now : Z) (pass : Pass) (db : Db) (wl : W * list (gmap string string)) :
  point pass <> Cleaned ->
  snd (snd (resume (logged createPublic) now pass db wl))
  ++ owed (fst (fst (resume (logged createPublic) now pass db wl)))
  = snd wl ++ owed pass.
Proof.
  intros Hp.
  assert (I : forall r,
            snd (snd (iterate (logged createPublic) now (rest pass) r db wl))
            ++ owed (fst (fst (iterate (logged createPublic) now (rest pass) r db wl)))
            = snd wl ++ map Entry.data (rest pass)).
  { intros r. unfold iterate. destruct (rest pass) as [|e l]; [reflexivity|].
    unfold logged. destruct (createPublic (Entry.data e) (fst wl)) as [ok w'].
    cbn [fst snd owed point rest map]. rewrite <- app_assoc. reflexivity. }
  unfold resume, owed at 2.
  destruct (point pass) as [|e [|]| |e [row|]| |] eqn:E;
    try (rewrite I; reflexivity); try reflexivity.
  destruct Hp. reflexivity.
Qed.

Lemma concat_owed_middle (l1 l2 : list Pass) (pass : Pass) :
  concat (map owed (l1 ++ pass :: l2))
  = concat (map owed l1) ++ owed pass ++ concat (map owed l2).
Proof. rewrite map_app, concat_app. reflexivity. Qed.

Lemma handedAndOwed_resumePass (i : nat) (now : Z)
    (p : Provider (W * list (gmap string string))) :
  Permutation (handedAndOwed (resumePass (logged createPublic) i now p))
              (handedAndOwed p).
Proof.
  unfold resumePass. destruct (running p !! i) as [pass|] eqn:Hi; [|reflexivity].
  pose proof (take_drop_middle _ _ _ Hi) as Hl.
  assert (G : point pass <> Cleaned ->
            Permutation
              (handedAndOwed
                 (let '(pass', db', w') :=
                    resume (logged createPublic) now pass (store (current p))
                      (world (current p)) in
                  MakeProvider (MakeApp (status (current p)) (toasts (current p)) db' w')
                    (captured p) (<[i := pass']> (running p))))
              (handedAndOwed p)).
  { intros Hp. pose proof (resume_owed now pass (store (current p)) (world (current p)) Hp)
      as Ho.
    destruct (resume (logged createPublic) now pass (store (current p))
                (world (current p))) as [[pass' db'] w']. cbn [fst snd] in Ho.
    unfold handedAndOwed. cbn [current running world].
    rewrite insert_take_drop by (apply lookup_lt_Some in Hi; exact Hi).
    rewrite <- Hl at 3. rewrite !concat_owed_middle.
    rewrite (Permutation_app_swap_app (concat (map owed (take i (running p))))).
    rewrite app_assoc, Ho, <- app_assoc.
    rewrite (Permutation_app_swap_app (owed pass)). reflexivity. }
  destruct (point pass) eqn:Hp; try (apply G; discriminate).
  assert (E : concat (map owed (running p))
              = concat (map owed (take i (running p)))
                ++ owed pass ++ concat (map owed (drop (S i) (running p))))
    by (rewrite <- concat_owed_middle, Hl; reflexivity).
  assert (E0 : owed pass = []) by (unfold owed; rewrite Hp; reflexivity).
  unfold handedAndOwed. cbn [current running world finish refreshPendingCount].
  rewrite E, E0, delete_take_drop, map_app, concat_app. reflexivity.
Qed.

Lemma handedAndOwed_step (ev : Event) (p : Provider (W * list (gmap string string))) :
  callsAttemptSync ev = false ->
  Permutation (handedAndOwed (step (logged createPublic) ev p)) (handedAndOwed p).
Proof.
  destruct ev as [| |[t|]| |i now]; cbn [callsAttemptSync step]; intros H;
    try discriminate.
  - reflexivity.
  - unfold swListener. rewrite H. reflexivity.
  - reflexivity.
  - unfold render. destruct (Bool.eqb _ _); reflexivity.
  - apply handedAndOwed_resumePass.
Qed.

(** Whatever the schedule, as long as no further pass is started, what
    has been handed to the server and what is still owed to it make up
    the same payloads. *)
Lemma handedAndOwed_run (evs : list Event) :
  forallb (fun ev => negb (callsAttemptSync ev)) evs = true ->
  forall p : Provider (W * list (gmap string string)),
  Permutation (handedAndOwed (run (logged createPublic) evs p)) (handedAndOwed p).
Proof.
  induction evs as [|ev evs IH]; intros H p; [reflexivity|].
  cbn [forallb] in H. apply andb_true_iff in H as [H1 H2].
  rewrite run_events_cons. rewrite (IH H2). apply handedAndOwed_step.
  apply negb_true_iff, H1.
Qed.

End Handed.
End ProviderFacts.

(** ** The axios client *)

Module AuthFacts.
Import Sw Notions SwFacts CacheStorageFacts.

Lemma onFetch_api selfOrigin fetch request (cs : CacheStorage) :
  origin request = selfOrigin -> method request = "GET" ->
  Js.startsWith "/api/" (pathname request) = true ->
  onFetch selfOrigin fetch request cs
  = RespondWith (networkFirst fetch request API_CACHE cs).
Proof.
  intros Ho Hm Hp. unfold onFetch. rewrite Ho, Hm, Hp, String.eqb_refl. reflexivity.
Qed.

End AuthFacts.

(** ** Properties of the service worker *)

Section WorkerProperties.
Import Sw Notions SwFacts CacheStorageFacts SwEvents WorkerFacts InstallFacts.

(** X1. [cacheFirst] serves what it stored.  When no cache holds the
    request and the network answers with [r], [r] is returned.  If [r]
    is [ok] and the Cache interface takes it (status other than 206, no
    [Vary] header listing [*]), the same request is answered with [r]
    from the cache from then on, whatever the network does.  If [r] is
    not [ok], nothing is stored, and if [r] is [ok] but refused by the
    Cache interface, the cache is opened and nothing is stored: in
    both cases no cache holds the request afterwards, and the same
    request with the network down gets the empty 503 response with
    status text 'Offline'. *)
Theorem cacheFirst_serves_what_it_stored (fetch fetch' : Request -> FetchResult)
    (request : Request) (cacheName : string) (cs : CacheStorage) (r : Response) :
  cachesMatch (url request) cs = None ->
  fetch request = FetchResponse r ->
  fst (cacheFirst fetch request cacheName cs) = Fulfilled (Some r)
  /\ (ok r = true -> storable r = true ->
      cacheFirst fetch' request cacheName (snd (cacheFirst fetch request cacheName cs))
      = (Fulfilled (Some r), snd (cacheFirst fetch request cacheName cs)))
  /\ (ok r = false ->
      cacheFirst fetch request cacheName cs = (Fulfilled (Some r), cs)
      /\ forall e, fetch' request = FetchError e ->
           cacheFirst fetch' request cacheName cs
           = (Fulfilled (Some offlinePlaceholder), cs))
  /\ (ok r = true -> storable r = false ->
      snd (cacheFirst fetch request cacheName cs) = open cacheName cs
      /\ cachesMatch (url request) (snd (cacheFirst fetch request cacheName cs)) = None
      /\ forall e, fetch' request = FetchError e ->
           cacheFirst fetch' request cacheName (snd (cacheFirst fetch request cacheName cs))
           = (Fulfilled (Some offlinePlaceholder), open cacheName cs)).
Proof.
  intros Hmiss Hf.
  assert (E : cacheFirst fetch request cacheName cs
              = (Fulfilled (Some r),
                 if ok r then cachePut cacheName (url request) r (open cacheName cs)
                 else cs)).
  { unfold cacheFirst. rewrite Hmiss, Hf. destruct (ok r); reflexivity. }
  rewrite E. cbn [fst snd]. split; [reflexivity|]. split; [|split].
  - intros -> Hst. unfold cacheFirst.
    rewrite (cachesMatch_put_fresh _ _ _ _ Hst Hmiss). reflexivity.
  - intros ->. split; [reflexivity|].
    intros e He. unfold cacheFirst. rewrite Hmiss, He. reflexivity.
  - intros -> Hst. rewrite cachePut_refused by exact Hst.
    split; [reflexivity|]. split; [rewrite cachesMatch_open; exact Hmiss|].
    intros e He. unfold cacheFirst. rewrite cachesMatch_open, Hmiss, He. reflexivity.
Qed.

Lemma cacheFirst_serves_what_it_stored_witness :
  cachesMatch (url MoreSamples.imageRequest) [] = None
  /\ ok Samples.okResponse = true
  /\ storable Samples.okResponse = true
  /\ cacheFirst Samples.failedFetch MoreSamples.imageRequest IMAGE_CACHE
       (snd (cacheFirst (MoreSamples.answering Samples.okResponse)
               MoreSamples.imageRequest IMAGE_CACHE []))
     = (Fulfilled (Some Samples.okResponse),
        snd (cacheFirst (MoreSamples.answering Samples.okResponse)
               MoreSamples.imageRequest IMAGE_CACHE []))
  /\ ok MoreSamples.partialResponse = true
  /\ storable MoreSamples.partialResponse = false
  /\ cacheFirst Samples.failedFetch MoreSamples.imageRequest IMAGE_CACHE
       (snd (cacheFirst (MoreSamples.answering MoreSamples.partialResponse)
               MoreSamples.imageRequest IMAGE_CACHE []))
     = (Fulfilled (Some offlinePlaceholder), open IMAGE_CACHE []).
Proof.
  split; [reflexivity|]. split; [reflexivity|]. split; [reflexivity|].
  split; [|split; [reflexivity|split; [reflexivity|]]].
  - apply (cacheFirst_serves_what_it_stored (MoreSamples.answering Samples.okResponse)
             Samples.failedFetch MoreSamples.imageRequest IMAGE_CACHE []
             Samples.okResponse eq_refl eq_refl); reflexivity.
  - apply (cacheFirst_serves_what_it_stored (MoreSamples.answering MoreSamples.partialResponse)
             Samples.failedFetch MoreSamples.imageRequest IMAGE_CACHE []
             MoreSamples.partialResponse eq_refl eq_refl)
      with (e := "TypeError: Failed to fetch"); reflexivity.
Defined.

(** X2. [networkFirst] serves the last answer it stored.  With
    distinct cache names and no other cache holding the request: after
    the network has answered with an [ok] response [r] that the Cache
    interface takes (status other than 206, no [Vary] header listing
    [*]), the same request with the network down is answered with [r].
    After an answer that is not [ok], or one that the Cache interface
    refuses, the request with the network down is answered as it would
    have been before: with the earlier cached copy, which is not
    evicted, or with the 503 response. *)
Theorem networkFirst_serves_last_answer (fetch fetch' : Request -> FetchResult)
    (request : Request) (cacheName : string) (cs : CacheStorage)
    (r : Response) (e : string) :
  NoDup (keys cs) -> othersMiss cacheName (url request) cs ->
  fetch request = FetchResponse r -> fetch' request = FetchError e ->
  (ok r = true -> storable r = true ->
   fst (networkFirst fetch' request cacheName
          (snd (networkFirst fetch request cacheName cs)))
   = Fulfilled (Some r))
  /\ (ok r = false ->
      networkFirst fetch' request cacheName
        (snd (networkFirst fetch request cacheName cs))
      = networkFirst fetch' request cacheName cs)
  /\ (ok r = true -> storable r = false ->
      snd (networkFirst fetch request cacheName cs) = open cacheName cs
      /\ fst (networkFirst fetch' request cacheName
                (snd (networkFirst fetch request cacheName cs)))
         = fst (networkFirst fetch' request cacheName cs)).
Proof.
  intros Hnd Ho Hf Hf'.
  assert (E : snd (networkFirst fetch request cacheName cs)
              = if ok r then cachePut cacheName (url request) r (open cacheName cs)
                else cs).
  { unfold networkFirst. rewrite Hf. destruct (ok r); reflexivity. }
  rewrite E. split; [|split].
  - intros -> Hst. unfold networkFirst. rewrite Hf'.
    rewrite (cachesMatch_single cacheName).
    + rewrite cacheMatch_put_open by exact Hst. reflexivity.
    + rewrite keys_cachePut. apply NoDup_keys_open, Hnd.
    + apply othersMiss_cachePut, othersMiss_open, Ho.
  - intros ->. reflexivity.
  - intros -> Hst. rewrite cachePut_refused by exact Hst. split; [reflexivity|].
    unfold networkFirst. rewrite Hf', cachesMatch_open.
    destruct (cachesMatch (url request) cs); reflexivity.
Qed.

Lemma networkFirst_serves_last_answer_witness :
  NoDup (keys ([] : CacheStorage))
  /\ othersMiss API_CACHE (url Samples.apiRequest) []
  /\ ok Samples.okResponse = true
  /\ storable Samples.okResponse = true
  /\ fst (networkFirst Samples.failedFetch Samples.apiRequest API_CACHE
            (snd (networkFirst (MoreSamples.answering Samples.okResponse)
                    Samples.apiRequest API_CACHE [])))
     = Fulfilled (Some Samples.okResponse)
  /\ ok MoreSamples.variedResponse = true
  /\ storable MoreSamples.variedResponse = false
  /\ fst (networkFirst Samples.failedFetch Samples.apiRequest API_CACHE
            (snd (networkFirst (MoreSamples.answering MoreSamples.variedResponse)
                    Samples.apiRequest API_CACHE [])))
     = Fulfilled (Some offlineApiResponse).
Proof.
  assert (H1 : NoDup (keys ([] : CacheStorage))) by constructor.
  assert (H2 : othersMiss API_CACHE (url Samples.apiRequest) [])
    by (intros n c []).
  split; [exact H1|]. split; [exact H2|]. split; [reflexivity|]. split; [reflexivity|].
  split; [|split; [reflexivity|split; [reflexivity|]]].
  - apply (networkFirst_serves_last_answer (MoreSamples.answering Samples.okResponse)
             Samples.failedFetch Samples.apiRequest API_CACHE [] Samples.okResponse
             "TypeError: Failed to fetch" H1 H2 eq_refl eq_refl); reflexivity.
  - destruct (networkFirst_serves_last_answer
                (MoreSamples.answering MoreSamples.variedResponse)
                Samples.failedFetch Samples.apiRequest API_CACHE []
                MoreSamples.variedResponse
                "TypeError: Failed to fetch" H1 H2 eq_refl eq_refl) as (_ & _ & H).
    destruct (H eq_refl eq_refl) as [_ ->]. reflexivity.
Defined.

(** X3. [staleWhileRevalidate] refreshes the cache.  When the network
    answers with an [ok] response [r] that the Cache interface takes
    (status other than 206, no [Vary] header listing [*]), the next
    call for the same request is answered with [r], whatever the
    network does then and whatever was cached before.  When the
    request is cached and the network gives no such response (it
    fails, answers with another status, or with a response that the
    Cache interface refuses), the next call is still answered with the
    cached response. *)
Theorem staleWhileRevalidate_refreshes (fetch fetch' : Request -> FetchResult)
    (request : Request) (cacheName : string) (cs : CacheStorage) :
  (forall r, fetch request = FetchResponse r -> ok r = true -> storable r = true ->
     fst (staleWhileRevalidate fetch' request cacheName
            (snd (staleWhileRevalidate fetch request cacheName cs)))
     = Fulfilled (Some r))
  /\ (forall c, cacheMatch cacheName (url request) cs = Some c ->
        (forall r, fetch request = FetchResponse r -> ok r && storable r = false) ->
        snd (staleWhileRevalidate fetch request cacheName cs) = open cacheName cs
        /\ fst (staleWhileRevalidate fetch' request cacheName
                  (snd (staleWhileRevalidate fetch request cacheName cs)))
           = Fulfilled (Some c)).
Proof.
  split.
  - intros r Hf Hok Hst.
    assert (E : snd (staleWhileRevalidate fetch request cacheName cs)
                = cachePut cacheName (url request) r (open cacheName cs)).
    { unfold staleWhileRevalidate. rewrite Hf, Hok.
      destruct (cacheMatch _ _ _); reflexivity. }
    rewrite E. unfold staleWhileRevalidate at 1.
    rewrite cacheMatch_open, cacheMatch_put_open by exact Hst. reflexivity.
  - intros c Hc Hno.
    assert (E : snd (staleWhileRevalidate fetch request cacheName cs)
                = open cacheName cs).
    { unfold staleWhileRevalidate. rewrite cacheMatch_open, Hc. cbn [snd].
      destruct (fetch request) as [r|e] eqn:Hf; [|reflexivity].
      cbn [snd]. specialize (Hno r eq_refl). destruct (ok r); [|reflexivity].
      apply cachePut_refused. exact Hno. }
    rewrite E. split; [reflexivity|]. unfold staleWhileRevalidate.
    rewrite !cacheMatch_open, Hc. reflexivity.
Qed.

Lemma staleWhileRevalidate_refreshes_witness :
  ok Samples.okResponse = true
  /\ storable Samples.okResponse = true
  /\ fst (staleWhileRevalidate Samples.failedFetch Samples.assetRequest STATIC_CACHE
            (snd (staleWhileRevalidate (MoreSamples.answering Samples.okResponse)
                    Samples.assetRequest STATIC_CACHE [])))
     = Fulfilled (Some Samples.okResponse)
  /\ cacheMatch STATIC_CACHE (url Samples.assetRequest) Samples.primed
     = Some Samples.okResponse
  /\ ok MoreSamples.partialResponse && storable MoreSamples.partialResponse = false
  /\ fst (staleWhileRevalidate Samples.failedFetch Samples.assetRequest STATIC_CACHE
            (snd (staleWhileRevalidate (MoreSamples.answering MoreSamples.partialResponse)
                    Samples.assetRequest STATIC_CACHE Samples.primed)))
     = Fulfilled (Some Samples.okResponse).
Proof.
  split; [reflexivity|]. split; [reflexivity|]. split; [|split; [reflexivity|split; [reflexivity|]]].
  - apply (proj1 (staleWhileRevalidate_refreshes
                    (MoreSamples.answering Samples.okResponse) Samples.failedFetch
                    Samples.assetRequest STATIC_CACHE []) Samples.okResponse);
      reflexivity.
  - apply (proj2 (staleWhileRevalidate_refreshes
                    (MoreSamples.answering MoreSamples.partialResponse) Samples.failedFetch
                    Samples.assetRequest STATIC_CACHE Samples.primed) Samples.okResponse).
    + reflexivity.
    + intros r [= <-]. reflexivity.
Defined.



(** X5. Where the answers of the fetch listener come from.  Whenever
    the listener responds, the promise it hands to [respondWith]
    fulfils (it never rejects).  It fulfils with a response that is the
    one the network gave for the request, or one a cache held for the
    request, or, only when the network failed, one a cache held as the
    shell [/index.html] or one of the two synthesized 503 responses.
    It fulfils with [undefined] only when the network failed. *)
Theorem onFetch_answer_origin (selfOrigin : string) (fetch : Request -> FetchResult)
    (request : Request) (cs : CacheStorage) (s : Settled) (cs' : CacheStorage) :
  onFetch selfOrigin fetch request cs = RespondWith (s, cs') ->
  (exists r, s = Fulfilled (Some r)
     /\ (fetch request = FetchResponse r
         \/ held (url request) r cs
         \/ ((exists e, fetch request = FetchError e)
             /\ (held (shellKey selfOrigin) r cs
                 \/ r = offlineApiResponse \/ r = offlinePlaceholder))))
  \/ (s = Fulfilled None /\ exists e, fetch request = FetchError e).
Proof.
  assert (CF : forall name s cs',
    cacheFirst fetch request name cs = (s, cs') ->
    exists r, s = Fulfilled (Some r)
      /\ (fetch request = FetchResponse r
          \/ held (url request) r cs
          \/ ((exists e, fetch request = FetchError e)
              /\ (held (shellKey selfOrigin) r cs
                  \/ r = offlineApiResponse \/ r = offlinePlaceholder)))).
  { intros name s0 cs0. unfold cacheFirst.
    destruct (cachesMatch (url request) cs) as [c|] eqn:Hc.
    - intros [= <- <-]. exists c. split; [reflexivity|].
      right; left. apply cachesMatch_held, Hc.
    - destruct (fetch request) as [r|e].
      + intros H. exists r. split; [destruct (ok r); congruence | auto].
      + intros [= <- <-]. exists offlinePlaceholder. split; [reflexivity|].
        right; right. split; [eauto | auto]. }
  unfold onFetch.
  destruct (negb (String.eqb (origin request) selfOrigin)); [discriminate|].
  destruct (negb (String.eqb (method request) "GET")); [discriminate|].
  destruct (Js.startsWith "/api/" (pathname request)).
  { unfold networkFirst. destruct (fetch request) as [r|e].
    - intros H. left. exists r. split; [destruct (ok r); congruence | auto].
    - destruct (cachesMatch (url request) cs) as [c|] eqn:Hc; intros [= <- <-]; left.
      + exists c. split; [reflexivity|]. right; left. apply cachesMatch_held, Hc.
      + exists offlineApiResponse. split; [reflexivity|].
        right; right. split; [eauto | auto]. }
  destruct (hasExtension imageExtensions (pathname request)).
  { intros [= E]. left. exact (CF _ _ _ E). }
  destruct (hasExtension assetExtensions (pathname request)).
  { unfold staleWhileRevalidate. rewrite cacheMatch_open.
    destruct (cacheMatch STATIC_CACHE (url request) cs) as [c|] eqn:Hc.
    - intros [= <- _]. left. exists c. split; [reflexivity|].
      right; left. apply (cacheMatch_held _ _ _ _ Hc).
    - destruct (fetch request) as [r|e]; intros [= <- _].
      + left. exists r. auto.
      + right. eauto. }
  destruct (String.eqb (mode request) "navigate").
  { unfold navigate. fold (shellKey selfOrigin). destruct (fetch request) as [r|e].
    - intros [= <- _]. left. exists r. auto.
    - destruct (cachesMatch (shellKey selfOrigin) cs) as [c|] eqn:Hc; intros [= <- _].
      + left. exists c. split; [reflexivity|]. right; right.
        split; [eauto|]. left. apply cachesMatch_held, Hc.
      + right. eauto. }
  intros [= E]. left. exact (CF _ _ _ E).
Qed.

Lemma onFetch_answer_origin_witness :
  onFetch "https://consult.example" Samples.failedFetch Samples.apiRequest []
  = RespondWith (Fulfilled (Some offlineApiResponse), [])
  /\ ((exists r, Fulfilled (Some offlineApiResponse) = Fulfilled (Some r)
         /\ (Samples.failedFetch Samples.apiRequest = FetchResponse r
             \/ held (url Samples.apiRequest) r []
             \/ ((exists e, Samples.failedFetch Samples.apiRequest = FetchError e)
                 /\ (held (shellKey "https://consult.example") r []
                     \/ r = offlineApiResponse \/ r = offlinePlaceholder))))
      \/ (Fulfilled (Some offlineApiResponse) = Fulfilled None
          /\ exists e, Samples.failedFetch Samples.apiRequest = FetchError e)).
Proof.
  split; [reflexivity|].
  apply (onFetch_answer_origin "https://consult.example" Samples.failedFetch
           Samples.apiRequest [] (Fulfilled (Some offlineApiResponse)) []).
  reflexivity.
Defined.

(** X6. The fetch listener only creates caches of the current version.
    When every cache has one of the three current names and the names
    are distinct (as after [activate]), this still holds after the
    listener has responded, so another activation sweep deletes
    nothing. *)
Theorem onFetch_caches_survive_activation (selfOrigin : string)
    (fetch : Request -> FetchResult) (request : Request)
    (cs : CacheStorage) (s : Settled) (cs' : CacheStorage) :
  allAllowed cs -> NoDup (keys cs) ->
  onFetch selfOrigin fetch request cs = RespondWith (s, cs') ->
  allAllowed cs' /\ NoDup (keys cs') /\ activate cs' = cs'.
Proof.
  intros Ha Hnd H.
  destruct (stored_onFetch _ _ _ _ _ _ H) as (name & key & Hn & _ & Hs).
  assert (A : allAllowed cs').
  { unfold allAllowed. destruct (stored_keys _ _ _ _ Hs) as [->| ->];
      [exact Ha | apply allAllowed_open; assumption]. }
  split; [exact A|]. split; [|apply activate_allowed, A].
  destruct (stored_keys _ _ _ _ Hs) as [->| ->]; [exact Hnd | apply NoDup_keys_open, Hnd].
Qed.

Lemma onFetch_caches_survive_activation_witness :
  allAllowed Samples.primed
  /\ NoDup (keys Samples.primed)
  /\ activate (snd (networkFirst (MoreSamples.answering Samples.okResponse)
                      Samples.apiRequest API_CACHE Samples.primed))
     = snd (networkFirst (MoreSamples.answering Samples.okResponse)
              Samples.apiRequest API_CACHE Samples.primed).
Proof.
  assert (H1 : allAllowed Samples.primed).
  { repeat constructor. }
  assert (H2 : NoDup (keys Samples.primed)).
  { apply (bool_decide_unpack _). vm_compute. exact I. }
  split; [exact H1|]. split; [exact H2|].
  apply (onFetch_caches_survive_activation "https://consult.example"
           (MoreSamples.answering Samples.okResponse) Samples.apiRequest Samples.primed
           (Fulfilled (Some Samples.okResponse))
           (snd (networkFirst (MoreSamples.answering Samples.okResponse)
                   Samples.apiRequest API_CACHE Samples.primed)) H1 H2).
  reflexivity.
Defined.

(** X7. The fetch listener never evicts.  When it responds, every
    entry a cache held is still held by that cache (possibly with a
    newer response), whatever [caches.match] found it still finds
    something for, and the entries under keys other than the URL of
    the request and [/index.html] are exactly as before. *)
Theorem onFetch_keeps_entries (selfOrigin : string)
    (fetch : Request -> FetchResult) (request : Request)
    (cs : CacheStorage) (s : Settled) (cs' : CacheStorage) :
  onFetch selfOrigin fetch request cs = RespondWith (s, cs') ->
  (forall n k, is_Some (cacheMatch n k cs) -> is_Some (cacheMatch n k cs'))
  /\ (forall k, is_Some (cachesMatch k cs) -> is_Some (cachesMatch k cs'))
  /\ (forall n k, k <> url request -> k <> shellKey selfOrigin ->
        cacheMatch n k cs' = cacheMatch n k cs).
Proof.
  intros H. destruct (stored_onFetch _ _ _ _ _ _ H) as (name & key & _ & Hk & Hs).
  split; [|split].
  - intros n k. apply (stored_cacheMatch_kept _ _ _ _ _ _ Hs).
  - intros k. apply (stored_cachesMatch_kept _ _ _ _ _ Hs).
  - intros n k H1 H2. apply (stored_cacheMatch_other _ _ _ _ _ _ Hs).
    destruct Hk as [-> | ->]; assumption.
Qed.

Lemma onFetch_keeps_entries_witness :
  onFetch "https://consult.example" (MoreSamples.answering Samples.okResponse)
    Samples.apiRequest Samples.primed
  = RespondWith (networkFirst (MoreSamples.answering Samples.okResponse)
                   Samples.apiRequest API_CACHE Samples.primed)
  /\ cacheMatch STATIC_CACHE (url Samples.assetRequest)
       (snd (networkFirst (MoreSamples.answering Samples.okResponse)
               Samples.apiRequest API_CACHE Samples.primed))
     = cacheMatch STATIC_CACHE (url Samples.assetRequest) Samples.primed.
Proof.
  split; [reflexivity|].
  apply (onFetch_keeps_entries "https://consult.example"
           (MoreSamples.answering Samples.okResponse) Samples.apiRequest Samples.primed
           (Fulfilled (Some Samples.okResponse))
           (snd (networkFirst (MoreSamples.answering Samples.okResponse)
                   Samples.apiRequest API_CACHE Samples.primed)) eq_refl).
  - discriminate.
  - discriminate.
Defined.



End WorkerProperties.

Section NotificationProperties.
Import SwEvents NotifyFacts Ui.

(** X9. From a push message to the click on its notification.  When
    the [push] listener shows a notification, its title, body, tag and
    [data.url] are never falsy (the defaults fill in); [data.url] is
    the [url] of the payload when that is truthy, and ['/'] when the
    payload is not JSON, in which case the body is the text of the
    message (the default when the text is empty).  A click with the
    action 'dismiss' only closes the notification.  Any other click
    closes it and then either focuses the first client that has
    [focus], navigating it to [data.url] when it can, or, when there
    is no such client, opens a window on [data.url]; the fallback
    ['/'] of the click listener is never used for these
    notifications. *)
Theorem push_click_opens_url (d : PushData) (n : Notification)
    (action : string) (clients : list Client) :
  onPush (Some d) = Some n ->
  truthy (Some (title n)) = true
  /\ truthy (Some (body n)) = true
  /\ truthy (Some (tag n)) = true
  /\ truthy (Some (data_url n)) = true
  /\ (forall v u, json d = Some v -> prop "url" v = Some u -> truthy (Some u) = true ->
        data_url n = u)
  /\ (json d = None ->
      data_url n = JStr "/"
      /\ body n = (if String.eqb (text d) "" then JStr "You have a new notification"
                   else JStr (text d)))
  /\ onNotificationClick "dismiss" (Some n) clients = [Close]
  /\ (action <> "dismiss" ->
      (forall c, find hasFocus clients = Some c ->
         onNotificationClick action (Some n) clients
         = Close :: Focus (clientId c)
             :: (if hasNavigate c then [Navigate (clientId c) (data_url n)] else []))
      /\ (find hasFocus clients = None ->
          onNotificationClick action (Some n) clients
          = [Close; OpenWindow (data_url n)])).
Proof.
  unfold onPush. set (parsed := match json d with Some v => v | None => _ end).
  intros H.
  assert (E : n = MakeNotification
                    (orElse (prop "title" parsed) defaultTitle)
                    (orElse (prop "body" parsed) "You have a new notification")
                    (orElse (prop "tag" parsed) "ps-consult")
                    (orElse (prop "url" parsed) "/")).
  { destruct parsed; congruence. }
  assert (Hnn : parsed <> JNull) by (intros E0; rewrite E0 in H; discriminate).
  clear H. subst n. cbn [title body tag data_url].
  assert (Hu : truthy (Some (orElse (prop "url" parsed) "/")) = true)
    by (apply truthy_orElse; discriminate).
  split; [apply truthy_orElse; discriminate|].
  split; [apply truthy_orElse; discriminate|].
  split; [apply truthy_orElse; discriminate|].
  split; [exact Hu|]. split; [|split; [|split; [reflexivity|]]].
  - intros v u Hv Hp Ht. unfold parsed. rewrite Hv, Hp. apply orElse_truthy, Ht.
  - intros Hj. unfold parsed. rewrite Hj. split; [reflexivity|].
    cbn. destruct (String.eqb (text d) ""); reflexivity.
  - intros Ha. apply String.eqb_neq in Ha.
    unfold onNotificationClick. rewrite Ha. cbn [option_map data_url].
    rewrite (orElse_truthy _ _ Hu).
    split; [intros c ->; reflexivity | intros ->; reflexivity].
Qed.

Lemma push_click_opens_url_witness :
  onPush (Some MoreSamples.pushed)
  = Some (MakeNotification (JStr "New consult") (JStr "You have a new notification")
            (JStr "ps-consult") (JStr "/app/consults/12"))
  /\ onNotificationClick "open"
       (Some (MakeNotification (JStr "New consult") (JStr "You have a new notification")
                (JStr "ps-consult") (JStr "/app/consults/12")))
       MoreSamples.windows
     = [Close; Focus "w1"; Navigate "w1" (JStr "/app/consults/12")].
Proof.
  split; [reflexivity|].
  destruct (push_click_opens_url MoreSamples.pushed
              (MakeNotification (JStr "New consult") (JStr "You have a new notification")
                 (JStr "ps-consult") (JStr "/app/consults/12"))
              "open" MoreSamples.windows eq_refl)
    as (_ & _ & _ & _ & _ & _ & _ & H).
  assert (Ha : "open" <> "dismiss") by discriminate.
  apply (proj1 (H Ha) (MakeClient "w1" true true)). reflexivity.
Defined.

(** X10. A background sync event reaches the sync engine.  For the tag
    'sync-consults' the worker posts one message of type
    'SYNC_CONSULTS' to every window client, and the listener of the
    provider answers each of them by an [attemptSync]; for any other
    tag the worker posts nothing, and a message of any other type (or
    of none) leaves the provider as it is. *)
Theorem onSync_starts_a_pass {W : Type}
    (tag : string) (clients : list Client) (p : Provider W) :
  (tag = "sync-consults" ->
   map (fun c => PostMessage (clientId c) "SYNC_CONSULTS") clients = onSync tag clients
   /\ forall c type, In (PostMessage c type) (onSync tag clients) ->
        swListener (Some type) p = attemptSync p)
  /\ (tag <> "sync-consults" -> onSync tag clients = [])
  /\ (forall type, type <> "SYNC_CONSULTS" -> swListener (Some type) p = p)
  /\ swListener None p = p.
Proof.
  split; [|split; [|split]].
  - intros ->. split; [reflexivity|]. intros c type Hin.
    unfold onSync in Hin. simpl in Hin. apply in_map_iff in Hin as (x & [= _ <-] & _).
    reflexivity.
  - intros H. apply String.eqb_neq in H. unfold onSync. rewrite H. reflexivity.
  - intros type H. apply String.eqb_neq in H. unfold swListener. rewrite H. reflexivity.
  - reflexivity.
Qed.

Lemma onSync_starts_a_pass_witness :
  onSync "sync-consults" MoreSamples.windows
  = [PostMessage "w1" "SYNC_CONSULTS"; PostMessage "w2" "SYNC_CONSULTS"]
  /\ swListener (Some "SYNC_CONSULTS") MoreSamples.onlineProvider = attemptSync MoreSamples.onlineProvider
  /\ length (running (swListener (Some "SYNC_CONSULTS") MoreSamples.onlineProvider)) = 1%nat.
Proof.
  split; [reflexivity|].
  destruct (onSync_starts_a_pass "sync-consults" MoreSamples.windows MoreSamples.onlineProvider)
    as (H & _).
  rewrite (proj2 (H eq_refl) "w1" "SYNC_CONSULTS") by (left; reflexivity).
  split; reflexivity.
Defined.

End NotificationProperties.

(** ** Properties of the offline store *)

Section StoreProperties.
Import OfflineDb Props Notions QueueFacts PassFacts OrderFacts StoreFacts CacheFacts ViewFacts.

(** X11. A pass that follows a pass is idle.  Whatever the store,
    after one [syncAllPending] no entry is 'pending', so another pass,
    with any transmit function and at any time, hands no payload to its
    transmit function (the state that function acts on is untouched,
    and a transmit function that records its calls records none),
    returns [{synced: 0, failed: 0}] and only runs the retention
    sweep. *)
Theorem pass_after_pass_is_idle {W W' : Type}
    (syncFn : gmap string string -> W -> bool * W)
    (syncFn' : gmap string string -> W' -> bool * W')
    (now now' : Z) (db : Db) (w : W) (w' : W') :
  let db1 := snd (fst (syncAllPending syncFn now db w)) in
  syncAllPending syncFn' now' db1 w'
  = (MakeResult 0 0, snd (cleanupSyncedConsults now' db1), w')
  /\ snd (snd (syncAllPending (logged syncFn') now' db1 (w', []))) = [].
Proof.
  intros db1. subst db1. rewrite !(syncAllPending_spec _ now').
  rewrite !pass_no_pending. simpl. auto.
Qed.

(** X12. What a pass leaves alone.  On a store as Dexie keeps it, after
    [syncAllPending] the store is still in that shape, the key
    generator and the two caches of server records are unchanged, and
    every entry of the queue is an entry that was there before, with the
    same id, client id, payload and creation time and with [attempts]
    unchanged or one higher; an entry that was not 'pending' is
    unchanged, and an entry that was 'failed' is still there. *)
Theorem syncAllPending_preserves {W : Type}
    (syncFn : gmap string string -> W -> bool * W) (now : Z) (db : Db) (w : W) :
  wfDb db ->
  let db' := snd (fst (syncAllPending syncFn now db w)) in
  wfDb db'
  /\ offlineConsultsNextId db' = offlineConsultsNextId db
  /\ cachedConsults db' = cachedConsults db
  /\ cachedSchedule db' = cachedSchedule db
  /\ (forall e', In e' (offlineConsults db') ->
        exists e, In e (offlineConsults db) /\ sameSubmission e e'
                  /\ Entry.attempts e <= Entry.attempts e' <= Entry.attempts e + 1
                  /\ (Entry.status e <> Entry.pending -> e' = e))
  /\ (forall e, In e (offlineConsults db) -> Entry.status e = Entry.failed ->
        In e (offlineConsults db')).
Proof.
  intros Hwf db'. subst db'. rewrite syncAllPending_spec. cbn [fst snd].
  set (pending := getPendingConsults db). set (outs := outcomes syncFn pending w).
  destruct (fold_mark_frame (combine pending outs) db) as (Eids & Enext & Ec & Es).
  destruct (cleanup_frame now (fold_left mark (combine pending outs) db)) as (Cn & Cc & Cs).
  assert (Hwf1 : wfDb (fold_left mark (combine pending outs) db))
    by (apply (wfDb_ids db); assumption).
  split; [apply wfDb_cleanup, Hwf1|].
  split; [congruence|]. split; [congruence|]. split; [congruence|]. split.
  - intros e' He'. rewrite cleanup_rows in He'. apply filter_In in He' as [He' _].
    pose proof (get_In_sorted Entry.id _ e' (proj1 Hwf1) He') as G.
    destruct (in_dec Z.eq_dec (Entry.id e') (map Entry.id pending)) as [Hin|Hout].
    + apply in_map_iff in Hin as (e & Eid & Hin).
      apply list_elem_of_In, list_elem_of_lookup_1 in Hin as [i Hi].
      assert (Hlen : length outs = length pending) by apply length_outcomes.
      destruct (outs !! i) as [ok|] eqn:Ho.
      2:{ apply lookup_ge_None in Ho. apply lookup_lt_Some in Hi. lia. }
      assert (Hdb : In e (offlineConsults db)).
      { apply list_elem_of_lookup_2, list_elem_of_In, filter_In in Hi. tauto. }
      assert (Hp : Entry.status e = Entry.pending).
      { apply list_elem_of_lookup_2, list_elem_of_In, filter_In in Hi.
        apply status_eqb_eq. tauto. }
      rewrite <- Eid in G.
      rewrite (fold_mark_get pending outs db i e ok) in G;
        [|apply wfDb_pending_NoDup; exact Hwf | exact Hi | exact Ho].
      rewrite (get_In_sorted Entry.id _ e (proj1 Hwf) Hdb) in G.
      injection G as <-. exists e. split; [exact Hdb|].
      destruct (markedRow_same ok e) as (A & B & _).
      split; [exact A|]. split; [exact B|]. congruence.
    + rewrite fold_mark_get_fresh in G
        by (rewrite map_fst_combine by apply length_outcomes; exact Hout).
      apply get_Some_key in G as [_ G]. exists e'.
      split; [exact G|]. split; [repeat split|]. split; [lia | reflexivity].
  - intros e He Hs.
    pose proof (failed_entry_untouched syncFn now db w e Hwf He Hs) as [_ H].
    rewrite syncAllPending_spec in H. exact H.
Qed.

Lemma syncAllPending_preserves_witness :
  wfDb Samples.threePending
  /\ offlineConsultsNextId
       (snd (fst (syncAllPending Samples.secondThrows Samples.now
                    Samples.threePending 0%nat)))
     = 4.
Proof.
  assert (Hwf : wfDb Samples.threePending).
  { split; simpl; repeat constructor; simpl; lia. }
  split; [exact Hwf|].
  destruct (syncAllPending_preserves Samples.secondThrows Samples.now
              Samples.threePending 0%nat Hwf) as (_ & H & _).
  exact H.
Defined.

(** X13. [saveOfflineConsult] appends.  On a store as Dexie keeps it,
    the new entry gets the next key of the generator, which no entry
    has; it is added after all the entries of the queue and after all
    the pending ones, with status 'pending', no attempt, the creation
    time of the clock and the payload of the form with [client_id] set
    to the client id returned; the other entries are read as before,
    and the store keeps its shape. *)
Theorem saveOfflineConsult_appends (now1 now2 : Z) (rnd : string)
    (consultData : gmap string string) (db : Db) :
  wfDb db ->
  let saved := saveOfflineConsult now1 now2 rnd consultData db in
  let id := fst (fst saved) in
  let clientId := snd (fst saved) in
  let db' := snd saved in
  let entry := Entry.Make id clientId (<["client_id" := clientId]> consultData)
                 Entry.pending (JsDate.toISOString now2) 0 in
  offlineConsults db' = offlineConsults db ++ [entry]
  /\ getPendingConsults db' = getPendingConsults db ++ [entry]
  /\ ~ In id (map Entry.id (offlineConsults db))
  /\ Dexie.get Entry.id id (offlineConsults db') = Some entry
  /\ (forall k, k <> id ->
        Dexie.get Entry.id k (offlineConsults db')
        = Dexie.get Entry.id k (offlineConsults db))
  /\ Entry.data entry !! "client_id" = Some clientId
  /\ (forall k, k <> "client_id" -> Entry.data entry !! k = consultData !! k)
  /\ wfDb db'.
Proof.
  intros Hwf saved id clientId db' entry.
  pose proof (saveOfflineConsult_rows now1 now2 rnd consultData db Hwf) as E.
  pose proof (wfDb_saveOfflineConsult now1 now2 rnd consultData db Hwf) as Hwf'.
  fold saved in E, Hwf'. fold clientId in E. fold db' in E, Hwf'.
  change (offlineConsultsNextId db) with id in E. fold entry in E.
  destruct Hwf as [Hs Hlt]. rename Hwf' into Hwf.
  assert (Hfresh : ~ In id (map Entry.id (offlineConsults db))).
  { intros Hin. apply in_map_iff in Hin as (e & Eid & Hin).
    rewrite List.Forall_forall in Hlt. specialize (Hlt e Hin).
    assert (Eid0 : id = offlineConsultsNextId db) by reflexivity. lia. }
  split; [exact E|]. split.
  { unfold getPendingConsults. rewrite E, List.filter_app. reflexivity. }
  split; [exact Hfresh|].
  assert (G : Dexie.get Entry.id id (offlineConsults db') = Some entry).
  { apply (get_In_sorted Entry.id _ entry (proj1 Hwf)).
    rewrite E. apply in_or_app. right. left. reflexivity. }
  split; [exact G|]. split.
  { intros k Hk. rewrite E. clear -Hk.
    induction (offlineConsults db) as [|x rows IH]; simpl.
    - destruct (id =? k) eqn:E; [apply Z.eqb_eq in E; congruence | reflexivity].
    - destruct (Entry.id x =? k); [reflexivity | exact IH]. }
  split; [apply lookup_insert_eq|]. split; [|exact Hwf].
  intros k Hk. apply lookup_insert_ne. congruence.
Qed.

Lemma saveOfflineConsult_appends_witness :
  wfDb Samples.threePending
  /\ map Entry.id
       (getPendingConsults
          (snd (saveOfflineConsult 1709210096789 1709210096790 "0.4fzyo82mvyr"
                  MoreSamples.formData Samples.threePending)))
     = [1; 2; 3; 4].
Proof.
  assert (Hwf : wfDb Samples.threePending).
  { split; simpl; repeat constructor; simpl; lia. }
  split; [exact Hwf|].
  destruct (saveOfflineConsult_appends 1709210096789 1709210096790 "0.4fzyo82mvyr"
              MoreSamples.formData Samples.threePending Hwf) as (_ & H & _).
  cbv zeta in H. rewrite H, map_app. reflexivity.
Defined.

(** X14. Keys of the queue are never reused.  After every sequence of
    enqueues, marks and retention sweeps on a fresh store, the next
    [saveOfflineConsult] returns the number of enqueues so far plus
    one: a key that no entry of the store has, that no entry that has
    reached 'synced' or 'failed' had (also those the sweep has deleted
    since), and that is above the keys of all the entries. *)
Theorem enqueue_key_never_reused (ops : list QueueOp) (now1 now2 : Z) (rnd : string)
    (consultData : gmap string string) :
  let db := fst (run ops) in
  let reached := snd (run ops) in
  let id := fst (fst (saveOfflineConsult now1 now2 rnd consultData db)) in
  id = enqueues ops + 1
  /\ ~ In id (map Entry.id (offlineConsults db))
  /\ (id ∉ reachedSynced reached ∪ reachedFailed reached)
  /\ Forall (fun e => 1 <= Entry.id e < id) (offlineConsults db).
Proof.
  intros db reached id. destruct (run_inv ops) as [[Hs Hlt] Hpos Hnext _ Hre _ _ _].
  fold db in Hlt, Hpos, Hnext, Hre. fold reached in Hre.
  assert (Eid : id = offlineConsultsNextId db) by reflexivity.
  split; [congruence|]. split; [|split].
  - intros Hin. apply in_map_iff in Hin as (e & E & Hin).
    rewrite List.Forall_forall in Hlt. specialize (Hlt e Hin). lia.
  - intros Hin. apply Hre in Hin. lia.
  - rewrite List.Forall_forall in *. intros e He.
    specialize (Hlt e He). specialize (Hpos e He). lia.
Qed.

(** X15. [attempts] counts the failed marks.  For an entry that is in
    the queue, after [n+1] calls of [markConsultFailed] on its key the
    entry is 'failed' and its [attempts] is what it was plus [n+1],
    the rest of it unchanged.  For a key that no entry has, the calls
    change nothing.  The entries with other keys are read as before. *)
Theorem markConsultFailed_counts (n : nat) (id : Z) (db : Db) :
  (forall e, Dexie.get Entry.id id (offlineConsults db) = Some e ->
     Dexie.get Entry.id id (offlineConsults (failTimes (S n) id db))
     = Some (Entry.Make (Entry.id e) (Entry.clientId e) (Entry.data e) Entry.failed
               (Entry.createdAt e) (Entry.attempts e + Z.of_nat (S n))))
  /\ (Dexie.get Entry.id id (offlineConsults db) = None -> failTimes n id db = db)
  /\ (forall k, k <> id ->
        Dexie.get Entry.id k (offlineConsults (failTimes n id db))
        = Dexie.get Entry.id k (offlineConsults db)).
Proof.
  split; [|split; [|intros k Hk; apply failTimes_other, Hk]].
  - intros e He. induction n as [|n IH].
    + simpl. unfold markConsultFailed. rewrite He.
      cbn [setOfflineConsults offlineConsults].
      rewrite get_modify_same by reflexivity. rewrite He. simpl.
      rewrite orZero_id. reflexivity.
    + change (failTimes (S (S n)) id db)
        with (markConsultFailed id (failTimes (S n) id db)).
      unfold markConsultFailed at 1. rewrite IH.
      cbn [setOfflineConsults offlineConsults].
      rewrite get_modify_same by reflexivity. rewrite IH. simpl.
      rewrite orZero_id. do 2 f_equal. lia.
  - intros Hn. induction n as [|n IH]; simpl; [reflexivity|].
    rewrite IH. unfold markConsultFailed. rewrite Hn. reflexivity.
Qed.

Lemma markConsultFailed_counts_witness :
  Dexie.get Entry.id 2 (offlineConsults Samples.threePending)
  = Some (Samples.entry 2 Entry.pending "2024-02-29T12:05:00.000Z" 0)
  /\ Dexie.get Entry.id 2 (offlineConsults (failTimes 3 2 Samples.threePending))
     = Some (Samples.entry 2 Entry.failed "2024-02-29T12:05:00.000Z" 3).
Proof.
  split; [reflexivity|].
  apply (proj1 (markConsultFailed_counts 2 2 Samples.threePending)
           (Samples.entry 2 Entry.pending "2024-02-29T12:05:00.000Z" 0)).
  reflexivity.
Defined.

(** X16. Retention sweeps compose.  [cleanupSyncedConsults] returns the
    number of entries it deleted.  Running it again at the same clock
    reading deletes nothing.  For clock readings within the years 1970
    to 9999 (and at least seven days after the epoch), a sweep after an
    earlier sweep leaves what the later sweep alone leaves, and a sweep
    at an earlier clock reading after a later one deletes nothing. *)
Theorem cleanupSyncedConsults_sweeps (now : Z) (db : Db) :
  let swept := snd (cleanupSyncedConsults now db) in
  fst (cleanupSyncedConsults now db)
  = Z.of_nat (length (offlineConsults db)) - Z.of_nat (length (offlineConsults swept))
  /\ cleanupSyncedConsults now swept = (0, swept)
  /\ (forall now', 7 * 86400000 <= now' -> now' <= now ->
        now <= JsDate.maxFourDigitTime ->
        snd (cleanupSyncedConsults now (snd (cleanupSyncedConsults now' db))) = swept
        /\ cleanupSyncedConsults now' swept = (0, swept)).
Proof.
  intros swept.
  assert (Idem : forall now', (forall e, expired now' e = true -> expired now e = true) ->
            cleanupSyncedConsults now' swept = (0, swept)).
  { intros now' Hm.
    assert (Hno : forall e, In e (offlineConsults swept) -> expired now' e = false).
    { intros e He. unfold swept in He. rewrite cleanup_rows in He.
      apply filter_In in He as [_ He]. destruct (expired now' e) eqn:E; [|reflexivity].
      rewrite (Hm e E) in He. discriminate. }
    rewrite cleanup_eq. rewrite (filter_none _ _ Hno).
    rewrite filter_all by (intros e He; rewrite (Hno e He); reflexivity).
    rewrite setOfflineConsults_same. reflexivity. }
  split; [|split].
  - rewrite cleanup_count. unfold swept. rewrite cleanup_rows.
    rewrite (filter_length_split (expired now) (offlineConsults db)). lia.
  - apply Idem. auto.
  - intros now' H1 H2 H3. split.
    + unfold swept. rewrite !cleanup_eq. cbn [snd]. unfold setOfflineConsults.
      cbn [offlineConsults offlineConsultsNextId cachedConsults cachedSchedule].
      f_equal. rewrite filter_filter_and. apply filter_ext_list. intros e _.
      destruct (expired now' e) eqn:E; simpl; [|reflexivity].
      rewrite (expired_mono now' now e H1 H2 H3 E). reflexivity.
    + apply Idem. intros e. apply expired_mono; assumption.
Qed.

Lemma cleanupSyncedConsults_sweeps_witness :
  7 * 86400000 <= Samples.now - Samples.day
  /\ Samples.now - Samples.day <= Samples.now
  /\ Samples.now <= JsDate.maxFourDigitTime
  /\ snd (cleanupSyncedConsults Samples.now
            (snd (cleanupSyncedConsults (Samples.now - Samples.day) Samples.aged)))
     = snd (cleanupSyncedConsults Samples.now Samples.aged).
Proof.
  assert (H1 : 7 * 86400000 <= Samples.now - Samples.day) by (vm_compute; discriminate).
  assert (H2 : Samples.now - Samples.day <= Samples.now) by (vm_compute; discriminate).
  assert (H3 : Samples.now <= JsDate.maxFourDigitTime) by (vm_compute; discriminate).
  split; [exact H1|]. split; [exact H2|]. split; [exact H3|].
  destruct (cleanupSyncedConsults_sweeps Samples.now Samples.aged) as (_ & _ & H).
  apply (proj1 (H (Samples.now - Samples.day) H1 H2 H3)).
Defined.

(** X17. Of records with one id the cache of consults keeps the last.
    For every list [X] of server records, [cacheConsults(X)] followed
    by [getCachedConsults()] returns exactly the records of [X] that
    carry a [created_at] and are the last of [X] with their id: each
    id once, the records ordered newest first, every record one of
    [X]. *)
Theorem cacheConsults_last_wins (X : list Consult.t) (db : Db) :
  let Y := getCachedConsults (cacheConsults X db) in
  (forall c, In c Y <->
             hasTimestamp c = true
             /\ lastWithKey Consult.id (Consult.id c) X = Some c)
  /\ NoDup (map Consult.id Y)
  /\ Sorted newerOrSame Y
  /\ (forall c, In c Y -> In c X).
Proof.
  intros Y. destruct (cached_view X db) as (Hin & Hnd & Hs).
  split; [exact Hin|]. split; [exact Hnd|]. split; [exact Hs|].
  intros c Hc. apply Hin in Hc as [_ Hc].
  apply (lastWithKey_Some Consult.id) in Hc. tauto.
Qed.

Lemma cacheConsults_last_wins_witness :
  In (Samples.consult 7 (Some "2024-02-29T10:30:00") "Ward 4")
    (getCachedConsults (cacheConsults Samples.sameId emptyDb))
  /\ In (Samples.consult 7 (Some "2024-02-29T10:30:00") "Ward 4") Samples.sameId.
Proof.
  assert (H : In (Samples.consult 7 (Some "2024-02-29T10:30:00") "Ward 4")
                (getCachedConsults (cacheConsults Samples.sameId emptyDb))).
  { left. reflexivity. }
  split; [exact H|].
  destruct (cacheConsults_last_wins Samples.sameId emptyDb) as (_ & _ & _ & G).
  apply G. exact H.
Defined.

(** X18. The cached schedule is read back in id order.  For every list
    [T] of schedule entries, [cacheSchedule(T)] followed by
    [getCachedSchedule()] returns the entries in ascending order of
    their ids, exactly those that are the last of [T] with their id,
    so no more than [T] has; the result is empty only when [T] is. *)
Theorem getCachedSchedule_by_id (T : list Schedule.t) (db : Db) :
  let Y := getCachedSchedule (cacheSchedule T db) in
  StronglySorted Z.lt (map Schedule.id Y)
  /\ (forall s, In s Y <-> lastWithKey Schedule.id (Schedule.id s) T = Some s)
  /\ (length Y <= length T)%nat
  /\ (Y = [] <-> T = []).
Proof.
  intros Y. destruct (cachedSchedule_view T db) as [Hs Hin].
  split; [exact Hs|]. split; [exact Hin|]. split.
  - rewrite <- (length_map Schedule.id Y), <- (length_map Schedule.id T).
    apply NoDup_incl_length.
    + apply NoDup_ListNoDup, StronglySorted_lt_NoDup, Hs.
    + intros k Hk. apply in_map_iff in Hk as (s & <- & Hk).
      apply Hin, (lastWithKey_Some Schedule.id) in Hk. apply in_map. tauto.
  - split.
    + intros E. destruct T as [|t T] using rev_ind; [reflexivity|].
      exfalso. assert (H : In t Y).
      { apply Hin. rewrite lastWithKey_snoc, Z.eqb_refl. reflexivity. }
      rewrite E in H. destruct H.
    + intros ->. reflexivity.
Qed.

Lemma getCachedSchedule_by_id_witness :
  In (Schedule.Make 1 "theatre" "tuesday" ∅)
    (getCachedSchedule (cacheSchedule Samples.slots emptyDb))
  /\ map Schedule.id (getCachedSchedule (cacheSchedule Samples.slots emptyDb)) = [1; 2].
Proof.
  split; [|reflexivity].
  destruct (getCachedSchedule_by_id Samples.slots emptyDb) as (_ & H & _).
  apply H. reflexivity.
Defined.

End StoreProperties.

(** ** Properties of the provider and of the pages *)

Section UiProperties.
Import OfflineDb Props Notions QueueFacts PassFacts OrderFacts StoreFacts CacheFacts ViewFacts.
Import Ui UiFacts ProviderNotions ProviderFacts.

(** X19. The guard of [attemptSync] and the pass it starts.  The guard
    reads the [syncing] of the last render.  When that value is true
    a call does nothing.  When it is false the call sets [syncing] and
    starts a pass over the entries that are pending at the call, also
    while a pass is in flight: a second call before a render starts a
    second pass over the same entries, and when the passes have
    returned, in whatever order they were resumed, the server has been
    handed the payload of each of these entries twice.  After a render
    the second call does nothing.  With nothing else in flight, and
    whenever the renders come, the pass of a call ends with the
    provider not syncing, its online flag unchanged, the store and the
    server as [syncAllPending] leaves them, no entry 'pending' and the
    pending count 0, whether the transmissions succeeded or failed;
    the header then shows the 'Online' badge when online (not the Sync
    button) and the 'Offline' badge when offline.  The pass of a
    further call after a render, at any time and with any server,
    shows no toast, leaves the server alone and only runs the
    retention sweep. *)
Theorem attemptSync_guard_and_pass {W : Type}
    (createPublic createPublic' : gmap string string -> W -> bool * W)
    (now now' : Z) (p : Provider W) :
  (captured p = true -> attemptSync p = p)
  /\ (captured p = false ->
      let pass :=
        MakePass (getPendingConsults (store (current p))) (MakeResult 0 0) Read in
      syncing (status (current (attemptSync p))) = true
      /\ running (attemptSync p) = running p ++ [pass]
      /\ running (attemptSync (attemptSync p)) = running p ++ [pass; pass]
      /\ captured (render (attemptSync p)) = true
      /\ attemptSync (render (attemptSync p)) = render (attemptSync p))
  /\ (captured p = false -> running p = [] ->
      forall (handed : list (gmap string string)) (evs : list Event),
        forallb (fun ev => negb (callsAttemptSync ev)) evs = true ->
        let q :=
          MakeProvider
            (MakeApp (status (current p)) (toasts (current p)) (store (current p))
               (world (current p), handed))
            false [] in
        let q2 := run (logged createPublic) evs (attemptSync (attemptSync q)) in
        running q2 = [] ->
        Permutation (snd (world (current q2)))
          (handed
           ++ map Entry.data (getPendingConsults (store (current p)))
           ++ map Entry.data (getPendingConsults (store (current p)))))
  /\ (captured p = false -> running p = [] ->
      forall evs : list Event,
        rendersAndResumes now evs ->
        (3 * length (getPendingConsults (store (current p))) + 2 <= resumptions evs)%nat ->
        let p1 := run createPublic evs (attemptSync p) in
        let pass :=
          syncAllPending createPublic now (store (current p)) (world (current p)) in
        running p1 = []
        /\ status (current p1) = MakeStatus (isOnline (status (current p))) 0 false
        /\ store (current p1) = snd (fst pass)
        /\ world (current p1) = snd pass
        /\ getPendingConsults (store (current p1)) = []
        /\ (isOnline (status (current p)) = true ->
            indicator (status (current p1)) = [OnlineBadge])
        /\ (isOnline (status (current p)) = false ->
            indicator (status (current p1)) = [OfflineBadge])
        /\ forall (w' : W) (evs' : list Event),
             rendersAndResumes now' evs' ->
             (2 <= resumptions evs')%nat ->
             let p2 :=
               run createPublic' evs'
                 (attemptSync
                    (render
                       (MakeProvider
                          (MakeApp (status (current p1)) (toasts (current p1))
                             (store (current p1)) w')
                          (captured p1) []))) in
             running p2 = []
             /\ current p2
                = MakeApp (status (current p1)) (toasts (current p1))
                    (snd (cleanupSyncedConsults now' (store (current p1)))) w').
Proof.
  split; [intros Hc; unfold attemptSync; rewrite Hc; reflexivity|].
  split.
  { intros Hc pass. unfold attemptSync at 1 2 3. rewrite Hc.
    cbn [current status syncing running].
    split; [reflexivity|]. split; [reflexivity|]. split.
    { unfold attemptSync. cbn [captured current store running]. rewrite Hc.
      cbn [running current store]. rewrite <- app_assoc. reflexivity. }
    assert (Hr : captured (render (attemptSync p)) = true).
    { unfold render, attemptSync. rewrite Hc. reflexivity. }
    split; [exact Hr|]. unfold attemptSync at 1. rewrite Hr. reflexivity. }
  split.
  { intros Hc Hr handed evs Hevs q q2 Hdone.
    pose proof (handedAndOwed_run createPublic evs Hevs (attemptSync (attemptSync q)))
      as HP.
    fold q2 in HP. unfold handedAndOwed in HP. rewrite Hdone in HP.
    cbn [map concat] in HP. rewrite app_nil_r in HP.
    rewrite HP. unfold q, attemptSync. cbn [captured current running store world snd app].
    unfold owed. cbn [map concat point rest]. rewrite app_nil_r. reflexivity. }
  intros Hc Hr evs Hevs Hn p1 pass.
  destruct (attemptSync_pass createPublic now p evs Hc Hr Hevs Hn) as [E1 E2].
  fold p1 in E1, E2.
  assert (Hnp : getPendingConsults (store (current p1)) = []).
  { rewrite E1. apply pass_no_pending. }
  split; [exact E2|]. split; [rewrite E1; reflexivity|].
  split; [rewrite E1; reflexivity|]. split; [rewrite E1; reflexivity|].
  split; [exact Hnp|].
  split; [rewrite E1; cbn [afterPass status]; intros ->; reflexivity|].
  split; [rewrite E1; cbn [afterPass status]; intros ->; reflexivity|].
  intros w' evs' Hevs' Hn'.
  set (q := MakeProvider
              (MakeApp (status (current p1)) (toasts (current p1)) (store (current p1)) w')
              (captured p1) []).
  assert (Hs : syncing (status (current p1)) = false) by (rewrite E1; reflexivity).
  assert (Hcount : pendingCount (status (current p1)) = 0) by (rewrite E1; reflexivity).
  assert (Hq : render q
               = MakeProvider
                   (MakeApp (status (current p1)) (toasts (current p1))
                      (store (current p1)) w') false []).
  { unfold render, q. cbn [current status captured running]. rewrite Hs.
    destruct (captured p1); cbn [Bool.eqb]; [|reflexivity].
    unfold refreshPendingCount. cbn [status toasts store world]. rewrite Hnp.
    cbn [length Z.of_nat]. f_equal. f_equal.
    destruct (status (current p1)) as [o n s]. cbn in *. subst. reflexivity. }
  rewrite Hq. cbv zeta.
  destruct (attemptSync_pass createPublic' now'
              (MakeProvider
                 (MakeApp (status (current p1)) (toasts (current p1))
                    (store (current p1)) w') false []) evs' eq_refl eq_refl Hevs')
    as [F1 F2].
  { cbn [current store]. rewrite Hnp. exact Hn'. }
  split; [exact F2|]. rewrite F1. unfold afterPass. cbn [current status toasts store world].
  rewrite (syncAllPending_spec createPublic' now'). rewrite Hnp.
  cbn [fst snd outcomes count combine fold_left worldAfter syncToasts synced failed].
  unfold syncToasts. cbn. rewrite !app_nil_r.
  f_equal. destruct (status (current p1)) as [o n s]. cbn in *. subst. reflexivity.
Qed.

Lemma attemptSync_guard_and_pass_witness :
  captured MoreSamples.onlineProvider = false
  /\ running MoreSamples.onlineProvider = []
  /\ isOnline (status (current MoreSamples.onlineProvider)) = true
  /\ indicator (status (current MoreSamples.onlineProvider)) = [SyncButton 3 false]
  /\ indicator
       (status
          (current
             (run (logged Samples.secondThrows)
                (Render :: repeat (Resume 0 Samples.now) 11 ++ [Render])
                (attemptSync MoreSamples.onlineProvider))))
     = [OnlineBadge]
  /\ Permutation
       (map (fun d => d !! "ward")
          (snd (world (current (run (logged Samples.secondThrows) MoreSamples.inTurn
                                  (attemptSync (attemptSync MoreSamples.onlineProvider)))))))
       (map (fun d => d !! "ward")
          (map Entry.data (getPendingConsults (store (current MoreSamples.onlineProvider)))
           ++ map Entry.data (getPendingConsults (store (current MoreSamples.onlineProvider))))).
Proof.
  split; [reflexivity|]. split; [reflexivity|]. split; [reflexivity|].
  split; [reflexivity|]. split.
  - destruct (attemptSync_guard_and_pass
                (logged Samples.secondThrows) (logged Samples.secondThrows)
                Samples.now Samples.now MoreSamples.onlineProvider) as (_ & _ & _ & H).
    destruct (H eq_refl eq_refl
                (Render :: repeat (Resume 0 Samples.now) 11 ++ [Render]))
      as (_ & _ & _ & _ & _ & G & _).
    + unfold rendersAndResumes. cbn [repeat app].
      repeat (constructor; [first [left; reflexivity | right; reflexivity]|]).
      constructor.
    + vm_compute. lia.
    + apply G. reflexivity.
  - apply Permutation_map.
    destruct (attemptSync_guard_and_pass
                Samples.secondThrows Samples.secondThrows
                Samples.now Samples.now
                (mount true MoreSamples.threeWards 0%nat)) as (_ & _ & H & _).
    apply (H eq_refl eq_refl [] MoreSamples.inTurn); vm_compute; reflexivity.
Defined.

(** X20. A consult submitted offline reaches the server on
    reconnection.  With the page rendered offline, nothing in flight,
    a store as Dexie keeps it and a local save that succeeds,
    [onSubmit] does not call the server; the result of the form is the
    offline one, which carries the client id and the receipt time; the
    confirmation screen has the heading 'Consult Saved Offline' and
    renders no 'Consult ID' block, so the client id is not displayed;
    the pending count goes up by one and the header shows the
    'Offline' badge.  When the window then goes online, the provider
    is online and a pass is started; with nothing else in flight, and
    whenever the renders come, the pass hands the server the payloads
    of the entries that were pending before, in order, and last the
    payload of the form with [client_id] set to the client id of the
    result; the pending count is then 0. *)
Theorem offline_submission_reaches_server {W : Type}
    (create : gmap string string -> W -> option (gmap string string) * W)
    (createPublic : gmap string string -> W -> bool * W)
    (first second : Saving) (now : Z)
    (data : gmap string string) (p : Provider W) (evs : list Event) :
  isOnline (status (current p)) = false ->
  captured p = false -> running p = [] ->
  wfDb (store (current p)) ->
  added first = true ->
  rendersAndResumes now evs ->
  (3 * (length (getPendingConsults (store (current p))) + 1) + 2 <= resumptions evs)%nat ->
  let submitted := onSubmit create false first second data (current p) in
  let app1 := snd submitted in
  let clientId :=
    "offline-" +:+ Js.ofInt (dateNow first) +:+ "-" +:+ Js.slice 2 9 (random first) in
  let shown := OfflineResult clientId (JsDate.toISOString (receivedAt first)) in
  result (fst submitted) = Some shown
  /\ confirmation shown = MakeConfirmation "Consult Saved Offline" None false
  /\ world app1 = world (current p)
  /\ pendingCount (status app1)
     = Z.of_nat (length (getPendingConsults (store (current p)))) + 1
  /\ indicator (status app1) = [OfflineBadge]
  /\ let p2 :=
       handleOnline
         (MakeProvider
            (MakeApp (status app1) (toasts app1) (store app1) (world app1, []))
            (captured p) (running p)) in
     let p3 := run (logged createPublic) evs p2 in
     isOnline (status (current p2)) = true
     /\ length (running p2) = 1%nat
     /\ running p3 = []
     /\ snd (world (current p3))
        = map Entry.data (getPendingConsults (store (current p)))
          ++ [<["client_id" := clientId]> data]
     /\ pendingCount (status (current p3)) = 0
     /\ isOnline (status (current p3)) = true.
Proof.
  intros Hoff Hc Hr Hwf Hadd Hevs Hn submitted app1 clientId shown.
  assert (E : submitted
              = (MakeForm (Some shown) false,
                 refreshPendingCount
                   (MakeApp (status (current p))
                      (toasts (current p)
                       ++ [ToastPlain "Consult saved offline. Will sync when online."])
                      (snd (saveOfflineConsult (dateNow first) (newDate first)
                              (random first) data (store (current p))))
                      (world (current p))))).
  { unfold submitted, onSubmit, saveLocally. rewrite Hadd. reflexivity. }
  pose proof (saveOfflineConsult_rows (dateNow first) (newDate first) (random first)
                data (store (current p)) Hwf) as Hrows.
  assert (Ep : getPendingConsults (store app1)
               = getPendingConsults (store (current p))
                 ++ [Entry.Make (offlineConsultsNextId (store (current p))) clientId
                       (<["client_id" := clientId]> data) Entry.pending
                       (JsDate.toISOString (newDate first)) 0]).
  { assert (Es : store app1
                 = snd (saveOfflineConsult (dateNow first) (newDate first)
                          (random first) data (store (current p)))).
    { unfold app1. rewrite E. reflexivity. }
    unfold getPendingConsults. rewrite Es, Hrows, List.filter_app. reflexivity. }
  split; [rewrite E; reflexivity|]. split; [reflexivity|].
  split; [unfold app1; rewrite E; reflexivity|].
  split.
  { assert (Ec : pendingCount (status app1)
                 = Z.of_nat (length (getPendingConsults (store app1)))).
    { unfold app1. rewrite E. reflexivity. }
    rewrite Ec, Ep, length_app. simpl. lia. }
  split.
  { unfold app1. rewrite E. unfold refreshPendingCount, indicator.
    cbn [fst snd status isOnline]. rewrite Hoff. reflexivity. }
  intros p2 p3.
  set (q := MakeProvider
              (MakeApp
                 (MakeStatus true (pendingCount (status app1)) (syncing (status app1)))
                 (toasts app1 ++ [ToastSuccess "You are back online!"])
                 (store app1) (world app1, @nil (gmap string string)))
              (captured p) (running p)).
  assert (E2 : p2 = attemptSync q) by reflexivity.
  assert (Hcq : captured q = false) by exact Hc.
  assert (Hrq : running q = []) by exact Hr.
  split; [rewrite E2; unfold attemptSync; rewrite Hcq; reflexivity|].
  split; [rewrite E2; unfold attemptSync; rewrite Hcq, Hrq; reflexivity|].
  destruct (attemptSync_pass (logged createPublic) now q evs Hcq Hrq Hevs) as [F1 F2].
  { unfold q. cbn [current store]. rewrite Ep, length_app. simpl length. lia. }
  unfold p3. rewrite E2. split; [exact F2|]. rewrite F1.
  unfold afterPass. cbn [current status toasts store world pendingCount isOnline].
  split; [|split; reflexivity].
  rewrite syncAllPending_spec. cbn [snd]. unfold q. cbn [current store world].
  rewrite worldAfter_logged. cbn [snd]. rewrite app_nil_l.
  rewrite Ep, map_app. reflexivity.
Qed.

Lemma offline_submission_reaches_server_witness :
  isOnline (status (current MoreSamples.offlineProvider)) = false
  /\ captured MoreSamples.offlineProvider = false
  /\ running MoreSamples.offlineProvider = []
  /\ wfDb (store (current MoreSamples.offlineProvider))
  /\ added MoreSamples.saving = true
  /\ result (fst (onSubmit MoreSamples.noCreate false MoreSamples.saving MoreSamples.savingFails
                    MoreSamples.formData (current MoreSamples.offlineProvider)))
     = Some (OfflineResult "offline-1709210096789-4fzyo82"
               (JsDate.toISOString 1709210096791)).
Proof.
  assert (Hwf : wfDb (store (current MoreSamples.offlineProvider))).
  { split; simpl; constructor. }
  split; [reflexivity|]. split; [reflexivity|]. split; [reflexivity|].
  split; [exact Hwf|]. split; [reflexivity|].
  destruct (offline_submission_reaches_server MoreSamples.noCreate
              (fun _ w => (true, w)) MoreSamples.saving MoreSamples.savingFails Samples.now
              MoreSamples.formData MoreSamples.offlineProvider
              (Render :: repeat (Resume 0 Samples.now) 5)
              eq_refl eq_refl eq_refl Hwf eq_refl) as (H & _).
  - unfold rendersAndResumes. cbn [repeat].
    repeat (constructor; [first [left; reflexivity | right; reflexivity]|]).
    constructor.
  - vm_compute. lia.
  - exact H.
Defined.

(** X21. Every submission is accepted, queued or reported as failed.
    After [onSubmit], one of three holds.  Either the page was online,
    the server acknowledged the consult and the result of the form is
    its acknowledgement, whose [consult_id] the confirmation screen
    shows, the store unchanged.  Or a call of [saveOfflineConsult]
    fulfilled: the result of the form is an offline one with the
    client id of that call, which the confirmation screen does not
    display, the queue holds a pending entry with that client id whose
    payload is the form with [client_id] set to it, and the pending
    count is positive.  Or the last call of [saveOfflineConsult]
    threw: the result stays empty, so the form stays on screen, the
    store is unchanged and the last toast is the error 'Failed to save
    consult. Please try again.'.  Offline the server is not called;
    online the local save is tried only when the request to the server
    failed.  When the save in the [try] block throws, it is tried once
    more in the [catch] block. *)
Theorem onSubmit_outcomes {W : Type}
    (create : gmap string string -> W -> option (gmap string string) * W)
    (online : bool) (first second : Saving)
    (data : gmap string string) (app : App W) :
  let submitted := onSubmit create online first second data app in
  let app1 := snd submitted in
  let clientIdOf (s : Saving) :=
    "offline-" +:+ Js.ofInt (dateNow s) +:+ "-" +:+ Js.slice 2 9 (random s) in
  ((exists ack, result (fst submitted) = Some (OnlineResult ack)
      /\ online = true
      /\ create data (world app) = (Some ack, world app1)
      /\ store app1 = store app
      /\ consultIdBlock (confirmation (OnlineResult ack)) = Some (ack !! "consult_id"))
   \/ (exists s e,
         (s = second \/ (s = first /\ online = false))
         /\ added s = true
         /\ result (fst submitted)
            = Some (OfflineResult (clientIdOf s) (JsDate.toISOString (receivedAt s)))
         /\ consultIdBlock
              (confirmation
                 (OfflineResult (clientIdOf s) (JsDate.toISOString (receivedAt s))))
            = None
         /\ In e (getPendingConsults (store app1))
         /\ Entry.clientId e = clientIdOf s
         /\ Entry.data e = <["client_id" := clientIdOf s]> data
         /\ 0 < pendingCount (status app1))
   \/ (result (fst submitted) = None
       /\ added second = false
       /\ store app1 = store app
       /\ status app1 = status app
       /\ toasts app1
          = toasts app ++ [ToastError "Failed to save consult. Please try again."]))
  /\ (online = true ->
      (forall ack w', create data (world app) = (Some ack, w') ->
         result (fst submitted) = Some (OnlineResult ack))
      /\ exists r, create data (world app) = (r, world app1))
  /\ (online = false -> world app1 = world app)
  /\ (online = false -> added first = true ->
      result (fst submitted)
      = Some (OfflineResult (clientIdOf first) (JsDate.toISOString (receivedAt first))))
  /\ (online = false -> added first = false -> added second = true ->
      result (fst submitted)
      = Some (OfflineResult (clientIdOf second) (JsDate.toISOString (receivedAt second)))).
Proof.
  intros submitted app1 clientIdOf.
  assert (Q : forall (s : Saving) (message : string) (app0 : App W),
    added s = true ->
    exists saved, saveLocally s data message app0 = Some saved
      /\ result (fst saved)
         = Some (OfflineResult (clientIdOf s) (JsDate.toISOString (receivedAt s)))
      /\ (exists e, In e (getPendingConsults (store (snd saved)))
            /\ Entry.clientId e = clientIdOf s
            /\ Entry.data e = <["client_id" := clientIdOf s]> data)
      /\ 0 < pendingCount (status (snd saved))
      /\ world (snd saved) = world app0).
  { intros s message app0 Hadd. unfold saveLocally. rewrite Hadd.
    set (e := Entry.Make (offlineConsultsNextId (store app0)) (clientIdOf s)
                (<["client_id" := clientIdOf s]> data) Entry.pending
                (JsDate.toISOString (newDate s)) 0).
    eexists. split; [reflexivity|]. cbn [fst snd result].
    assert (Hin : In e (getPendingConsults
                          (snd (saveOfflineConsult (dateNow s) (newDate s) (random s)
                                  data (store app0))))).
    { unfold getPendingConsults, saveOfflineConsult, Dexie.add.
      cbn [fst snd offlineConsults].
      apply filter_In. split; [apply In_put | reflexivity]. }
    split; [reflexivity|]. split; [exists e; repeat split; exact Hin|].
    split; [|reflexivity].
    unfold refreshPendingCount. cbn [status pendingCount store].
    destruct (getPendingConsults _); [destruct Hin | simpl; lia]. }
  assert (C : forall app0 : App W,
    let caught :=
      match saveLocally second data "Server error — saved offline instead." app0 with
      | Some saved => saved
      | None =>
          (MakeForm None false,
           MakeApp (status app0)
             (toasts app0 ++ [ToastError "Failed to save consult. Please try again."])
             (store app0) (world app0))
      end in
    world (snd caught) = world app0
    /\ (added second = true ->
        result (fst caught)
        = Some (OfflineResult (clientIdOf second)
                  (JsDate.toISOString (receivedAt second)))
        /\ (exists e, In e (getPendingConsults (store (snd caught)))
              /\ Entry.clientId e = clientIdOf second
              /\ Entry.data e = <["client_id" := clientIdOf second]> data)
        /\ 0 < pendingCount (status (snd caught)))
    /\ (added second = false ->
        result (fst caught) = None
        /\ store (snd caught) = store app0
        /\ status (snd caught) = status app0
        /\ toasts (snd caught)
           = toasts app0 ++ [ToastError "Failed to save consult. Please try again."])).
  { intros app0. destruct (added second) eqn:Hadd.
    - destruct (Q second "Server error — saved offline instead." app0 Hadd)
        as (saved & -> & H1 & H2 & H3 & H4).
      cbv zeta. split; [exact H4|]. split; [auto | discriminate].
    - unfold saveLocally. rewrite Hadd. cbv zeta. cbn [fst snd result store status toasts world].
      split; [reflexivity|]. split; [discriminate | auto]. }
  unfold app1, submitted, onSubmit. destruct online.
  - destruct (create data (world app)) as [[ack|] w'] eqn:Hc.
    + cbn [fst snd result world store]. split.
      * left. exists ack. auto.
      * split; [|split; [discriminate|split; discriminate]].
        intros _. split; [intros ack' w'' [= <- _]; reflexivity | eauto].
    + destruct (C (MakeApp (status app) (toasts app) (store app) w'))
        as (Cw & Cok & Cno). cbv zeta in Cw, Cok, Cno. cbn [world store status toasts] in *.
      split.
      * destruct (added second) eqn:Hadd.
        -- right; left. destruct (Cok eq_refl) as (H1 & (e & H2 & H3 & H4) & H5).
           exists second, e. split; [left; reflexivity|]. split; [exact Hadd|].
           split; [exact H1|]. split; [reflexivity|]. split; [exact H2|].
           split; [exact H3|]. split; [exact H4 | exact H5].
        -- right; right. destruct (Cno eq_refl) as (H1 & H2 & H3 & H4).
           split; [exact H1|]. split; [reflexivity|]. split; [exact H2|].
           split; [exact H3 | exact H4].
      * split; [|split; [discriminate|split; discriminate]].
        intros _. split; [intros ack' w'' [=] | exists None; rewrite Cw; reflexivity].
  - destruct (added first) eqn:Hadd1.
    + destruct (Q first "Consult saved offline. Will sync when online." app Hadd1)
        as (saved & -> & H1 & (e & H2 & H3 & H4) & H5 & H6).
      split.
      * right; left. exists first, e. split; [right; split; reflexivity|].
        split; [exact Hadd1|]. split; [exact H1|]. split; [reflexivity|].
        split; [exact H2|]. split; [exact H3|]. split; [exact H4 | exact H5].
      * split; [discriminate|]. split; [intros _; exact H6|].
        split; [intros _ _; exact H1 | discriminate].
    + assert (E1 : saveLocally first data
                     "Consult saved offline. Will sync when online." app = None)
        by (unfold saveLocally; rewrite Hadd1; reflexivity).
      rewrite E1.
      destruct (C app) as (Cw & Cok & Cno). cbv zeta in Cw, Cok, Cno.
      split.
      * destruct (added second) eqn:Hadd.
        -- right; left. destruct (Cok eq_refl) as (H1 & (e & H2 & H3 & H4) & H5).
           exists second, e. split; [left; reflexivity|]. split; [exact Hadd|].
           split; [exact H1|]. split; [reflexivity|]. split; [exact H2|].
           split; [exact H3|]. split; [exact H4 | exact H5].
        -- right; right. destruct (Cno eq_refl) as (H1 & H2 & H3 & H4).
           split; [exact H1|]. split; [reflexivity|]. split; [exact H2|].
           split; [exact H3 | exact H4].
      * split; [discriminate|]. split; [intros _; exact Cw|].
        split; [discriminate|]. intros _ _ Hadd. apply (Cok Hadd).
Qed.

Lemma onSubmit_outcomes_witness :
  result (fst (onSubmit MoreSamples.noCreate true MoreSamples.saving MoreSamples.savingFails
                 MoreSamples.formData (current MoreSamples.offlineProvider))) = None
  /\ toasts (snd (onSubmit MoreSamples.noCreate true MoreSamples.saving MoreSamples.savingFails
                    MoreSamples.formData (current MoreSamples.offlineProvider)))
     = [ToastError "Failed to save consult. Please try again."]
  /\ result (fst (onSubmit MoreSamples.noCreate false MoreSamples.savingFails MoreSamples.saving
                    MoreSamples.formData (current MoreSamples.offlineProvider)))
     = Some (OfflineResult "offline-1709210096789-4fzyo82"
               (JsDate.toISOString 1709210096791)).
Proof.
  split; [reflexivity|]. split; [reflexivity|].
  destruct (onSubmit_outcomes MoreSamples.noCreate false MoreSamples.savingFails MoreSamples.saving
              MoreSamples.formData (current MoreSamples.offlineProvider)) as (_ & _ & _ & _ & H).
  apply H; reflexivity.
Defined.

(** X22. What the consult list shows offline.  After a fetch that the
    server answered with the records [X] and the total [n], the page
    shows [X] and [n].  A fetch while offline, as well as a fetch while
    online that fails, then leaves the store alone and shows the cached
    list: the records of [X] that carry a [created_at], one per id (the
    last of [X]), newest first, with their number as the total, which
    is at most the length of [X] and not the total of the server.  When
    the ids of [X] are distinct and every record carries a
    [created_at], these are the records of [X].  What an earlier fetch
    had cached is gone. *)
Theorem fetchConsults_offline_view (X X' : list Consult.t) (n n' : Z)
    (reply : Reply (list Consult.t * Z)) (db : Db) :
  let online := fetchConsults true (Resolved (X, n)) db in
  let offline := fetchConsults false reply (snd online) in
  fst online = MakeListPage X n false
  /\ snd offline = snd online
  /\ fetchConsults true Failed (snd online) = offline
  /\ total (fst offline) = Z.of_nat (length (consults (fst offline)))
  /\ (length (consults (fst offline)) <= length X)%nat
  /\ (forall c, In c (consults (fst offline)) <->
                hasTimestamp c = true
                /\ lastWithKey Consult.id (Consult.id c) X = Some c)
  /\ Sorted newerOrSame (consults (fst offline))
  /\ (NoDup (map Consult.id X) -> Forall (fun c => hasTimestamp c = true) X ->
      Permutation X (consults (fst offline))
      /\ total (fst offline) = Z.of_nat (length X))
  /\ fst (fetchConsults false reply
            (snd (fetchConsults true (Resolved (X, n))
                    (snd (fetchConsults true (Resolved (X', n')) db)))))
     = fst offline.
Proof.
  intros online offline.
  assert (E : consults (fst offline) = getCachedConsults (cacheConsults X db)) by reflexivity.
  destruct (cached_view X db) as (Hin & Hnd & Hs).
  split; [reflexivity|]. split; [reflexivity|]. split; [reflexivity|].
  split; [reflexivity|]. split; [rewrite E; apply cached_view_length|].
  split; [rewrite E; exact Hin|]. split; [rewrite E; exact Hs|]. split.
  - intros HX Hall. pose proof (cached_view_Permutation X db HX Hall) as P.
    split; [rewrite E; exact P|].
    change (total (fst offline))
      with (Z.of_nat (length (getCachedConsults (cacheConsults X db)))).
    rewrite <- (Permutation_length P). reflexivity.
  - unfold offline, online, fetchConsults, cachedList. cbn [fst snd].
    rewrite (cached_view_independent X _ db). reflexivity.
Qed.

Lemma fetchConsults_offline_view_witness :
  NoDup (map Consult.id Samples.listed)
  /\ Forall (fun c => hasTimestamp c = true) Samples.listed
  /\ total (fst (fetchConsults false Failed
                   (snd (fetchConsults true (Resolved (Samples.listed, 57)) emptyDb))))
     = 3.
Proof.
  assert (H1 : NoDup (map Consult.id Samples.listed)).
  { apply (bool_decide_unpack _). vm_compute. exact I. }
  assert (H2 : Forall (fun c => hasTimestamp c = true) Samples.listed).
  { repeat constructor. }
  split; [exact H1|]. split; [exact H2|].
  destruct (fetchConsults_offline_view Samples.listed [] 57 0 Failed emptyDb)
    as (_ & _ & _ & _ & _ & _ & _ & H & _).
  apply (proj2 (H H1 H2)).
Defined.

(** X23. What the dashboard shows offline.  After the consult list has
    cached the records [X], the dashboard offline (or online with a
    failed request) shows at most five consults, all records of [X]
    with a [created_at], newest first, and every cached consult it
    does not show is no newer than those it shows; the statistics are
    left as they were. *)
Theorem fetchData_offline_newest_five (X : list Consult.t) (n : Z)
    (reply : Reply (gmap string string * list Consult.t * gmap string string))
    (page : Dashboard) (db : Db) :
  let db1 := snd (fetchConsults true (Resolved (X, n)) db) in
  let shown := recentConsults (fetchData false reply page db1) in
  fetchData true Failed page db1 = fetchData false reply page db1
  /\ (length shown <= 5)%nat
  /\ (forall c, In c shown -> In c X /\ hasTimestamp c = true)
  /\ Sorted newerOrSame shown
  /\ (forall a b, In a shown -> In b (getCachedConsults db1) -> ~ In b shown ->
        newerOrSame a b)
  /\ stats (fetchData false reply page db1) = stats page.
Proof.
  intros db1 shown.
  assert (E : shown = firstn 5 (getCachedConsults (cacheConsults X db))) by reflexivity.
  assert (Ec : getCachedConsults db1 = getCachedConsults (cacheConsults X db)) by reflexivity.
  destruct (cached_view X db) as (Hin & Hnd & Hs).
  set (Y := getCachedConsults (cacheConsults X db)) in *.
  assert (HSS : StronglySorted newerOrSame Y).
  { apply Sorted_StronglySorted; [|exact Hs].
    intros a b c. apply newerOrSame_trans. }
  split; [reflexivity|]. split; [rewrite E; apply firstn_le_length|]. split; [|split; [|split]].
  - intros c Hc. rewrite E in Hc.
    assert (HY : In c Y).
    { rewrite <- (firstn_skipn 5 Y). apply in_or_app. left. exact Hc. }
    apply Hin in HY as [Ht Hl]. apply (lastWithKey_Some Consult.id) in Hl. tauto.
  - rewrite E. apply StronglySorted_Sorted.
    clear -HSS. generalize 5%nat as k. induction HSS as [|x l Hl IH Hx]; intros k.
    + rewrite firstn_nil. constructor.
    + destruct k as [|k]; simpl; [constructor|]. constructor; [apply IH|].
      apply List.Forall_forall. intros y Hy. rewrite List.Forall_forall in Hx. apply Hx.
      rewrite <- (firstn_skipn k l). apply in_or_app. left. exact Hy.
  - intros a b Ha Hb Hnb. rewrite Ec in Hb. rewrite E in Ha, Hnb.
    apply (firstn_skipn_sorted newerOrSame 5 Y HSS a b Ha).
    rewrite <- (firstn_skipn 5 Y) in Hb. apply in_app_or in Hb as [Hb|Hb]; [contradiction | exact Hb].
  - reflexivity.
Qed.

Lemma fetchData_offline_newest_five_witness :
  recentConsults
    (fetchData false Failed (MakeDashboard None [] None true)
       (snd (fetchConsults true (Resolved (Samples.listed, 57)) emptyDb)))
  = [Samples.consult 9 (Some "2024-02-29T10:30:00") "Ward 4";
     Samples.consult 8 (Some "2024-02-28T17:45:00") "ICU";
     Samples.consult 7 (Some "2024-02-27T08:00:00") "A&E"]
  /\ In (Samples.consult 9 (Some "2024-02-29T10:30:00") "Ward 4") Samples.listed.
Proof.
  assert (E : recentConsults
                (fetchData false Failed (MakeDashboard None [] None true)
                   (snd (fetchConsults true (Resolved (Samples.listed, 57)) emptyDb)))
              = [Samples.consult 9 (Some "2024-02-29T10:30:00") "Ward 4";
                 Samples.consult 8 (Some "2024-02-28T17:45:00") "ICU";
                 Samples.consult 7 (Some "2024-02-27T08:00:00") "A&E"])
    by (vm_compute; reflexivity).
  split; [exact E|].
  destruct (fetchData_offline_newest_five Samples.listed 57 Failed
              (MakeDashboard None [] None true) emptyDb) as (_ & _ & H & _).
  apply H. rewrite E. left. reflexivity.
Defined.

(** X24. The schedule page falls back to the cache.  After a load that
    both requests answered, the page shows the schedule [T] of the
    server and nothing is toasted.  A later load in which either
    request fails (also when only the request for today fails and the
    schedule was fetched) leaves the store alone and keeps today's
    information; when [T] is not empty it shows the cached schedule,
    which is [T] in id order with one entry per id, and toasts
    'Showing cached schedule'; when [T] is empty it shows the schedule
    as it was and toasts 'Failed to load schedule'. *)
Theorem load_falls_back_to_cache (T : list Schedule.t) (t : gmap string string)
    (schedRes : Reply (list Schedule.t)) (todayRes : Reply (gmap string string))
    (page : SchedulePage) (shown : list Toast) (db : Db) :
  todayRes = Failed \/ schedRes = Failed ->
  let loaded := load (Resolved T) (Resolved t) page shown db in
  let again := load schedRes todayRes (fst (fst loaded)) (snd (fst loaded)) (snd loaded) in
  fst loaded = (MakeSchedulePage T (Some t) false, shown)
  /\ snd again = snd loaded
  /\ todayInfo (fst (fst again)) = Some t
  /\ (T <> [] ->
      snd (fst again) = shown ++ [ToastPlain "Showing cached schedule"]
      /\ StronglySorted Z.lt (map Schedule.id (schedule (fst (fst again))))
      /\ (forall s, In s (schedule (fst (fst again))) <->
                    lastWithKey Schedule.id (Schedule.id s) T = Some s))
  /\ (T = [] ->
      snd (fst again) = shown ++ [ToastError "Failed to load schedule"]
      /\ schedule (fst (fst again)) = []).
Proof.
  intros Hfail loaded again.
  set (Y := getCachedSchedule (cacheSchedule T db)).
  assert (Ea : again
               = if (0 <? length Y)%nat
                 then (MakeSchedulePage Y (Some t) false,
                       shown ++ [ToastPlain "Showing cached schedule"],
                       cacheSchedule T db)
                 else (MakeSchedulePage T (Some t) false,
                       shown ++ [ToastError "Failed to load schedule"],
                       cacheSchedule T db)).
  { unfold again, loaded, load. cbn [fst snd schedule todayInfo]. fold Y.
    destruct Hfail as [-> | ->]; [destruct schedRes|]; reflexivity. }
  destruct (cachedSchedule_view T db) as [Hs Hin]. fold Y in Hs, Hin.
  split; [reflexivity|]. rewrite Ea.
  split; [destruct (0 <? length Y)%nat; reflexivity|].
  split; [destruct (0 <? length Y)%nat; reflexivity|]. split.
  - intros HT.
    assert (HY : (0 <? length Y)%nat = true).
    { destruct T as [|x T] using rev_ind; [contradiction|].
      assert (H : In x Y) by (apply Hin; rewrite lastWithKey_snoc, Z.eqb_refl; reflexivity).
      destruct Y; [destruct H | reflexivity]. }
    rewrite HY. cbn [fst snd schedule]. split; [reflexivity|].
    split; [exact Hs | exact Hin].
  - intros ->. split; reflexivity.
Qed.

Lemma load_falls_back_to_cache_witness :
  Samples.slots <> []
  /\ snd (fst (load (Resolved Samples.slots) Failed
                 (MakeSchedulePage Samples.slots (Some ∅) false) []
                 (cacheSchedule Samples.slots emptyDb)))
     = [ToastPlain "Showing cached schedule"].
Proof.
  assert (Hne : Samples.slots <> []) by discriminate.
  split; [exact Hne|].
  destruct (load_falls_back_to_cache Samples.slots ∅ (Resolved Samples.slots) Failed
              (MakeSchedulePage [] None true) [] emptyDb (or_introl eq_refl))
    as (_ & _ & _ & H & _).
  apply (proj1 (H Hne)).
Defined.

End UiProperties.

(** ** Properties of the session *)

Section SessionProperties.
Import Sw Notions SwFacts CacheStorageFacts.
Import Ui Auth AuthFacts.

(** X25. The session follows login and logout.  When [JSON.parse]
    reads back what [JSON.stringify] writes (never the empty string):
    after a login that returned a token that is not empty, the provider
    is authenticated, a reload of the page starts in the same state,
    and every request carries the header [Authorization: Bearer
    <token>].  After a logout, the provider is not authenticated, a
    reload starts logged out, requests carry no [Authorization] header
    of the client, and the other keys of [localStorage] are as before
    the login.  An answer 401 on a protected page (any path other
    than ['/'] and ['/login']) clears the storage like a logout and
    sends the window to ['/']; on the landing page and on the login
    page it changes nothing, and so does an error with another status
    or without a response.  A login that fails changes nothing. *)
Theorem login_logout_session (User : Type) (stringify : User -> string)
    (parse : string -> option User)
    (t : string) (u : User) (st : AuthState User) (ls : Storage)
    (headers : gmap string string) :
  (forall v, parse (stringify v) = Some v) ->
  (forall v, stringify v <> "") ->
  t <> "" ->
  let st1 := fst (login User stringify (Resolved (t, u)) st ls) in
  let ls1 := snd (login User stringify (Resolved (t, u)) st ls) in
  let st2 := fst (logout User ls1) in
  let ls2 := snd (logout User ls1) in
  isAuthenticated User st1 = true
  /\ init User parse ls1 = Some st1
  /\ requestInterceptor ls1 headers = <["Authorization" := "Bearer " +:+ t]> headers
  /\ isAuthenticated User st2 = false
  /\ init User parse ls2 = Some st2
  /\ requestInterceptor ls2 headers = headers
  /\ (forall k, k <> "ps_token" -> k <> "ps_user" -> ls2 !! k = ls !! k)
  /\ (forall pathname, pathname <> "/" -> pathname <> "/login" ->
        responseError (Some 401) pathname ls1 = (ls2, Some "/"))
  /\ responseError (Some 401) "/" ls1 = (ls1, None)
  /\ responseError (Some 401) "/login" ls1 = (ls1, None)
  /\ (forall status pathname, status <> Some 401 ->
        responseError status pathname ls1 = (ls1, None))
  /\ login User stringify Failed st ls = (st, ls).
Proof.
  intros Hps Hne Ht st1 ls1 st2 ls2.
  assert (Ht' : String.eqb t "" = false) by (apply String.eqb_neq, Ht).
  assert (L1 : ls1 !! "ps_token" = Some t).
  { unfold ls1, login. cbn [snd]. rewrite lookup_insert_ne by discriminate.
    apply lookup_insert_eq. }
  assert (L2 : ls1 !! "ps_user" = Some (stringify u)).
  { unfold ls1, login. cbn [snd]. apply lookup_insert_eq. }
  assert (L3 : ls2 !! "ps_token" = None).
  { unfold ls2, logout. cbn [snd]. rewrite lookup_delete_ne by discriminate.
    apply lookup_delete_eq. }
  assert (L4 : ls2 !! "ps_user" = None).
  { unfold ls2, logout. cbn [snd]. apply lookup_delete_eq. }
  split; [unfold st1, login, isAuthenticated; cbn; rewrite Ht'; reflexivity|].
  split.
  { unfold init. rewrite L2, L1. cbn.
    assert (Hs : String.eqb (stringify u) "" = false) by (apply String.eqb_neq, Hne).
    rewrite Hs. cbn. rewrite Hps. reflexivity. }
  split; [unfold requestInterceptor; rewrite L1; cbn; rewrite Ht'; reflexivity|].
  split; [reflexivity|].
  split; [unfold init; rewrite L4, L3; reflexivity|].
  split; [unfold requestInterceptor; rewrite L3; reflexivity|].
  split.
  { intros k H1 H2. unfold ls2, logout, ls1, login. cbn [snd].
    rewrite lookup_delete_ne by congruence. rewrite lookup_delete_ne by congruence.
    rewrite lookup_insert_ne by congruence. rewrite lookup_insert_ne by congruence.
    reflexivity. }
  split.
  { intros pathname H1 H2. unfold responseError. cbn.
    apply String.eqb_neq in H1, H2. rewrite H1, H2. reflexivity. }
  split; [reflexivity|]. split; [reflexivity|]. split; [|reflexivity].
  intros [z|] pathname Hz; [|reflexivity]. unfold responseError.
  destruct (Z.eqb_spec z 401) as [->|Hz']; [congruence | reflexivity].
Qed.

Lemma login_logout_session_witness :
  (forall v, MoreSamples.parseUnit (MoreSamples.stringifyUnit v) = Some v)
  /\ (forall v, MoreSamples.stringifyUnit v <> "")
  /\ "jwt" <> ""
  /\ requestInterceptor
       (snd (login unit MoreSamples.stringifyUnit (Resolved ("jwt", tt))
               (MakeAuth unit None None) ∅)) ∅
     = {[ "Authorization" := "Bearer jwt" ]}
  /\ responseError (Some 401) "/app/consults/new"
       (snd (login unit MoreSamples.stringifyUnit (Resolved ("jwt", tt))
               (MakeAuth unit None None) ∅))
     = (snd (logout unit
               (snd (login unit MoreSamples.stringifyUnit (Resolved ("jwt", tt))
                       (MakeAuth unit None None) ∅))),
        Some "/").
Proof.
  assert (H1 : forall v, MoreSamples.parseUnit (MoreSamples.stringifyUnit v) = Some v)
    by (intros []; reflexivity).
  assert (H2 : forall v, MoreSamples.stringifyUnit v <> "") by (intros v; discriminate).
  assert (H3 : "jwt" <> "") by discriminate.
  split; [exact H1|]. split; [exact H2|]. split; [exact H3|].
  destruct (login_logout_session unit MoreSamples.stringifyUnit MoreSamples.parseUnit
              "jwt" tt (MakeAuth unit None None) ∅ ∅ H1 H2 H3)
    as (_ & _ & H & _ & _ & _ & _ & H' & _).
  split; [exact H|]. apply H'; discriminate.
Defined.

(** X26. Starting the app offline.  When the provider mounts with a
    token and the network is down, the request [/api/auth/me] goes
    through [networkFirst].  If no cache holds it, the worker answers
    503, the request fails and the provider logs out: the token is
    removed from [localStorage].  If the network answered the request
    on an earlier start with an [ok] response [r] that the Cache
    interface takes (status other than 206, no [Vary] header listing
    [*]; with distinct cache names and no other cache holding the
    request), the worker answers from the api cache and the session is
    kept, with the user of [r].  If the earlier answer was one that
    the Cache interface refuses and no cache held the request, the
    start with the network down logs out as well. *)
Theorem offline_start_session (User : Type) (stringify : User -> string)
    (decode : string -> User) (selfOrigin : string)
    (fetch fetch' : Request -> FetchResult) (cs : CacheStorage)
    (st : AuthState User) (ls : Storage) (e : string) :
  Auth.truthy (token User st) = true ->
  fetch' (meRequest selfOrigin) = FetchError e ->
  let me (f : Request -> FetchResult) (c : CacheStorage) :=
    axiosGet (onFetch selfOrigin f (meRequest selfOrigin) c) (f (meRequest selfOrigin)) in
  (cachesMatch (url (meRequest selfOrigin)) cs = None ->
   me fetch' cs = (Failed, Some 503)
   /\ verifyOnMount User stringify (dataOf decode (fst (me fetch' cs))) st ls
      = logout User ls
   /\ (snd (logout User ls)) !! "ps_token" = None)
  /\ (forall r cs1,
        NoDup (keys cs) -> othersMiss API_CACHE (url (meRequest selfOrigin)) cs ->
        fetch (meRequest selfOrigin) = FetchResponse r ->
        ok r = true -> storable r = true ->
        onFetch selfOrigin fetch (meRequest selfOrigin) cs
        = RespondWith (Fulfilled (Some r), cs1) ->
        me fetch' cs1 = (Resolved (Sw.body r), Some (Sw.status r))
        /\ verifyOnMount User stringify (dataOf decode (fst (me fetch' cs1))) st ls
           = (MakeAuth User (Some (decode (Sw.body r))) (token User st),
              <["ps_user" := stringify (decode (Sw.body r))]> ls))
  /\ (forall r cs1,
        cachesMatch (url (meRequest selfOrigin)) cs = None ->
        fetch (meRequest selfOrigin) = FetchResponse r ->
        storable r = false ->
        onFetch selfOrigin fetch (meRequest selfOrigin) cs
        = RespondWith (Fulfilled (Some r), cs1) ->
        me fetch' cs1 = (Failed, Some 503)
        /\ verifyOnMount User stringify (dataOf decode (fst (me fetch' cs1))) st ls
           = logout User ls).
Proof.
  intros Htok Hoff me.
  assert (Hapi : forall f c,
            onFetch selfOrigin f (meRequest selfOrigin) c
            = RespondWith (networkFirst f (meRequest selfOrigin) API_CACHE c)).
  { intros f c. apply onFetch_api; reflexivity. }
  assert (Hout : forall c, cachesMatch (url (meRequest selfOrigin)) c = None ->
            me fetch' c = (Failed, Some 503)).
  { intros c Hmiss. unfold me. rewrite Hapi. unfold networkFirst.
    rewrite Hoff, Hmiss. reflexivity. }
  split; [|split].
  - intros Hmiss.
    split; [exact (Hout cs Hmiss)|]. split.
    + rewrite (Hout cs Hmiss). unfold verifyOnMount. rewrite Htok. reflexivity.
    + unfold logout. cbn [snd]. rewrite lookup_delete_ne by discriminate.
      apply lookup_delete_eq.
  - intros r cs1 Hnd Ho Hf Hok Hst Hcs1.
    rewrite Hapi in Hcs1. unfold networkFirst in Hcs1. rewrite Hf, Hok in Hcs1.
    injection Hcs1 as <-.
    assert (E : me fetch'
                  (cachePut API_CACHE (url (meRequest selfOrigin)) r (open API_CACHE cs))
                = (Resolved (Sw.body r), Some (Sw.status r))).
    { unfold me. rewrite Hapi. unfold networkFirst. rewrite Hoff.
      rewrite (cachesMatch_single API_CACHE).
      - rewrite cacheMatch_put_open by exact Hst. unfold axiosGet. rewrite Hok. reflexivity.
      - rewrite keys_cachePut. apply NoDup_keys_open, Hnd.
      - apply othersMiss_cachePut, othersMiss_open, Ho. }
    split; [exact E|]. rewrite E. unfold verifyOnMount. rewrite Htok. reflexivity.
  - intros r cs1 Hmiss Hf Hst Hcs1.
    rewrite Hapi in Hcs1. unfold networkFirst in Hcs1. rewrite Hf in Hcs1.
    assert (Hmiss1 : cachesMatch (url (meRequest selfOrigin)) cs1 = None).
    { destruct (ok r); injection Hcs1 as <-; [|exact Hmiss].
      rewrite cachePut_refused by exact Hst. rewrite cachesMatch_open. exact Hmiss. }
    split; [exact (Hout cs1 Hmiss1)|].
    rewrite (Hout cs1 Hmiss1). unfold verifyOnMount. rewrite Htok. reflexivity.
Qed.

Lemma offline_start_session_witness :
  Auth.truthy (token unit MoreSamples.signedIn) = true
  /\ Samples.failedFetch (meRequest "https://consult.example")
     = FetchError "TypeError: Failed to fetch"
  /\ cachesMatch (url (meRequest "https://consult.example")) [] = None
  /\ verifyOnMount unit MoreSamples.stringifyUnit
       (dataOf (fun _ => tt)
          (fst (axiosGet (onFetch "https://consult.example" Samples.failedFetch
                            (meRequest "https://consult.example") [])
                  (Samples.failedFetch (meRequest "https://consult.example")))))
       MoreSamples.signedIn {[ "ps_token" := "jwt" ]}
     = logout unit {[ "ps_token" := "jwt" ]}
  /\ storable MoreSamples.variedResponse = false
  /\ verifyOnMount unit MoreSamples.stringifyUnit
       (dataOf (fun _ => tt)
          (fst (axiosGet (onFetch "https://consult.example" Samples.failedFetch
                            (meRequest "https://consult.example")
                            (open API_CACHE []))
                  (Samples.failedFetch (meRequest "https://consult.example")))))
       MoreSamples.signedIn {[ "ps_token" := "jwt" ]}
     = logout unit {[ "ps_token" := "jwt" ]}.
Proof.
  split; [reflexivity|]. split; [reflexivity|]. split; [reflexivity|].
  split; [|split; [reflexivity|]].
  - destruct (offline_start_session unit MoreSamples.stringifyUnit (fun _ => tt)
                "https://consult.example" Samples.failedFetch Samples.failedFetch []
                MoreSamples.signedIn {[ "ps_token" := "jwt" ]}
                "TypeError: Failed to fetch" eq_refl eq_refl) as (H & _).
    apply (H eq_refl).
  - destruct (offline_start_session unit MoreSamples.stringifyUnit (fun _ => tt)
                "https://consult.example"
                (MoreSamples.answering MoreSamples.variedResponse) Samples.failedFetch []
                MoreSamples.signedIn {[ "ps_token" := "jwt" ]}
                "TypeError: Failed to fetch" eq_refl eq_refl) as (_ & _ & H).
    apply (H MoreSamples.variedResponse (open API_CACHE []) eq_refl eq_refl eq_refl eq_refl).
Defined.

End SessionProperties.

(** ** Client ids *)

Module IdFacts.
Import OfflineDb IdNotions.

Lemma digits_NilEmpty (d : Decimal.uint) : digits (NilEmpty.string_of_uint d) = true.
Proof. induction d; simpl; auto. Qed.

Lemma digits_ofInt (n : Z) : 0 <= n -> digits (Js.ofInt n) = true.
Proof.
  intros Hn. unfold Js.ofInt, Z.to_int. destruct n as [|p|p]; [reflexivity| |lia].
  unfold NilZero.string_of_int, NilZero.string_of_uint.
  destruct (Pos.to_uint p); try reflexivity; apply (digits_NilEmpty (_ _)).
Qed.

Lemma ofInt_inj (a b : Z) : Js.ofInt a = Js.ofInt b -> a = b.
Proof.
  unfold Js.ofInt. intros H. apply DecimalZ.to_int_inj.
  assert (N : forall n, Z.to_int n <> Decimal.Pos Decimal.Nil
                        /\ Z.to_int n <> Decimal.Neg Decimal.Nil).
  { intros [|p|p]; simpl; split; try discriminate;
      intros [= E]; exact (DecimalPos.Unsigned.to_uint_nonnil p E). }
  apply (f_equal NilZero.int_of_string) in H.
  rewrite !NilZero.isi in H by apply N. injection H as H. exact H.
Qed.

Lemma startsWith_app (p s : string) : Js.startsWith p (p +:+ s) = true.
Proof.
  unfold Js.startsWith. induction p as [|a p IH].
  - destruct s; reflexivity.
  - change (String.prefix (String a p) (String a (p +:+ s)) = true).
    simpl. destruct (ascii_dec a a); [exact IH | congruence].
Qed.

(** Two strings that start with digits and a hyphen are equal only if
    the digits are. *)
Lemma digits_dash_inj (s1 s2 x y : string) :
  digits s1 = true -> digits s2 = true ->
  s1 +:+ String "-" x = s2 +:+ String "-" y -> s1 = s2 /\ x = y.
Proof.
  revert s2. induction s1 as [|a s1 IH]; intros [|b s2] H1 H2 E.
  - injection E as ->. auto.
  - exfalso. change (String "-" x = String b (s2 +:+ String "-" y)) in E.
    injection E as <- _. discriminate H2.
  - exfalso. change (String a (s1 +:+ String "-" x) = String "-" y) in E.
    injection E as -> _. discriminate H1.
  - change (String a (s1 +:+ String "-" x) = String b (s2 +:+ String "-" y)) in E.
    injection E as -> E. simpl in H1, H2.
    apply andb_true_iff in H1 as [_ H1]. apply andb_true_iff in H2 as [_ H2].
    destruct (IH s2 H1 H2 E) as [-> ->]. auto.
Qed.

End IdFacts.

(** ** Route guards *)

Module GuardFacts.
Import Auth Guards.

Lemma existsb_includes (x : string) (rs : list string) :
  existsb (fun r => Sw.includes x [r]) rs = Sw.includes x rs.
Proof.
  unfold Sw.includes. induction rs as [|r rs IH]; simpl; [reflexivity|].
  rewrite orb_false_r. f_equal. exact IH.
Qed.

End GuardFacts.

Section IdentityProperties.
Import OfflineDb IdNotions IdFacts.

(** X27. Client ids tell submissions apart.  The client id
    [saveOfflineConsult] returns, which is also the [client_id] of the
    payload, starts with ['offline-'].  For clock readings that are not
    negative, two calls return the same client id exactly when they
    read the same millisecond and their random strings agree on the
    characters 2 to 8; so submissions made at different milliseconds
    never share a client id. *)
Theorem clientId_distinct (now1 now2 now1' now2' : Z) (rnd rnd' : string)
    (data data' : gmap string string) (db db' : Db) :
  0 <= now1 -> 0 <= now1' ->
  let clientId := snd (fst (saveOfflineConsult now1 now2 rnd data db)) in
  let clientId' := snd (fst (saveOfflineConsult now1' now2' rnd' data' db')) in
  Js.startsWith "offline-" clientId = true
  /\ (clientId = clientId' <-> now1 = now1' /\ Js.slice 2 9 rnd = Js.slice 2 9 rnd')
  /\ (now1 <> now1' -> clientId <> clientId').
Proof.
  intros H1 H2 clientId clientId'.
  assert (E : clientId = clientId'
              <-> now1 = now1' /\ Js.slice 2 9 rnd = Js.slice 2 9 rnd').
  { unfold clientId, clientId', saveOfflineConsult. cbn [fst snd]. split.
    - intros H. apply String.app_inj in H.
      apply digits_dash_inj in H as [Ha Hb]; try (apply digits_ofInt; assumption).
      split; [apply ofInt_inj, Ha | exact Hb].
    - intros [-> ->]. reflexivity. }
  split; [|split; [exact E|]].
  - unfold clientId, saveOfflineConsult. cbn [fst snd].
    apply startsWith_app.
  - intros Hne Heq. apply E in Heq. tauto.
Qed.

Lemma clientId_distinct_witness :
  0 <= 1709210096789 /\ 0 <= 1709210096790 /\ 1709210096789 <> 1709210096790
  /\ snd (fst (saveOfflineConsult 1709210096789 1709210096789 "0.4fzyo82mvyr" ∅ emptyDb))
     <> snd (fst (saveOfflineConsult 1709210096790 1709210096790 "0.4fzyo82mvyr" ∅ emptyDb)).
Proof.
  assert (H1 : 0 <= 1709210096789) by lia.
  assert (H2 : 0 <= 1709210096790) by lia.
  assert (H3 : 1709210096789 <> 1709210096790) by lia.
  split; [exact H1|]. split; [exact H2|]. split; [exact H3|].
  destruct (clientId_distinct 1709210096789 1709210096789 1709210096790 1709210096790
              "0.4fzyo82mvyr" "0.4fzyo82mvyr" ∅ ∅ emptyDb emptyDb H1 H2) as (_ & _ & H).
  exact (H H3).
Defined.

End IdentityProperties.

Section GuardProperties.
Import Auth Guards GuardFacts.

(** X28. The navigation and the route guards.  For an authenticated
    user and any list of roles, [Layout] shows a navigation item with
    these roles exactly when [ProtectedRoute] with these roles renders
    its children; so the Admin item is shown exactly to the users that
    the admin route lets in.  The review route lets in exactly the
    plastic surgery team.  The button 'Review & Document' of the
    consult page does not agree with it: for an admin and a consult
    that is 'accepted' or 'on_the_way' the button is shown, and the
    route it leads to redirects to the dashboard. *)
Theorem nav_and_route_guards (User : Type) (role : User -> string)
    (st : AuthState User) :
  isAuthenticated User st = true ->
  (forall roles, navShown User role roles st = true
                 <-> ProtectedRoute User role roles st = Children)
  /\ (navShown User role (Some ["admin"]) st = true
      <-> adminRoute User role st = Children)
  /\ (reviewRoute User role st = Children
      <-> isPlasticSurgeryTeam User role st = true)
  /\ (hasRole User role ["admin"] st = true ->
      forall s, In s ["accepted"; "on_the_way"] ->
        showsReviewButton User role s st = true
        /\ reviewRoute User role st = NavigateTo "/app/dashboard").
Proof.
  intros Ha.
  assert (Hu : exists u, user User st = Some u).
  { unfold isAuthenticated in Ha. destruct (user User st) as [u|]; [eauto|].
    rewrite andb_false_r in Ha. discriminate. }
  destruct Hu as [u Hu].
  assert (G : forall rs, ProtectedRoute User role (Some rs) st = Children
                         <-> Sw.includes (role u) rs = true).
  { intros rs. unfold ProtectedRoute. rewrite Ha, Hu. cbn [negb].
    destruct (Sw.includes (role u) rs); simpl; split; congruence. }
  assert (G0 : ProtectedRoute User role None st = Children).
  { unfold ProtectedRoute. rewrite Ha. reflexivity. }
  assert (N : forall roles, navShown User role roles st = true
                            <-> ProtectedRoute User role roles st = Children).
  { intros [rs|]; [|split; [intros _; exact G0 | reflexivity]].
    rewrite G. unfold navShown, hasRole. rewrite Hu.
    rewrite existsb_includes. reflexivity. }
  split; [exact N|]. split; [|split].
  - unfold adminRoute. rewrite G0. cbn [nested]. apply N.
  - unfold reviewRoute. rewrite G0. cbn [nested]. rewrite G.
    unfold isPlasticSurgeryTeam, hasRole. rewrite Hu. reflexivity.
  - intros Hadm s Hs. unfold hasRole in Hadm. rewrite Hu in Hadm.
    assert (Er : role u = "admin").
    { unfold Sw.includes in Hadm. simpl in Hadm. rewrite orb_false_r in Hadm.
      apply String.eqb_eq in Hadm. exact Hadm. }
    split.
    + unfold showsReviewButton, canManage, isPlasticSurgeryTeam, hasRole.
      rewrite Hu, Er.
      destruct Hs as [<-|[<-|[]]]; reflexivity.
    + unfold reviewRoute. rewrite G0. cbn [nested].
      unfold ProtectedRoute. rewrite Ha, Hu, Er. reflexivity.
Qed.

Lemma nav_and_route_guards_witness :
  isAuthenticated string (MakeAuth string (Some "admin") (Some "jwt")) = true
  /\ hasRole string (fun r => r) ["admin"] (MakeAuth string (Some "admin") (Some "jwt")) = true
  /\ showsReviewButton string (fun r => r) "accepted"
       (MakeAuth string (Some "admin") (Some "jwt")) = true
  /\ reviewRoute string (fun r => r) (MakeAuth string (Some "admin") (Some "jwt"))
     = NavigateTo "/app/dashboard".
Proof.
  split; [reflexivity|]. split; [reflexivity|].
  destruct (nav_and_route_guards string (fun r => r)
              (MakeAuth string (Some "admin") (Some "jwt")) eq_refl) as (_ & _ & _ & H).
  apply (H eq_refl "accepted"). left. reflexivity.
Defined.

End GuardProperties.

(** ** Retention of what a pass has synced *)

Module RetentionFacts.
Import OfflineDb Props Notions QueueFacts PassFacts.

(** A row that the filter drops is not read any more. *)
Lemma get_filter_out {R : Type} (key : R -> Z) (q : R -> bool) (k : Z)
    (rows : list R) (r : R) :
  StronglySorted Z.lt (map key rows) ->
  Dexie.get key k rows = Some r -> q r = false ->
  Dexie.get key k (List.filter q rows) = None.
Proof.
  induction rows as [|x rows IH]; simpl; [discriminate|].
  intros Hs. apply StronglySorted_inv in Hs as [Hs Hx].
  destruct (key x =? k) eqn:E.
  - intros [= ->] Hq. rewrite Hq. apply Z.eqb_eq in E.
    apply get_lt. apply List.Forall_forall. intros y Hy.
    apply filter_In in Hy as [Hy _]. rewrite List.Forall_forall in Hx.
    rewrite <- E. apply Hx. apply in_map. exact Hy.
  - intros G Hq. destruct (q x); simpl; [rewrite E|]; auto.
Qed.

End RetentionFacts.

Section RetentionProperties.
Import OfflineDb Props Notions QueueFacts PassFacts RetentionFacts.

(** X29. The retention of an entry counts from its creation, not from
    its transmission.  On a store as Dexie keeps it, for an entry of
    the snapshot whose transmission fulfils and whose [createdAt] is
    the clock reading [t] (clock readings within the years 1970 to
    9999): when [t] is more than seven days before the cleanup of the
    pass, the entry is deleted by the very pass that transmitted it;
    otherwise it is kept, 'synced' and otherwise unchanged. *)
Theorem synced_entry_retention {W : Type}
    (syncFn : gmap string string -> W -> bool * W) (now : Z) (db : Db) (w : W)
    (i : nat) (e : Entry.t) (t : Z) :
  wfDb db ->
  getPendingConsults db !! i = Some e ->
  outcomes syncFn (getPendingConsults db) w !! i = Some true ->
  Entry.createdAt e = JsDate.toISOString t ->
  0 <= t <= JsDate.maxFourDigitTime ->
  7 * 86400000 <= now <= JsDate.maxFourDigitTime ->
  let db' := snd (fst (syncAllPending syncFn now db w)) in
  (t < now - 7 * 86400000 ->
   Dexie.get Entry.id (Entry.id e) (offlineConsults db') = None)
  /\ (now - 7 * 86400000 <= t ->
      Dexie.get Entry.id (Entry.id e) (offlineConsults db')
      = Some (setStatus Entry.synced e)).
Proof.
  intros Hwf Hi Ho Hc Ht Hnow db'. unfold db'.
  rewrite syncAllPending_spec. cbn [fst snd]. rewrite cleanup_rows.
  set (pending := getPendingConsults db) in *.
  set (outs := outcomes syncFn pending w) in *.
  assert (Hin : In e (offlineConsults db)).
  { apply list_elem_of_lookup_2, list_elem_of_In, filter_In in Hi. tauto. }
  assert (G : Dexie.get Entry.id (Entry.id e)
                (offlineConsults (fold_left mark (combine pending outs) db))
              = Some (setStatus Entry.synced e)).
  { rewrite (fold_mark_get pending outs db i e true);
      [|apply wfDb_pending_NoDup; exact Hwf | exact Hi | exact Ho].
    rewrite (get_In_sorted Entry.id _ e (proj1 Hwf) Hin). reflexivity. }
  assert (Hs : StronglySorted Z.lt
                 (map Entry.id
                    (offlineConsults (fold_left mark (combine pending outs) db)))).
  { destruct (fold_mark_frame (combine pending outs) db) as (-> & _).
    exact (proj1 Hwf). }
  assert (Ex : expired now (setStatus Entry.synced e)
               = (t <? now - 7 * 86400000)).
  { unfold expired, setStatus. cbn [Entry.status Entry.createdAt Entry.status_eqb andb].
    rewrite Hc. replace (7 * 24 * 60 * 60 * 1000) with (7 * 86400000) by reflexivity.
    apply DateFacts.toISOString_lt; lia. }
  split; intros H.
  - apply (get_filter_out Entry.id _ _ _ _ Hs G).
    rewrite Ex. apply negb_false_iff, Z.ltb_lt, H.
  - apply (get_filter Entry.id _ _ _ _ G).
    rewrite Ex. apply negb_true_iff, Z.ltb_ge, H.
Qed.

Lemma synced_entry_retention_witness :
  wfDb Samples.aged
  /\ getPendingConsults Samples.aged !! 0%nat
     = Some (Samples.entry 4 Entry.pending
               (JsDate.toISOString (Samples.now - 30 * Samples.day)) 0)
  /\ Samples.now - 30 * Samples.day < Samples.now - 7 * 86400000
  /\ Dexie.get Entry.id
       (Entry.id (Samples.entry 4 Entry.pending
                    (JsDate.toISOString (Samples.now - 30 * Samples.day)) 0))
       (offlineConsults
          (snd (fst (syncAllPending (fun _ (w : unit) => (true, w)) Samples.now
                       Samples.aged tt))))
     = None.
Proof.
  assert (Hwf : wfDb Samples.aged).
  { split.
    - change (map Entry.id (offlineConsults Samples.aged)) with [1; 2; 3; 4].
      repeat constructor; lia.
    - apply (Forall_map Entry.id (fun k => k < offlineConsultsNextId Samples.aged)).
      change (map Entry.id (offlineConsults Samples.aged)) with [1; 2; 3; 4].
      change (offlineConsultsNextId Samples.aged) with 5.
      repeat constructor; lia. }
  assert (Hlt : Samples.now - 30 * Samples.day < Samples.now - 7 * 86400000)
    by (vm_compute; reflexivity).
  assert (Hp : getPendingConsults Samples.aged !! 0%nat
               = Some (Samples.entry 4 Entry.pending
                         (JsDate.toISOString (Samples.now - 30 * Samples.day)) 0))
    by (vm_compute; reflexivity).
  assert (Ho : outcomes (fun _ (w : unit) => (true, w))
                 (getPendingConsults Samples.aged) tt !! 0%nat = Some true)
    by (vm_compute; reflexivity).
  assert (Hc : Entry.createdAt
                 (Samples.entry 4 Entry.pending
                    (JsDate.toISOString (Samples.now - 30 * Samples.day)) 0)
               = JsDate.toISOString (Samples.now - 30 * Samples.day))
    by reflexivity.
  assert (H1 : 0 <= Samples.now - 30 * Samples.day <= JsDate.maxFourDigitTime)
    by (split; vm_compute; discriminate).
  assert (H2 : 7 * 86400000 <= Samples.now <= JsDate.maxFourDigitTime)
    by (split; vm_compute; discriminate).
  split; [exact Hwf|]. split; [exact Hp|]. split; [exact Hlt|].
  exact (proj1 (synced_entry_retention (fun _ (w : unit) => (true, w)) Samples.now
                  Samples.aged tt 0%nat
                  (Samples.entry 4 Entry.pending
                     (JsDate.toISOString (Samples.now - 30 * Samples.day)) 0)
                  (Samples.now - 30 * Samples.day) Hwf Hp Ho Hc H1 H2) Hlt).
Defined.

End RetentionProperties.
